(** * YouTube-Video-Shortifier: a shallow embedding of the two pipeline scripts

    The repository holds two variants of one pipeline,
    [ShortifyYtVideo_Ffmpeg.py] and [ShortifyYtVideo_Moviepy.py].  Both are
    glue around external collaborators (the YouTube data API, pytubefix,
    ffmpeg / ffprobe, moviepy).  The embedding keeps the Python control flow
    and makes every external call an oracle of an environment record, so that
    theorems quantify over all behaviours of the collaborators.

    Conventions.
    - A Python [str] is a Rocq [string]; characters are the code points below
      256 (Latin-1), with the character classes of CPython 3.11 on them.
    - A Python [int] is a [Z].
    - Paths are joined as [posixpath] joins them ([os.path] on Linux and
      macOS).
    - Exceptions are values of [exn]; only subclasses of [Exception] are
      modelled (KeyboardInterrupt and SystemExit are outside the model).
    - A Python float is an IEEE 754 double, modelled by the rational it
      denotes; an arithmetic operation is the exact one followed by rounding
      to the nearest double (module [Float]). *)

From Stdlib Require Import ZArith QArith Qround Qpower Lqa String Ascii List Lia Bool.
From Equations Require Import Equations.
From stdpp Require Import gmap strings list pretty.
Import ListNotations.

Open Scope string_scope.
Open Scope Z_scope.

(* ===================================================================== *)
(** ** Python strings                                                     *)
(* ===================================================================== *)

Module PyStr.

Definition code (c : ascii) : N := N_of_ascii c.

Definition in_range (lo hi : N) (c : ascii) : bool :=
  (lo <=? code c)%N && (code c <=? hi)%N.

Definition is_char (n : N) (c : ascii) : bool := (code c =? n)%N.

(** [str.isspace] on Latin-1. *)
Definition isspace (c : ascii) : bool :=
  in_range 9 13 c || in_range 28 32 c || is_char 133 c || is_char 160 c.

(** [str.isalnum] on Latin-1. *)
Definition isalnum (c : ascii) : bool :=
  in_range 48 57 c || in_range 65 90 c || in_range 97 122 c
  || is_char 170 c || in_range 178 179 c || is_char 181 c
  || in_range 185 186 c || in_range 188 190 c
  || in_range 192 214 c || in_range 216 246 c || in_range 248 255 c.

(** The regular-expression classes [\w] and [\d] of the [re] module on
    [str] patterns. *)
Definition re_w (c : ascii) : bool := isalnum c || is_char 95 c.
Definition re_d (c : ascii) : bool := in_range 48 57 c.

Definition chars (s : string) : list ascii := list_ascii_of_string s.
Definition str (l : list ascii) : string := string_of_list_ascii l.

Definition space : ascii := " "%char.
Definition newline : ascii := ascii_of_N 10.
Definition nl : string := String newline EmptyString.

(** [sep.join(parts)] *)
Fixpoint join (sep : string) (parts : list string) : string :=
  match parts with
  | [] => EmptyString
  | [p] => p
  | p :: ps => p ++ sep ++ join sep ps
  end.

(** [s.strip()] with no argument: drop [isspace] characters at both ends. *)
Fixpoint lstrip_chars (l : list ascii) : list ascii :=
  match l with
  | c :: l' => if isspace c then lstrip_chars l' else l
  | [] => []
  end.

Definition strip_chars (l : list ascii) : list ascii :=
  rev (lstrip_chars (rev (lstrip_chars l))).

Definition strip (s : string) : string := str (strip_chars (chars s)).

(** [s.strip() == ''] *)
Definition is_blank (l : list ascii) : bool := forallb isspace l.

(** [s.split(sep)] for a one-character separator. *)
Fixpoint split_chars (sep : ascii) (cur : list ascii) (l : list ascii)
  : list (list ascii) :=
  match l with
  | [] => [rev cur]
  | c :: l' =>
      if Ascii.eqb c sep then rev cur :: split_chars sep [] l'
      else split_chars sep (c :: cur) l'
  end.

Definition split (sep : ascii) (s : string) : list string :=
  map str (split_chars sep [] (chars s)).

(** [s.replace(old, new)] for a one-character [old]. *)
Definition replace_char (old : ascii) (new : string) (s : string) : string :=
  str (flat_map (fun c => if Ascii.eqb c old then chars new else [c]) (chars s)).

(** [s.startswith(p)] and [s.endswith(p)]. *)
Definition startswith (p s : string) : bool := String.prefix p s.
Definition endswith (p s : string) : bool :=
  String.prefix (str (rev (chars p))) (str (rev (chars s))).

(** [int(s)]: surrounding blanks are dropped, then an optional sign and
    decimal digits, single underscores allowed between digits
    ([int_literal]); a literal of more than 4300 digits is refused
    ([over_limit]).  [None] stands for [ValueError].  The blanks [int]
    accepts are the ASCII ones and the two Latin-1 spaces (not the
    separators 28..31). *)
Definition int_blank (c : ascii) : bool :=
  in_range 9 13 c || is_char 32 c || is_char 133 c || is_char 160 c.

Fixpoint drop_int_blank (l : list ascii) : list ascii :=
  match l with
  | c :: l' => if int_blank c then drop_int_blank l' else l
  | [] => []
  end.

Definition digit_val (c : ascii) : Z := Z.of_N (code c) - 48.

(** [digits acc after_digit l]: [after_digit] tells whether the previous
    character was a digit (an underscore is legal only then, and must be
    followed by a digit). *)
Fixpoint digits (acc : Z) (after_digit : bool) (l : list ascii) : option Z :=
  match l with
  | [] => if after_digit then Some acc else None
  | c :: l' =>
      if re_d c then digits (10 * acc + digit_val c) true l'
      else if is_char 95 c && after_digit then
        match l' with
        | d :: _ => if re_d d then digits acc false l' else None
        | [] => None
        end
      else None
  end.

Definition int_literal (s : string) : option Z :=
  let body := rev (drop_int_blank (rev (drop_int_blank (chars s)))) in
  match body with
  | c :: l' =>
      if is_char 45 c then option_map Z.opp (digits 0 false l')
      else if is_char 43 c then digits 0 false l'
      else digits 0 false body
  | [] => None
  end.

(** The limit on decimal literals (CPython 3.11): after the blanks and
    the sign, the run of digits and underscores at the head of the text is
    scanned; [scan_digits] gives the number of its digits, or [None] when
    an underscore follows another or ends the run.  More than 4300 digits
    are refused, before anything behind the run is looked at. *)
Fixpoint scan_digits (after_underscore : bool) (n : Z) (l : list ascii)
  : option Z :=
  match l with
  | [] => if after_underscore then None else Some n
  | c :: l' =>
      if re_d c then scan_digits false (n + 1) l'
      else if is_char 95 c then
        if after_underscore then None else scan_digits true n l'
      else if after_underscore then None else Some n
  end.

Definition unsigned (l : list ascii) : list ascii :=
  match l with
  | c :: l' => if is_char 45 c || is_char 43 c then l' else l
  | [] => []
  end.

(** The number of digits, when it is above the limit. *)
Definition over_limit (s : string) : option Z :=
  match unsigned (drop_int_blank (chars s)) with
  | c :: l' =>
      if is_char 95 c then None
      else match scan_digits false 0 (c :: l') with
           | Some n => if 4300 <? n then Some n else None
           | None => None
           end
  | [] => None
  end.

Definition int (s : string) : option Z :=
  match over_limit s with
  | Some _ => None
  | None => int_literal s
  end.

(** [repr(s)] of a [str] on Latin-1: between apostrophes, or between
    double quotes when the text holds an apostrophe and no double quote;
    the quote and the backslash are escaped, and so are the characters
    that do not print (controls, the no-break space, the soft hyphen). *)
Definition hex_digit (n : N) : ascii :=
  nth (N.to_nat n) (chars "0123456789abcdef") "0"%char.

Definition printable (c : ascii) : bool :=
  in_range 32 126 c || in_range 161 172 c || in_range 174 255 c.

Definition backslash : ascii := ascii_of_N 92.

Definition repr_char (quote : ascii) (c : ascii) : list ascii :=
  if Ascii.eqb c quote || is_char 92 c then [backslash; c]
  else if is_char 9 c then [backslash; "t"%char]
  else if is_char 10 c then [backslash; "n"%char]
  else if is_char 13 c then [backslash; "r"%char]
  else if printable c then [c]
  else [backslash; "x"%char; hex_digit (code c / 16); hex_digit (code c mod 16)].

Definition repr_quote (l : list ascii) : ascii :=
  if existsb (is_char 39) l && negb (existsb (is_char 34) l)
  then ascii_of_N 34 else "'"%char.

Definition repr (s : string) : string :=
  let quote := repr_quote (chars s) in
  str (quote :: flat_map (repr_char quote) (chars s) ++ [quote]).

(** The message of the [ValueError] that [int(s)] raises: the limit, or
    the text itself, as [%.200R] shows it. *)
Definition int_error (s : string) : string :=
  match over_limit s with
  | Some n =>
      "Exceeds the limit (4300 digits) for integer string conversion: value has "
      ++ pretty n
      ++ " digits; use sys.set_int_max_str_digits() to increase the limit"
  | None =>
      "invalid literal for int() with base 10: "
      ++ str (firstn 200 (chars (repr s)))
  end.

End PyStr.

(* ===================================================================== *)
(** ** [textwrap.wrap] (CPython 3.11, default options)                    *)
(* ===================================================================== *)

(** [break_text] calls [textwrap.wrap(text, width=line_width)].  The model
    follows [TextWrapper] with its defaults: [expand_tabs], 
    [replace_whitespace], [drop_whitespace], [break_long_words] and
    [break_on_hyphens] on, no indent, no [max_lines]. *)

Module TextWrap.
Import PyStr.
Local Open Scope list_scope.

(** The module's [_whitespace]: tab, line feed, vertical tab, form feed,
    carriage return and space. *)
Definition is_ws (c : ascii) : bool := in_range 9 13 c || is_char 32 c.
Definition is_hyphen (c : ascii) : bool := is_char 45 c.

(** [word_punct]: a [\w] character or one of ! (33), double quote (34),
    apostrophe (39), & (38), full stop (46), comma (44), ? (63).
    [letter]: a [\w] character that is not a [\d]. *)
Definition word_punct (c : ascii) : bool :=
  re_w c || is_char 33 c || is_char 34 c || is_char 39 c || is_char 38 c
  || is_char 46 c || is_char 44 c || is_char 63 c.
Definition letter (c : ascii) : bool := re_w c && negb (re_d c).

(** [text.expandtabs(8)]: the column restarts after a line feed or a
    carriage return. *)
Fixpoint expandtabs (col : nat) (l : list ascii) : list ascii :=
  match l with
  | [] => []
  | c :: l' =>
      if is_char 9 c then
        let incr := (8 - col mod 8)%nat in
        repeat space incr ++ expandtabs (col + incr) l'
      else if is_char 10 c || is_char 13 c then c :: expandtabs 0 l'
      else c :: expandtabs (S col) l'
  end.

(** [text.translate(unicode_whitespace_trans)] *)
Definition replace_whitespace (l : list ascii) : list ascii :=
  map (fun c => if is_ws c then space else c) l.

Definition munge_whitespace (l : list ascii) : list ascii :=
  replace_whitespace (expandtabs 0 l).

(** *** [wordsep_re.split]

    The pattern is an alternation of three branches inside one group:
    a run of whitespace; an em-dash between words; a word, possibly
    hyphenated.  It matches a non-empty chunk at every position, so the
    split (after dropping empty strings) is the sequence of successive
    matches.  [prev] holds the characters before the current position,
    nearest first, for the look-behind assertions. *)

Definition char_is (p : ascii -> bool) (l : list ascii) (i : nat) : bool :=
  match nth_error l i with Some c => p c | None => false end.

Fixpoint span_len (p : ascii -> bool) (l : list ascii) : nat :=
  match l with
  | c :: l' => if p c then S (span_len p l') else O
  | [] => O
  end.

(** Two or more hyphens followed by a [\w] character, at the head of [l]:
    the run of hyphens is taken whole (a shorter run is followed by a
    hyphen, which is not [\w]). *)
Definition emdash_ahead (l : list ascii) : option nat :=
  let n := span_len is_hyphen l in
  if (2 <=? n)%nat && char_is re_w l n then Some n else None.

(** Second branch: an em-dash preceded by a [word_punct] character. *)
Definition match_emdash (prev rest : list ascii) : option nat :=
  if char_is word_punct prev 0 then emdash_ahead rest else None.

(** Third branch: the shortest non-empty run of non-whitespace that is
    followed by (a) a hyphen of a hyphenated word, which joins the match,
    (b) whitespace or the end of the text, or (c) an em-dash.
    [back] holds the characters before the current point, nearest first
    (the part of the word consumed so far, then [prev]); [l] is what
    follows. *)
Definition hyphenated (back l : list ascii) : bool :=
  match l with
  | h :: l' =>
      is_hyphen h
      && ((char_is letter back 0 && char_is letter back 1)
          || (char_is letter back 0 && char_is is_hyphen back 1
              && char_is letter back 2))
      && char_is letter l' 0
      && (char_is letter l' 1
          || (char_is is_hyphen l' 1 && char_is letter l' 2))
  | [] => false
  end.

Definition end_of_word (l : list ascii) : bool :=
  match l with
  | c :: _ => is_ws c
  | [] => true
  end.

Definition before_emdash (back l : list ascii) : bool :=
  char_is word_punct back 0
  && match emdash_ahead l with Some _ => true | None => false end.

(** [word_len back k l]: the word has consumed [k >= 1] characters. *)
Fixpoint word_len (back : list ascii) (k : nat) (l : list ascii) : nat :=
  if hyphenated back l then S k
  else if end_of_word l then k
  else if before_emdash back l then k
  else match l with
       | c :: l' => word_len (c :: back) (S k) l'
       | [] => k
       end.

(** Length of the match of [wordsep_re] at the head of [c :: rest]. *)
Definition match_len (prev : list ascii) (c : ascii) (rest : list ascii) : nat :=
  if is_ws c then S (span_len is_ws rest)
  else match match_emdash prev (c :: rest) with
       | Some n => n
       | None => word_len (c :: prev) 1 rest
       end.

Lemma word_len_ge back k l : (k <= word_len back k l)%nat.
Proof.
  revert back k; induction l as [|c l IH]; intros back k; cbn [word_len].
  - destruct (hyphenated back []), (end_of_word []), (before_emdash back []); lia.
  - destruct (hyphenated back (c :: l)); [lia|].
    destruct (end_of_word (c :: l)); [lia|].
    destruct (before_emdash back (c :: l)); [lia|].
    specialize (IH (c :: back) (S k)); lia.
Qed.

Lemma match_len_pos prev c rest : (1 <= match_len prev c rest)%nat.
Proof.
  unfold match_len. destruct (is_ws c); [lia|].
  pose proof (word_len_ge (c :: prev) 1 rest) as Hw.
  unfold match_emdash, emdash_ahead.
  destruct (char_is word_punct prev 0); [|exact Hw].
  destruct (2 <=? span_len is_hyphen (c :: rest))%nat eqn:E; [|exact Hw].
  destruct (char_is re_w (c :: rest) (span_len is_hyphen (c :: rest)));
    [|exact Hw].
  apply Nat.leb_le in E. cbn [andb]. lia.
Qed.

Equations? split_loop (prev rest : list ascii) : list (list ascii)
  by wf (length rest) lt :=
  split_loop prev [] := [];
  split_loop prev (c :: rest) :=
    let n := match_len prev c rest in
    firstn n (c :: rest)
      :: split_loop (rev (firstn n (c :: rest)) ++ prev) (skipn n (c :: rest)).
Proof.
  pose proof (match_len_pos prev c rest) as Hpos.
  destruct (match_len prev c rest) as [|m]; [lia|].
  simpl. rewrite length_skipn. lia.
Qed.

(** [_split_chunks]: munge, split, drop the empty strings. *)
Definition split_chunks (text : list ascii) : list (list ascii) :=
  List.filter (fun c => negb (Nat.eqb (length c) 0))
              (split_loop [] (munge_whitespace text)).

(** *** [_wrap_chunks]

    The Python code reverses [chunks] and pops from the end; here the head
    of the list is the next chunk. *)

Definition len (ch : list ascii) : Z := Z.of_nat (length ch).

(** Python slice bounds: [l[:i]] and [l[i:]] for any integer [i]. *)
Definition slice_index (n : nat) (i : Z) : nat :=
  if i <? 0 then Z.to_nat (Z.max 0 (Z.of_nat n + i))
  else Nat.min n (Z.to_nat i).

Definition slice_to {A} (i : Z) (l : list A) : list A :=
  firstn (slice_index (length l) i) l.
Definition slice_from {A} (i : Z) (l : list A) : list A :=
  skipn (slice_index (length l) i) l.

(** [chunk.rfind('-', 0, e)]: the highest index of a hyphen in [chunk[0:e]],
    or [-1]. *)
Fixpoint rfind_aux (l : list ascii) (i best : Z) : Z :=
  match l with
  | [] => best
  | c :: l' => rfind_aux l' (i + 1) (if is_hyphen c then i else best)
  end.

Definition rfind_hyphen (chunk : list ascii) (e : Z) : Z :=
  rfind_aux (slice_to e chunk) 0 (-1).

(** The inner [while chunks] loop: squeeze chunks onto the current line. *)
Fixpoint fill_line (width : Z) (cur_line : list (list ascii)) (cur_len : Z)
    (chunks : list (list ascii))
  : list (list ascii) * Z * list (list ascii) :=
  match chunks with
  | [] => (cur_line, cur_len, [])
  | ch :: rest =>
      if cur_len + len ch <=? width
      then fill_line width (cur_line ++ [ch]) (cur_len + len ch) rest
      else (cur_line, cur_len, chunks)
  end.

(** [_handle_long_word] with [break_long_words] and [break_on_hyphens]:
    returns the new [cur_line] and what is left of the chunk. *)
Definition handle_long_word (width cur_len : Z) (cur_line : list (list ascii))
    (chunk : list ascii) : list (list ascii) * list ascii :=
  let space_left := if width <? 1 then 1 else width - cur_len in
  let hyphen := rfind_hyphen chunk space_left in
  let end_ :=
    if (len chunk >? space_left) && (hyphen >? 0)
       && existsb (fun c => negb (is_hyphen c)) (slice_to hyphen chunk)
    then hyphen + 1 else space_left in
  (cur_line ++ [slice_to end_ chunk], slice_from end_ chunk).

(** A leading blank chunk is dropped, except on the first line. *)
Definition drop_first (has_lines : bool) (chunks : list (list ascii))
  : list (list ascii) :=
  match chunks with
  | ch :: rest => if is_blank ch && has_lines then rest else chunks
  | [] => []
  end.

Definition long_word_step (width cur_len : Z) (cur_line chunks : list (list ascii))
  : list (list ascii) * list (list ascii) :=
  match chunks with
  | ch :: rest =>
      if len ch >? width then
        let '(cl, ch') := handle_long_word width cur_len cur_line ch in
        (cl, ch' :: rest)
      else (cur_line, chunks)
  | [] => (cur_line, [])
  end.

(** A trailing blank chunk of the line is dropped. *)
Definition drop_last_blank (cur_line : list (list ascii)) : list (list ascii) :=
  match rev cur_line with
  | last_chunk :: init => if is_blank last_chunk then rev init else cur_line
  | [] => cur_line
  end.

(** One turn of the outer [while chunks] loop, for non-empty [chunks]:
    the line it appends, if any, and the chunks left. *)
Definition line_step (width : Z) (has_lines : bool) (chunks : list (list ascii))
  : option string * list (list ascii) :=
  let '(cur_line, cur_len, chunks2) :=
    fill_line width [] 0 (drop_first has_lines chunks) in
  let '(cur_line3, chunks3) := long_word_step width cur_len cur_line chunks2 in
  let cur_line4 := drop_last_blank cur_line3 in
  (match cur_line4 with
   | [] => None
   | _ => Some (str (concat cur_line4))
   end, chunks3).

Definition has_lines (lines : list string) : bool :=
  match lines with [] => false | _ => true end.

Definition append_line (lines : list string) (line : option string) : list string :=
  match line with Some l => lines ++ [l] | None => lines end.

(** Every turn of the outer loop consumes a chunk or a character. *)
Fixpoint weight (chunks : list (list ascii)) : nat :=
  match chunks with
  | [] => O
  | ch :: rest => S (length ch + weight rest)
  end.

Lemma fill_line_weight width cur_line cur_len chunks :
  (weight (snd (fill_line width cur_line cur_len chunks)) <= weight chunks)%nat.
Proof.
  revert cur_line cur_len; induction chunks as [|ch rest IH];
    intros cur_line cur_len; cbn [fill_line]; [reflexivity|].
  destruct (cur_len + len ch <=? width); [|reflexivity].
  specialize (IH (cur_line ++ [ch]) (cur_len + len ch)).
  cbn [weight] in *. lia.
Qed.

Lemma fill_line_head width cur_line cur_len ch rest :
  (weight (snd (fill_line width cur_line cur_len (ch :: rest)))
     < weight (ch :: rest))%nat
  \/ (width < cur_len + len ch
      /\ fill_line width cur_line cur_len (ch :: rest)
         = (cur_line, cur_len, ch :: rest)).
Proof.
  cbn [fill_line]. destruct (cur_len + len ch <=? width) eqn:E.
  - left. pose proof (fill_line_weight width (cur_line ++ [ch])
                        (cur_len + len ch) rest).
    cbn [weight] in *. lia.
  - right. apply Z.leb_gt in E. split; [lia|reflexivity].
Qed.

Lemma slice_index_le n i : (slice_index n i <= n)%nat.
Proof. unfold slice_index. destruct (i <? 0) eqn:E; lia. Qed.

Lemma slice_index_pos n i : 1 <= i -> (1 <= n)%nat -> (1 <= slice_index n i)%nat.
Proof. intros Hi Hn. unfold slice_index. destruct (i <? 0) eqn:E; lia. Qed.

Lemma length_slice_from {A} i (l : list A) :
  length (slice_from i l) = (length l - slice_index (length l) i)%nat.
Proof. unfold slice_from. apply length_skipn. Qed.

Lemma length_slice_to {A} i (l : list A) :
  length (slice_to i l) = slice_index (length l) i.
Proof.
  unfold slice_to. rewrite length_firstn.
  pose proof (slice_index_le (length l) i). lia.
Qed.

Lemma long_word_step_weight width cur_len cur_line chunks :
  (weight (snd (long_word_step width cur_len cur_line chunks))
     <= weight chunks)%nat.
Proof.
  destruct chunks as [|ch rest]; cbn [long_word_step]; [reflexivity|].
  destruct (len ch >? width); [|reflexivity].
  unfold handle_long_word. cbn [snd weight].
  rewrite length_slice_from. lia.
Qed.

Lemma long_word_step_progress width cur_line ch rest :
  1 <= width -> width < len ch ->
  (weight (snd (long_word_step width 0 cur_line (ch :: rest)))
     < weight (ch :: rest))%nat.
Proof.
  intros Hw Hlen. cbn [long_word_step].
  assert ((len ch >? width) = true) as -> by (apply Z.gtb_lt; lia).
  unfold handle_long_word. cbn [snd weight].
  rewrite length_slice_from.
  assert ((width <? 1) = false) as -> by (apply Z.ltb_ge; lia).
  rewrite Z.sub_0_r.
  match goal with |- context [slice_index _ ?e] =>
    assert (1 <= e) as He end.
  { destruct (rfind_hyphen ch width >? 0) eqn:E.
    - apply Z.gtb_lt in E.
      match goal with |- context [if ?b then _ else _] => destruct b end; lia.
    - rewrite andb_false_r. cbn [andb]. lia. }
  unfold len in Hlen.
  pose proof (slice_index_pos (length ch) _ He). lia.
Qed.

Lemma drop_first_weight hl chunks :
  (weight (drop_first hl chunks) <= weight chunks)%nat.
Proof.
  destruct chunks as [|ch rest]; cbn [drop_first]; [reflexivity|].
  destruct (is_blank ch && hl); cbn [weight]; lia.
Qed.

Lemma line_step_weight width hl ch rest :
  1 <= width ->
  (weight (snd (line_step width hl (ch :: rest))) < weight (ch :: rest))%nat.
Proof.
  intros Hw. unfold line_step.
  destruct (fill_line width [] 0 (drop_first hl (ch :: rest)))
    as [[cur_line cur_len] chunks2] eqn:Hfill.
  destruct (long_word_step width cur_len cur_line chunks2)
    as [cur_line3 chunks3] eqn:Hlong.
  cbn [snd].
  pose proof (long_word_step_weight width cur_len cur_line chunks2) as H3.
  rewrite Hlong in H3; cbn [snd] in H3.
  pose proof (fill_line_weight width [] 0 (drop_first hl (ch :: rest))) as H2.
  rewrite Hfill in H2; cbn [snd] in H2.
  cbn [drop_first] in *.
  destruct (is_blank ch && hl).
  - cbn [weight] in *. lia.
  - destruct (fill_line_head width [] 0 ch rest) as [Hlt|[Hbig Heq]].
    + rewrite Hfill in Hlt; cbn [snd] in Hlt. lia.
    + rewrite Heq in Hfill. inversion Hfill; subst.
      pose proof (long_word_step_progress width [] ch rest Hw ltac:(lia)) as Hp.
      rewrite Hlong in Hp; cbn [snd] in Hp. exact Hp.
Qed.

(** The outer loop.  [width] is positive: [_wrap_chunks] raises
    [ValueError] first when [self.width <= 0]. *)
Equations? wrap_loop (width : positive) (lines : list string)
    (chunks : list (list ascii)) : list string
  by wf (weight chunks) lt :=
  wrap_loop width lines [] := lines;
  wrap_loop width lines (ch :: rest) :=
    wrap_loop width
      (append_line lines (fst (line_step (Z.pos width) (has_lines lines) (ch :: rest))))
      (snd (line_step (Z.pos width) (has_lines lines) (ch :: rest))).
Proof. apply line_step_weight. lia. Qed.

(** [_wrap_chunks]: [None] stands for the [ValueError] raised when the
    width is not positive. *)
Definition wrap_chunks (width : Z) (chunks : list (list ascii))
  : option (list string) :=
  match width with
  | Z.pos w => Some (wrap_loop w [] chunks)
  | _ => None
  end.

(** [textwrap.wrap(text, width=width)] *)
Definition wrap (text : string) (width : Z) : option (list string) :=
  wrap_chunks width (split_chunks (chars text)).

End TextWrap.

(* ===================================================================== *)
(** ** Python floats                                                      *)
(* ===================================================================== *)

Module Float.

(** Rounding of a rational to the nearest double, ties to even, with 53
    significant bits.  The exponent is not bounded: overflow and
    subnormal numbers are outside the model (the layout arithmetic works
    on quotients and products of frame sizes). *)

Definition pow2 (e : Z) : Q := (2 ^ e)%Q.

(** Rounding to the nearest integer, ties to the even one. *)
Definition rne (x : Q) : Z :=
  let f := Qfloor x in
  match (x - inject_Z f ?= 1 # 2)%Q with
  | Lt => f
  | Gt => f + 1
  | Eq => if Z.even f then f else f + 1
  end.

(** For [q > 0], the exponent [e] of the unit in the last place:
    [2^(e+52) <= q < 2^(e+53)]. *)
Definition exponent (q : Q) : Z :=
  let e0 := Z.log2 (Qnum q) - Z.log2 (Z.pos (Qden q)) - 53 in
  if Qle_bool (pow2 (e0 + 53)) q then e0 + 1 else e0.

Definition round_pos (q : Q) : Q :=
  let e := exponent q in
  Qred (inject_Z (rne (q / pow2 e)) * pow2 e).

Definition round53 (q : Q) : Q :=
  match (q ?= 0)%Q with
  | Eq => 0%Q
  | Gt => round_pos q
  | Lt => Qopp (round_pos (Qopp q))
  end.

End Float.

(* ===================================================================== *)
(** ** Exceptions and results                                             *)
(* ===================================================================== *)

(** The exception classes the two scripts raise, catch or let through. *)
Inductive exn_class :=
| PlainException       (* Exception itself, as in raise Exception(...) *)
| ValueError
| TypeError
| IndexError
| ZeroDivisionError
| CalledProcessError   (* subprocess.CalledProcessError *)
| RequestException     (* requests.exceptions.RequestException and subclasses *)
| OSError              (* FileNotFoundError, PermissionError, ... *)
| LibraryError.        (* any other Exception subclass raised by a collaborator *)

Record exn := Exn { exn_cls : exn_class; exn_msg : string }.

Inductive outcome (A : Type) :=
| Ret (a : A)
| Raise (e : exn).
Arguments Ret {A} a.
Arguments Raise {A} e.

Definition exn_class_eqb (a b : exn_class) : bool :=
  match a, b with
  | PlainException, PlainException | ValueError, ValueError
  | TypeError, TypeError | IndexError, IndexError
  | ZeroDivisionError, ZeroDivisionError
  | CalledProcessError, CalledProcessError
  | RequestException, RequestException | OSError, OSError
  | LibraryError, LibraryError => true
  | _, _ => false
  end.

(** What the scripts' functions return: [None], [True]/[False] or a
    string.  [truthy] is Python's truth test on these. *)
Inductive pyval :=
| PyNone
| PyBool (b : bool)
| PyStr (s : string).

Definition truthy (v : pyval) : bool :=
  match v with
  | PyNone => false
  | PyBool b => b
  | PyStr s => negb (String.eqb s EmptyString)
  end.

(* ===================================================================== *)
(** ** [break_text]: the part shared by the two variants                  *)
(* ===================================================================== *)

Module Title.
Import PyStr.

Definition ellipsis : string := "...".

(** [[
    if len(wrapped_text) > max_lines:
        wrapped_text = wrapped_text[:max_lines]
        wrapped_text[-1] += '...'
    ]] *)
Definition truncate (max_lines : Z) (wrapped_text : list string)
  : outcome (list string) :=
  if Z.of_nat (length wrapped_text) >? max_lines then
    match rev (TextWrap.slice_to max_lines wrapped_text) with
    | last_line :: init => Ret (rev init ++ [(last_line ++ ellipsis)%string])%list
    | [] => Raise (Exn IndexError "list index out of range")
    end
  else Ret wrapped_text.

(** [textwrap.wrap] followed by the truncation: the lines both variants
    of [break_text] join. *)
Definition break_lines (text : string) (max_lines line_width : Z)
  : outcome (list string) :=
  match TextWrap.wrap text line_width with
  | Some wrapped_text => truncate max_lines wrapped_text
  | None => Raise (Exn ValueError
                     ("invalid width " ++ pretty line_width ++ " (must be > 0)"))
  end.

Definition total_length (lines : list string) : Z :=
  fold_right (fun l n => Z.of_nat (String.length l) + n) 0 lines.

End Title.

(* ===================================================================== *)
(** ** moviepy clips as data                                              *)
(* ===================================================================== *)

(** The moviepy variant builds its output by composing clip objects.  A
    clip is modelled by the expression that built it; [clip_size] is the
    [size] attribute the script reads back. *)

Module Clip.
Local Set Warnings "-register-all".

Inductive anchor :=
| Named (name : string)    (* "center", "top", "right", "bottom" *)
| Pixels (px : Z).

Inductive image :=
| RoundedRectangle (size : Z * Z) (radius : Z).  (* create_rounded_rectangle *)

Inductive clip :=
| VideoFileClip (path : string) (size : Z * Z)
| Subclip (c : clip) (t_start t_end : Z)
| FlImageBlur (c : clip)                         (* c.fl_image(blur) *)
| Crop (c : clip) (x1 y1 x2 y2 : Z)
| Resize (c : clip) (newsize : Z * Z)            (* c.resize(newsize=...) *)
| ResizeHeight (c : clip) (height : Z)           (* c.resize(height=...) *)
| TextClip (txt : string) (fontsize : Z) (font : string) (size : Z * Z)
| ImageFile (path : string) (size : Z * Z)       (* ImageClip(path) *)
| ImageArray (img : image)                       (* ImageClip(np.array(img)) *)
| SetPosition (c : clip) (x y : anchor)
| SetDuration (c : clip) (d : option Z)
| SetOpacity (c : clip) (percent : Z)
| Composite (clips : list clip)                  (* CompositeVideoClip *)
| Concatenate (clips : list clip).               (* method="compose" *)

Definition pair_max (a b : Z * Z) : Z * Z :=
  (Z.max (fst a) (fst b), Z.max (snd a) (snd b)).

(** [len(range(n)[a:b])]: what a slice keeps of an axis of [n] pixels. *)
Definition slice_index (n i : Z) : Z :=
  if i <? 0 then Z.max 0 (i + n) else Z.min i n.

Definition slice_len (n a b : Z) : Z :=
  Z.max 0 (slice_index n b - slice_index n a).

(** [crop(x1=, y1=, x2=, y2=)] cuts [pic[y1:y2, x1:x2]] out of every
    frame; a bound of 0 on the right or at the bottom stands for the side
    of the frame ([x2 or clip.size[0]]). *)
Definition crop_size (size : Z * Z) (x1 y1 x2 y2 : Z) : Z * Z :=
  let x2 := if x2 =? 0 then fst size else x2 in
  let y2 := if y2 =? 0 then snd size else y2 in
  (slice_len (fst size) x1 x2, slice_len (snd size) y1 y2).

Fixpoint clip_size (c : clip) : Z * Z :=
  match c with
  | VideoFileClip _ size => size
  | Subclip c _ _ => clip_size c
  | FlImageBlur c => clip_size c
  | Crop c x1 y1 x2 y2 => crop_size (clip_size c) x1 y1 x2 y2
  | Resize _ newsize => newsize
  | ResizeHeight c height =>
      let '(w, h) := clip_size c in (w * height ÷ h, height)
  | TextClip _ _ _ size => size
  | ImageFile _ size => size
  | ImageArray (RoundedRectangle size _) => size
  | SetPosition c _ _ => clip_size c
  | SetDuration c _ => clip_size c
  | SetOpacity c _ => clip_size c
  | Composite clips =>
      match clips with
      | c :: _ => clip_size c
      | [] => (0, 0)
      end
  | Concatenate clips =>
      (fix go (l : list clip) : Z * Z :=
         match l with
         | [] => (0, 0)
         | c :: l' => pair_max (clip_size c) (go l')
         end) clips
  end.

(** Keyword arguments of [write_videofile]; codec "libx264", audio codec
    "aac" and fps 30 are the same at both call sites. *)
Record write_options := { bitrate : option string }.

End Clip.

(* ===================================================================== *)
(** ** The world outside: files, log, console, external calls             *)
(* ===================================================================== *)

Module Rt.

Inductive level := DEBUG | INFO | WARNING | ERROR | CRITICAL.

Inductive stream_kind := VideoOnly | AudioOnly.

(** A stream object returned by pytubefix, identified by the video URL it
    belongs to and its kind. *)
Record stream := { stream_url : string; stream_is : stream_kind }.

(** What [VideoFileClip(path)] reads from the file: the frame size and the
    duration (kept as the text Python prints for it). *)
Record video_info := { v_size : Z * Z; v_duration : string }.

(** External calls, in the order they are made. *)
Inductive call :=
| HttpGet (url : string)
| Shuffle
| YouTubeQuery (url : string) (what : string)
| StreamDownload (s : stream) (output_path filename : string)
| Subprocess (cmd : list string)
| Makedirs (path : string)
| WriteFile (path content : string)
| LoadVideo (path : string)
| LoadImage (path : string)
| RenderText (txt : string)
| WriteVideo (c : Clip.clip) (path : string) (opts : Clip.write_options).

Record World := mkWorld {
  files : gset string;              (* paths for which os.path.exists holds *)
  log : list (level * string);      (* stderr.log, oldest first *)
  console : list string;            (* print, oldest first *)
  calls : list call                 (* oldest first *)
}.

(** A search response of the data API, as far as [fetch_random_video]
    looks into it: no [items] key, or the [id.videoId] of every item
    ([None] when the item has none). *)
Inductive search_response :=
| SearchNoItems
| SearchItems (video_ids : list (option string)).

(** A channels response, as far as [fetch_channel_logo] looks into it. *)
Inductive channel_response :=
| ChannelNoItems
| ChannelLogo (url : string).

(** The collaborators.  Every oracle sees the current world; those that
    may touch the disk also return the new set of existing paths. *)
Record Env := {
  SCRIPT_DIR : string;
  API_KEY : string;
  CHANNEL_ID : string;
  (* requests.get(url); raise_for_status(); json(), and the shape of the
     reply.  A malformed reply shows as an exception other than
     RequestException (KeyError, TypeError, ...). *)
  api_search : string -> World -> outcome search_response;
  api_channel : string -> World -> outcome channel_response;
  http_content : string -> World -> outcome string;
  shuffle : list string -> World -> list string;
  (* pytubefix *)
  yt_new : string -> World -> outcome unit;
  yt_title : string -> World -> outcome string;
  yt_video_id : string -> World -> outcome string;
  yt_length : string -> World -> outcome Z;
  yt_first_stream : string -> stream_kind -> World -> outcome (option stream);
  stream_download : stream -> string -> string -> World
                    -> outcome unit * gset string;
  (* subprocess.run(cmd, check=True): the captured stdout *)
  run_process : list string -> World -> outcome string * gset string;
  makedirs : string -> World -> outcome unit;
  write_file : string -> string -> World -> outcome unit * gset string;
  (* moviepy *)
  load_video : string -> World -> outcome video_info;
  load_image : string -> World -> outcome (Z * Z);
  render_text : string -> World -> outcome unit;
  write_video : Clip.clip -> string -> Clip.write_options -> World
                -> outcome unit * gset string
}.

(** *** The monad: state (the world) and exceptions *)

Definition M (A : Type) : Type := World -> outcome A * World.

Definition ret {A} (a : A) : M A := fun w => (Ret a, w).
Definition raise {A} (e : exn) : M A := fun w => (Raise e, w).

Definition bind {A B} (m : M A) (k : A -> M B) : M B :=
  fun w =>
    match m w with
    | (Ret a, w') => k a w'
    | (Raise e, w') => (Raise e, w')
    end.

(** [try: m except <classes> as e: h e] *)
Definition try_except {A} (m : M A) (catches : exn -> bool) (h : exn -> M A)
  : M A :=
  fun w =>
    match m w with
    | (Ret a, w') => (Ret a, w')
    | (Raise e, w') => if catches e then h e w' else (Raise e, w')
    end.

Definition is_class (c : exn_class) (e : exn) : bool :=
  exn_class_eqb (exn_cls e) c.

(** [except Exception] *)
Definition any_exception (e : exn) : bool := true.

#[global] Instance M_ret : MRet M := @ret.
#[global] Instance M_bind : MBind M := fun A B k m => bind m k.

Definition add_call (c : call) (w : World) : World :=
  mkWorld (files w) (log w) (console w) (calls w ++ [c])%list.

Definition set_files (fs : gset string) (w : World) : World :=
  mkWorld fs (log w) (console w) (calls w).

Definition logging (lvl : level) (msg : string) : M unit :=
  fun w => (Ret tt, mkWorld (files w) (log w ++ [(lvl, msg)])%list
                            (console w) (calls w)).

Definition print (msg : string) : M unit :=
  fun w => (Ret tt, mkWorld (files w) (log w) (console w ++ [msg])%list
                            (calls w)).

(** [os.path.exists(path)] *)
Definition path_exists (path : string) : M bool :=
  fun w => (Ret (bool_decide (path ∈ files w)), w).

(** An external call that leaves the disk alone. *)
Definition external {A} (c : call) (oracle : World -> outcome A) : M A :=
  fun w => (oracle w, add_call c w).

(** An external call that may create or remove files. *)
Definition external_fs {A} (c : call)
    (oracle : World -> outcome A * gset string) : M A :=
  fun w => let '(r, fs) := oracle w in (r, add_call c (set_files fs w)).

(** [os.path.join(a, b)] of posixpath. *)
Definition path_join (a b : string) : string :=
  if PyStr.startswith "/" b then b
  else if String.eqb a EmptyString || PyStr.endswith "/" a then a ++ b
  else a ++ "/" ++ b.

End Rt.

(* ===================================================================== *)
(** ** ShortifyYtVideo_Ffmpeg.py                                          *)
(* ===================================================================== *)

Module Ffmpeg.
Import Rt.

(** [re.sub(r'\W+', '', filename)]: every match is a longest run of
    non-word characters; the matches are deleted and the scan resumes
    after each of them. *)
Definition non_word (c : ascii) : bool := negb (PyStr.re_w c).

Equations? re_sub_non_word (l : list ascii) : list ascii
  by wf (length l) lt :=
  re_sub_non_word [] := [];
  re_sub_non_word (c :: l) :=
    if PyStr.re_w c then c :: re_sub_non_word l
    else re_sub_non_word (skipn (TextWrap.span_len non_word l) l).
Proof.
  all: pose proof (length_skipn (TextWrap.span_len non_word l) l);
    cbn [length]; lia.
Qed.

Definition sanitize_filename (filename : string) : string :=
  PyStr.str (re_sub_non_word (PyStr.chars filename)).

(** [break_text(text, max_lines=3, line_width=40, top_padding=1,
    bottom_padding=1)] *)
Definition break_text (text : string) (max_lines line_width
    top_padding bottom_padding : Z) : outcome string :=
  match Title.break_lines text max_lines line_width with
  | Ret wrapped_text =>
      let padded_text :=
        (repeat EmptyString (Z.to_nat top_padding) ++ wrapped_text
         ++ repeat EmptyString (Z.to_nat bottom_padding))%list in
      Ret (PyStr.join PyStr.nl padded_text)
  | Raise e => Raise e
  end.

Definition watch_url (video_id : string) : string :=
  "https://www.youtube.com/watch?v=" ++ video_id.

Section WithEnv.
Variable E : Env.

Definition YT_DOWNLOADS_DIR : string := path_join (SCRIPT_DIR E) "YtDownloads".
Definition SHORTIFIED_VIDEOS_DIR : string :=
  path_join (SCRIPT_DIR E) "ShortifiedYtVideos".

Definition search_url : string :=
  "https://www.googleapis.com/youtube/v3/search?key=" ++ API_KEY E
  ++ "&channelId=" ++ CHANNEL_ID E
  ++ "&part=snippet,id&order=date&maxResults=50".

(** The items whose [id.get('videoId')] is truthy. *)
Definition truthy_ids (items : list (option string)) : list string :=
  omap (fun o =>
          match o with
          | Some v => if String.eqb v EmptyString then None else Some v
          | None => None
          end) items.

Definition fetch_random_video : M (option (list string)) :=
  try_except
    (data ← external (HttpGet search_url) (api_search E search_url) ;
     match data with
     | SearchNoItems =>
         logging ERROR "No videos found or an error occurred in the API response." ;;
         ret None
     | SearchItems items =>
         match truthy_ids items with
         | [] =>
             logging WARNING "No video IDs found in the response." ;;
             ret None
         | video_ids =>
             shuffled ← external Shuffle
                           (fun w => Ret (shuffle E video_ids w)) ;
             ret (Some (map watch_url shuffled))
         end
     end)
    (is_class RequestException)
    (fun e => logging ERROR ("Failed to fetch videos: " ++ exn_msg e) ;;
              ret None).

Definition video_file (title : string) : string :=
  sanitize_filename title ++ "_video.mp4".
Definition audio_file (title : string) : string :=
  sanitize_filename title ++ "_audio.mp4".
Definition video_path (title : string) : string :=
  path_join YT_DOWNLOADS_DIR (video_file title).
Definition audio_path (title : string) : string :=
  path_join YT_DOWNLOADS_DIR (audio_file title).
Definition merged_path (title : string) : string :=
  path_join YT_DOWNLOADS_DIR (sanitize_filename title ++ ".mp4").

(** [download_video(video_id, title)]: [None], or the tuple
    [(video_path, audio_path, local)]. *)
Definition download_video (video_id title : string)
  : M (option (string * string * bool)) :=
  try_except
    (let url := watch_url video_id in
     logging DEBUG ("Attempting to download video from URL: " ++ url) ;;
     external (YouTubeQuery url "YouTube") (yt_new E url) ;;
     duration ← external (YouTubeQuery url "length") (yt_length E url) ;
     if duration <? 120 then
       logging INFO ("Video '" ++ title
                     ++ "' is shorter than 2 minutes. Skipping download.") ;;
       ret None
     else
       video_stream ← external (YouTubeQuery url "video stream")
                         (yt_first_stream E url VideoOnly) ;
       audio_stream ← external (YouTubeQuery url "audio stream")
                         (yt_first_stream E url AudioOnly) ;
       match video_stream, audio_stream with
       | Some vs, Some aus =>
           cached ← path_exists (video_path title) ;
           if (cached : bool) then ret (Some (video_path title, audio_path title, true))
           else
             external_fs (StreamDownload vs YT_DOWNLOADS_DIR (video_file title))
               (stream_download E vs YT_DOWNLOADS_DIR (video_file title)) ;;
             external_fs (StreamDownload aus YT_DOWNLOADS_DIR (audio_file title))
               (stream_download E aus YT_DOWNLOADS_DIR (audio_file title)) ;;
             logging INFO ("Downloaded video and audio for video "
                           ++ video_id ++ ".") ;;
             ret (Some (video_path title, audio_path title, false))
       | _, _ =>
           logging ERROR ("Could not find suitable video or audio streams for video "
                          ++ video_id ++ ".") ;;
           ret None
       end)
    any_exception
    (fun e => logging ERROR ("Error downloading video " ++ video_id ++ ": "
                             ++ exn_msg e) ;;
              ret None).

Definition merge_command (video_path audio_path output_path : string)
  : list string :=
  ["ffmpeg"; "-y"; "-i"; video_path; "-i"; audio_path; "-c:v"; "copy";
   "-c:a"; "aac"; "-strict"; "experimental"; output_path].

Definition merge_video_audio (video_path audio_path output_path : string)
  : M unit :=
  try_except
    (let command := merge_command video_path audio_path output_path in
     external_fs (Subprocess command) (run_process E command) ;;
     logging INFO ("Merged video and audio into " ++ output_path ++ "."))
    (is_class CalledProcessError)
    (fun e => logging ERROR ("Error merging video and audio: " ++ exn_msg e)).

(** [download_and_merge(video_id, title)]: the merged path, or [None]. *)
Definition download_and_merge (video_id title : string) : M (option string) :=
  paths ← download_video video_id title ;
  match paths with
  | Some (video_path, audio_path, local) =>
      let output_path := merged_path title in
      (if negb local
       then merge_video_audio video_path audio_path output_path
       else ret tt) ;;
      ret (Some output_path)
  | None => ret None
  end.

(** *** [trim_and_resize_video] *)

Definition output_dir : string := "output_videos".

(** [title.replace(' ', '_').replace('/', '_')] *)
Definition sanitized_title (title : string) : string :=
  PyStr.replace_char "/" "_" (PyStr.replace_char " " "_" title).

Definition blurry_bg_path (title : string) : string :=
  path_join output_dir (sanitized_title title ++ "_blurry_bg_9_16.mp4").
Definition trimmed_main_path (title : string) : string :=
  path_join output_dir (sanitized_title title ++ "_trimmed_main.mp4").
Definition final_output_path (title : string) : string :=
  path_join output_dir (sanitized_title title ++ "_final.mp4").
Definition concat_file : string := "concat_list.txt".
Definition concat_output_path (title : string) : string :=
  path_join "ShortifiedYtVideos" (sanitized_title title ++ "_with_outro.mp4").
Definition custom_font_path : string := path_join "Fonts" "Luciole-Regular.ttf".

Definition cmd_trim_resize_blur (input_path title : string) (duration : Z)
  : list string :=
  ["ffmpeg"; "-y"; "-i"; input_path; "-vf";
   "scale=-1:1280,crop='min(720,iw)':'min(1280,ih)',boxblur=10:10,pad=720:1280:(ow-iw)/2:(oh-ih)/2";
   "-c:v"; "libx264"; "-b:v"; "1000k"; "-preset"; "medium"; "-an"; "-t";
   pretty duration; blurry_bg_path title].

Definition cmd_probe (video_path : string) : list string :=
  ["ffprobe"; "-v"; "error"; "-select_streams"; "v:0"; "-show_entries";
   "stream=width,height"; "-of"; "default=noprint_wrappers=1:nokey=1";
   video_path].

(** The scale filter of the foreground: fit the width of the background
    when the source is wider in aspect, its height otherwise; [-2] lets
    ffmpeg choose the other side, kept even. *)
Definition scale_filter (blurry_width blurry_height : Z) : string :=
  let bw := pretty blurry_width in
  let bh := pretty blurry_height in
  "scale='if(gt(a," ++ bw ++ "/" ++ bh ++ "),floor(" ++ bw ++ "/2)*2,-2)':'if(gt(a,"
  ++ bw ++ "/" ++ bh ++ "),-2,floor(" ++ bh ++ "/2)*2)'".

Definition cmd_cut (input_path title : string) (duration : Z)
    (blurry_width blurry_height : Z) : list string :=
  ["ffmpeg"; "-y"; "-i"; input_path; "-vf";
   scale_filter blurry_width blurry_height;
   "-c:v"; "libx264"; "-b:v"; "1000k"; "-preset"; "ultrafast"; "-t";
   pretty duration; trimmed_main_path title].

Definition cmd_combine (title formatted_title : string) : list string :=
  ["ffmpeg"; "-y"; "-i"; blurry_bg_path title; "-i"; trimmed_main_path title;
   "-filter_complex";
   "[0:v][1:v]overlay=(W-w)/2:(H-h)/2,drawtext=text='" ++ formatted_title
   ++ "':fontfile=" ++ custom_font_path
   ++ ":fontcolor=white:fontsize=50:box=1:boxcolor=black@0.6:boxborderw=10:x=(w-text_w)/2:y=10";
   "-c:v"; "libx264"; "-b:v"; "1000k"; "-preset"; "medium";
   final_output_path title].

Definition cmd_concat (title : string) : list string :=
  ["ffmpeg"; "-y"; "-f"; "concat"; "-safe"; "0"; "-i"; concat_file;
   "-c"; "copy"; concat_output_path title].

Definition concat_list (title outro_path : string) : string :=
  "file '" ++ final_output_path title ++ "'" ++ PyStr.nl
  ++ "file '" ++ outro_path ++ "'" ++ PyStr.nl.

(** [width, height = map(int, width_height)] after the length test. *)
Definition parse_dimensions (stdout : string) : outcome (Z * Z) :=
  match PyStr.split PyStr.newline (PyStr.strip stdout) with
  | [ws; hs] =>
      match PyStr.int ws with
      | Some width =>
          match PyStr.int hs with
          | Some height => Ret (width, height)
          | None => Raise (Exn ValueError (PyStr.int_error hs))
          end
      | None => Raise (Exn ValueError (PyStr.int_error ws))
      end
  | _ => Raise (Exn ValueError "Unexpected output from ffprobe")
  end.

(** The helper nested in [trim_and_resize_video]: both handlers log and
    raise again. *)
Definition get_video_dimensions (video_path : string) : M (Z * Z) :=
  try_except
    (stdout ← external_fs (Subprocess (cmd_probe video_path))
                (run_process E (cmd_probe video_path)) ;
     match parse_dimensions stdout with
     | Ret dims => ret dims
     | Raise e => raise e
     end)
    (fun e => is_class CalledProcessError e || is_class ValueError e)
    (fun e =>
       (if is_class CalledProcessError e
        then logging ERROR ("ffprobe failed with error: " ++ exn_msg e)
        else logging ERROR ("Error parsing video dimensions: " ++ exn_msg e)) ;;
       raise e).

(** One gated stage: run [cmd] unless [path] exists.  [true] means the
    function goes on, [false] that it returns [None] at once. *)
Definition stage (path : string) (cmd : list string)
    (on_success : M unit) (on_failure : exn -> M unit) (stop_on_failure : bool)
  : M bool :=
  present ← path_exists path ;
  if (present : bool) then ret true
  else
    try_except
      (external_fs (Subprocess cmd) (run_process E cmd) ;;
       on_success ;;
       ret true)
      (is_class CalledProcessError)
      (fun e => on_failure e ;; ret (negb stop_on_failure)).

Definition trim_and_resize_video (input_path title outro_path : string)
    (duration : Z) (watermark_path : option string) (overwrite : bool)
  : M pyval :=
  try_except
    (logging INFO ("Starting video processing for: " ++ title) ;;
     external (Makedirs output_dir) (makedirs E output_dir) ;;
     (* Step 1: blurry background *)
     logging DEBUG ("Creating blurry background video at: " ++ blurry_bg_path title) ;;
     go1 ← stage (blurry_bg_path title)
              (cmd_trim_resize_blur input_path title duration)
              (logging INFO ("Blurry background video saved to " ++ blurry_bg_path title))
              (fun e => logging ERROR
                 ("Failed to create blurry background video. Error: " ++ exn_msg e))
              true ;
     if negb go1 then ret PyNone else
     bdims ← get_video_dimensions (blurry_bg_path title) ;
     let blurry_width := fst (bdims : Z * Z) in
     let blurry_height := snd bdims in
     logging DEBUG ("Blurry background dimensions: " ++ pretty blurry_width
                    ++ "x" ++ pretty blurry_height) ;;
     (* Step 2: trimmed and resized main video *)
     logging DEBUG ("Trimming and resizing main video at: " ++ trimmed_main_path title) ;;
     go2 ← stage (trimmed_main_path title)
              (cmd_cut input_path title duration blurry_width blurry_height)
              (logging INFO ("Trimmed main video saved to " ++ trimmed_main_path title))
              (fun e => logging ERROR ("Failed to trim main video. Error: " ++ exn_msg e))
              true ;
     if negb go2 then ret PyNone else
     mdims ← get_video_dimensions (trimmed_main_path title) ;
     logging DEBUG ("Trimmed main video dimensions: " ++ pretty (fst (mdims : Z * Z))
                    ++ "x" ++ pretty (snd mdims)) ;;
     formatted ← match break_text title 3 20 3 3 with
                 | Ret t => ret t
                 | Raise e => raise e
                 end ;
     (* Step 3: overlay and text *)
     go3 ← stage (final_output_path title)
              (cmd_combine title formatted)
              (print ("Final video with text created and saved to "
                      ++ final_output_path title))
              (fun e => print ("Final video combination failed. Error: " ++ exn_msg e))
              true ;
     if negb go3 then ret PyNone else
     (* Step 4: concatenation with the outro *)
     external_fs (WriteFile concat_file (concat_list title outro_path))
       (write_file E concat_file (concat_list title outro_path)) ;;
     stage (concat_output_path title)
           (cmd_concat title)
           (print ("Final video with outro created and saved to "
                   ++ concat_output_path title))
           (fun e => print ("Error while concatenating videos. Error: " ++ exn_msg e))
           false ;;
     ret (PyBool true))
    any_exception
    (fun e => logging ERROR ("Error processing video " ++ title ++ ": " ++ exn_msg e) ;;
              ret PyNone).

(** *** [main] *)

(** [url.split('=')[-1]] *)
Definition last_field (url : string) : string :=
  List.last (PyStr.split "=" url) EmptyString.

(** [not output_path] on a path or [None]. *)
Definition falsy_path (p : option string) : bool :=
  match p with
  | Some s => String.eqb s EmptyString
  | None => true
  end.

Definition outro : string := path_join (SCRIPT_DIR E) "Assets/outro.mp4".

Fixpoint main_loop (video_urls : list string) : M unit :=
  match video_urls with
  | [] => ret tt
  | url :: more =>
      let video_id := last_field url in
      external (YouTubeQuery url "YouTube") (yt_new E url) ;;
      title ← external (YouTubeQuery url "title") (yt_title E url) ;
      output_path ← download_and_merge video_id title ;
      match output_path with
      | Some p =>
          if falsy_path (Some p) then main_loop more
          else
            done ← trim_and_resize_video p title outro 55 None false ;
            if truthy done then ret tt else main_loop more
      | None => main_loop more
      end
  end.

Definition main : M unit :=
  try_except
    (video_urls ← fetch_random_video ;
     match video_urls with
     | Some (u :: us) => main_loop (u :: us)
     | _ => raise (Exn PlainException "No videos to process.")
     end)
    any_exception
    (fun e => logging ERROR ("Main execution error: " ++ exn_msg e)).

End WithEnv.
End Ffmpeg.

(* ===================================================================== *)
(** ** ShortifyYtVideo_Moviepy.py                                         *)
(* ===================================================================== *)

Module Moviepy.
Import Rt Clip.

(** [re.sub] with a class of nine characters and the empty replacement:
    < > : double-quote / backslash | ? * are deleted, one match each. *)
Definition invalid_char (c : ascii) : bool :=
  PyStr.is_char 60 c || PyStr.is_char 62 c || PyStr.is_char 58 c
  || PyStr.is_char 34 c || PyStr.is_char 47 c || PyStr.is_char 92 c
  || PyStr.is_char 124 c || PyStr.is_char 63 c || PyStr.is_char 42 c.

Fixpoint re_sub_invalid (l : list ascii) : list ascii :=
  match l with
  | [] => []
  | c :: l' => if invalid_char c then re_sub_invalid l' else c :: re_sub_invalid l'
  end.

Definition sanitize_filename (filename : string) : string :=
  PyStr.str (re_sub_invalid (PyStr.chars filename)).

(** [break_text(text, max_lines=3, line_width=40)] *)
Definition break_text (text : string) (max_lines line_width : Z)
  : outcome string :=
  match Title.break_lines text max_lines line_width with
  | Ret wrapped_text => Ret (PyStr.join PyStr.nl wrapped_text)
  | Raise e => Raise e
  end.

(** *** Layout arithmetic of [trim_and_resize_video] *)

Definition target_size : Z * Z := (1080, 1920).
Definition min_resolution : Z * Z := (360, 640).

(** [a / b] on integers: the quotient, correctly rounded. *)
Definition truediv (a b : Z) : outcome Q :=
  if b =? 0 then Raise (Exn ZeroDivisionError "division by zero")
  else Ret (Float.round53 (inject_Z a / inject_Z b)).

(** [n * x] for an integer [n] and a float [x]; the conversion of [n] to a
    float is exact (frame sizes are far below [2^53]). *)
Definition times (n : Z) (x : Q) : Q := Float.round53 (inject_Z n * x).

(** [min(a, b)]: the first argument unless the second is smaller. *)
Definition py_min (a b : Q) : Q := if Qle_bool a b then a else b.

(** [int(x)]: truncation towards zero. *)
Definition py_int (x : Q) : Z := Qnum x ÷ Z.pos (Qden x).

(** [scale_factor = min(target_width / w, target_height / h)] *)
Definition scale_factor (w h : Z) : outcome Q :=
  match truediv (fst target_size) w with
  | Ret sw =>
      match truediv (snd target_size) h with
      | Ret sh => Ret (py_min sw sh)
      | Raise e => Raise e
      end
  | Raise e => Raise e
  end.

(** [(int(w * scale_factor), int(h * scale_factor))] *)
Definition fit_within (w h : Z) : outcome (Z * Z) :=
  match scale_factor w h with
  | Ret s => Ret (py_int (times w s), py_int (times h s))
  | Raise e => Raise e
  end.

(** [original_size[0] < min_resolution[0] or
     original_size[1] < min_resolution[1]] *)
Definition too_small (size : Z * Z) : bool :=
  (fst size <? fst min_resolution) || (snd size <? snd min_resolution).

(** [create_rounded_rectangle] and [add_padding_and_radius] *)
Definition add_padding_and_radius (title_clip : clip) (padding radius : Z)
  : clip :=
  let text_size := clip_size title_clip in
  let padded_size := (fst text_size + 2 * padding, snd text_size + 2 * padding) in
  let background_clip :=
    SetDuration (ImageArray (RoundedRectangle padded_size radius)) None in
  Composite [background_clip;
             SetPosition (SetPosition title_clip (Named "center") (Named "center"))
                         (Named "center") (Named "center")].

(** [str(clip.size)] of a clip read from a file: the reader keeps the
    size as a list of two integers. *)
Definition size_repr (size : Z * Z) : string :=
  "[" ++ pretty (fst size) ++ ", " ++ pretty (snd size) ++ "]".

(** [str(clip.size)] after [subclip]: every transformed clip takes its
    size from the shape of its first frame, a tuple. *)
Definition tuple_repr (size : Z * Z) : string :=
  "(" ++ pretty (fst size) ++ ", " ++ pretty (snd size) ++ ")".

Section WithEnv.
Variable E : Env.

Definition YT_DOWNLOADS_DIR : string := path_join (SCRIPT_DIR E) "YtDownloads".
Definition SHORTIFIED_VIDEOS_DIR : string :=
  path_join (SCRIPT_DIR E) "ShortifiedYtVideos".

Definition short_path (title : string) : string :=
  path_join SHORTIFIED_VIDEOS_DIR (sanitize_filename title ++ "_short.mp4").
Definition short_with_outro_path (title : string) : string :=
  path_join SHORTIFIED_VIDEOS_DIR
            (sanitize_filename title ++ "_short_with_outro.mp4").
Definition custom_font_path : string :=
  path_join (SCRIPT_DIR E) "Fonts/Luciole-Regular.ttf".

(** [VideoFileClip(path)]: the clip and the text of its [duration]. *)
Definition open_video (path : string) : M (clip * string) :=
  info ← external (LoadVideo path) (load_video E path) ;
  ret (VideoFileClip path (v_size info), v_duration info).

(** The composed main clip of the [else] branch, up to the watermark. *)
Definition background (clip2 : clip) : clip :=
  let blurred_clip := FlImageBlur clip2 in
  let target_width := fst target_size in
  let target_height := snd target_size in
  if fst (clip_size blurred_clip) >? target_width then
    let crop_x_center := (fst (clip_size blurred_clip) - target_width) / 2 in
    Crop blurred_clip crop_x_center 0 (crop_x_center + target_width) target_height
  else blurred_clip.

Definition foreground (c : clip) (new_size : Z * Z) : clip :=
  let clip_resized := Resize c new_size in
  if snd (clip_size clip_resized) >? 720 then ResizeHeight clip_resized 720
  else clip_resized.

Definition title_banner (wrapped_title : string) : clip :=
  let title_clip :=
    TextClip wrapped_title 70 custom_font_path (fst target_size, 200) in
  SetDuration (SetPosition (add_padding_and_radius title_clip 20 15)
                           (Named "center") (Named "top")) (Some 55).

Definition with_watermark (final_clip : clip) (size : Z * Z) (path : string)
  : clip :=
  Composite [final_clip;
             SetOpacity (SetPosition (SetDuration (ResizeHeight (ImageFile path size) 100)
                                                  (Some 55))
                                     (Named "right") (Named "bottom")) 50].

Definition centered_outro (outro_clip : clip) (new_size : Z * Z) : clip :=
  let outro_clip_resized := Resize outro_clip new_size in
  let x_pad_outro := (fst target_size - fst (clip_size outro_clip_resized)) / 2 in
  let y_pad_outro := (snd target_size - snd (clip_size outro_clip_resized)) / 2 in
  Composite [SetDuration (SetPosition outro_clip_resized
                                      (Pixels x_pad_outro) (Pixels y_pad_outro))
                         (Some 5)].

Definition lift {A} (r : outcome A) : M A :=
  match r with
  | Ret a => ret a
  | Raise e => raise e
  end.

(** [if watermark_path:] *)
Definition given (watermark_path : option string) : option string :=
  match watermark_path with
  | Some p => if String.eqb p EmptyString then None else Some p
  | None => None
  end.

(** [trim_and_resize_video(input_path, title, outro_path, duration=55,
    watermark_path=None)] *)
Definition trim_and_resize_video (input_path title outro_path : string)
    (duration : Z) (watermark_path : option string) : M pyval :=
  try_except
    (loaded ← open_video input_path ;
     loaded2 ← open_video input_path ;
     loaded_outro ← open_video outro_path ;
     let clip := fst (loaded : Clip.clip * string) in
     let clip2 := fst (loaded2 : Clip.clip * string) in
     let outro_clip := fst (loaded_outro : Clip.clip * string) in
     print ("Original video duration: " ++ snd loaded ++ " seconds") ;;
     print ("Original video size: " ++ size_repr (clip_size clip)) ;;
     let clip := Subclip clip 0 duration in
     let clip2 := Subclip clip2 0 duration in
     let original_size := clip_size clip in
     output_path ←
       (if too_small original_size then
          logging WARNING ("Original video resolution " ++ tuple_repr original_size
                           ++ " is too small. Skipping resizing.") ;;
          let output_path := short_path title in
          external_fs (WriteVideo clip output_path {| bitrate := None |})
            (write_video E clip output_path {| bitrate := None |}) ;;
          ret output_path
        else
          new_size ← lift (fit_within (fst original_size) (snd original_size)) ;
          let blurred_clip := background clip2 in
          let clip_resized := foreground clip new_size in
          wrapped_title ← lift (break_text title 3 40) ;
          external (RenderText wrapped_title) (render_text E wrapped_title) ;;
          let title_clip := title_banner wrapped_title in
          let final_clip :=
            Composite [SetPosition blurred_clip (Named "center") (Named "center");
                       SetPosition clip_resized (Named "center") (Named "center");
                       title_clip] in
          final_clip ←
            match given watermark_path with
            | Some p =>
                wsize ← external (LoadImage p) (load_image E p) ;
                ret (with_watermark final_clip wsize p)
            | None => ret final_clip
            end ;
          let outro_size := clip_size outro_clip in
          new_outro ← lift (fit_within (fst outro_size) (snd outro_size)) ;
          let combined_clip :=
            Concatenate [final_clip; centered_outro outro_clip new_outro] in
          let output_path := short_with_outro_path title in
          external_fs
            (WriteVideo combined_clip output_path {| bitrate := Some "500k" |})
            (write_video E combined_clip output_path {| bitrate := Some "500k" |}) ;;
          ret output_path) ;
     logging INFO ("Video processed and saved as " ++ output_path ++ ".") ;;
     ret PyNone)
    any_exception
    (fun e => logging ERROR ("Error trimming, resizing, or adding text to video "
                             ++ input_path ++ ": " ++ exn_msg e) ;;
              ret PyNone).

(** *** Fetching *)

Definition fetch_random_video : M (option (list string)) :=
  Ffmpeg.fetch_random_video E.   (* the two scripts share this function verbatim *)

Definition video_file (title : string) : string :=
  sanitize_filename title ++ "_video.mp4".
Definition audio_file (title : string) : string :=
  sanitize_filename title ++ "_audio.mp4".
Definition video_path (title : string) : string :=
  path_join YT_DOWNLOADS_DIR (video_file title).
Definition audio_path (title : string) : string :=
  path_join YT_DOWNLOADS_DIR (audio_file title).
Definition merged_path (title : string) : string :=
  path_join YT_DOWNLOADS_DIR (sanitize_filename title ++ ".mp4").

(** [download_video(video_id, title)]: [None] or [(video_path, audio_path)];
    no duration test and no look at the disk in this variant. *)
Definition download_video (video_id title : string)
  : M (option (string * string)) :=
  try_except
    (let url := Ffmpeg.watch_url video_id in
     logging DEBUG ("Attempting to download video from URL: " ++ url) ;;
     external (YouTubeQuery url "YouTube") (yt_new E url) ;;
     video_stream ← external (YouTubeQuery url "video stream")
                       (yt_first_stream E url VideoOnly) ;
     audio_stream ← external (YouTubeQuery url "audio stream")
                       (yt_first_stream E url AudioOnly) ;
     match video_stream, audio_stream with
     | Some vs, Some aus =>
         external_fs (StreamDownload vs YT_DOWNLOADS_DIR (video_file title))
           (stream_download E vs YT_DOWNLOADS_DIR (video_file title)) ;;
         external_fs (StreamDownload aus YT_DOWNLOADS_DIR (audio_file title))
           (stream_download E aus YT_DOWNLOADS_DIR (audio_file title)) ;;
         logging INFO ("Downloaded video and audio for video " ++ video_id ++ ".") ;;
         ret (Some (video_path title, audio_path title))
     | _, _ =>
         logging ERROR ("Could not find suitable video or audio streams for video "
                        ++ video_id ++ ".") ;;
         ret None
     end)
    any_exception
    (fun e => logging ERROR ("Error downloading video " ++ video_id ++ ": "
                             ++ exn_msg e) ;;
              ret None).

Definition merge_command (video_path audio_path output_path : string)
  : list string :=
  ["ffmpeg"; "-i"; video_path; "-i"; audio_path; "-c:v"; "copy";
   "-c:a"; "aac"; "-strict"; "experimental"; output_path].

Definition merge_video_audio (video_path audio_path output_path : string)
  : M unit :=
  try_except
    (let command := merge_command video_path audio_path output_path in
     external_fs (Subprocess command) (run_process E command) ;;
     logging INFO ("Merged video and audio into " ++ output_path ++ "."))
    (is_class CalledProcessError)
    (fun e => logging ERROR ("Error merging video and audio: " ++ exn_msg e)).

Definition download_and_merge (video_id title : string) : M (option string) :=
  paths ← download_video video_id title ;
  match paths with
  | Some (video_path, audio_path) =>
      let output_path := merged_path title in
      merge_video_audio video_path audio_path output_path ;;
      ret (Some output_path)
  | None => ret None
  end.

(** *** The channel logo *)

Definition channel_url : string :=
  "https://www.googleapis.com/youtube/v3/channels?part=snippet&id="
  ++ CHANNEL_ID E ++ "&key=" ++ API_KEY E.

Definition fetch_channel_logo : M (option string) :=
  try_except
    (data ← external (HttpGet channel_url) (api_channel E channel_url) ;
     match data with
     | ChannelLogo logo_url => ret (Some logo_url)
     | ChannelNoItems =>
         print "Channel details not found in the API response." ;;
         ret None
     end)
    (is_class RequestException)
    (fun e => print ("Error fetching channel details: " ++ exn_msg e) ;;
              ret None).

Definition download_logo (logo_url save_path : string) : M unit :=
  try_except
    (content ← external (HttpGet logo_url) (http_content E logo_url) ;
     external_fs (WriteFile save_path content) (write_file E save_path content) ;;
     print ("Downloaded logo and saved to " ++ save_path ++ "."))
    (is_class RequestException)
    (fun e => print ("Failed to download logo: " ++ exn_msg e)).

(** *** [main_flow] *)

Definition max_trials : Z := 5.
Definition logo_path : string := path_join (SCRIPT_DIR E) "channel_logo.png".

(** A call of [trim_and_resize_video] binds its arguments first: the
    parameter [outro_path] has no default, so a call that does not supply
    it raises [TypeError] before the body runs. *)
Definition call_trim_and_resize_video (input_path title : string)
    (outro_path : option string) (duration : Z) (watermark_path : option string)
  : M pyval :=
  match outro_path with
  | Some o => trim_and_resize_video input_path title o duration watermark_path
  | None =>
      raise (Exn TypeError
        "trim_and_resize_video() missing 1 required positional argument: 'outro_path'")
  end.

(** The [while trials < max_trials] loop; [remaining] is
    [max_trials - trials], which one turn lowers by one.  The result tells
    whether the loop left through [break]. *)
Fixpoint trial_loop (remaining : nat) : M bool :=
  match remaining with
  | O => ret false
  | S remaining' =>
      let trials := max_trials - Z.of_nat remaining in
      video_urls ← fetch_random_video ;
      broke ←
        match video_urls with
        | Some (video_url :: _) =>
            external (YouTubeQuery video_url "YouTube") (yt_new E video_url) ;;
            video_id ← external (YouTubeQuery video_url "video_id")
                          (yt_video_id E video_url) ;
            video_title ← external (YouTubeQuery video_url "title")
                             (yt_title E video_url) ;
            logging INFO ("Selected video for processing: " ++ video_url
                          ++ " (ID: " ++ video_id ++ ", Title: " ++ video_title ++ ")") ;;
            download_path ← download_and_merge video_id video_url ;
            ready ←
              match download_path with
              | Some p =>
                  if String.eqb p EmptyString then ret None
                  else present ← path_exists p ;
                       ret (if (present : bool) then Some p else None)
              | None => ret None
              end ;
            match ready with
            | Some p =>
                call_trim_and_resize_video p (video_title ++ video_id) None 55
                  (Some logo_path) ;;
                ret true
            | None =>
                logging ERROR ("Failed to download video " ++ video_id
                               ++ ", trying next video.") ;;
                ret false
            end
        | _ =>
            logging WARNING "No suitable videos found, retrying..." ;;
            ret false
        end ;
      if (broke : bool) then ret true
      else
        (if trials + 1 >=? max_trials
         then logging CRITICAL "Exceeded maximum number of trials. Exiting."
         else ret tt) ;;
        trial_loop remaining'
  end.

Definition main_flow : M unit :=
  have_logo ← path_exists logo_path ;
  proceed ←
    (if (have_logo : bool) then ret true
     else
       logo_url ← fetch_channel_logo ;
       match given logo_url with
       | Some u => download_logo u logo_path ;; ret true
       | None => print "Failed to fetch channel logo." ;; ret false
       end) ;
  if (proceed : bool) then
    trial_loop (Z.to_nat max_trials) ;; ret tt
  else ret tt.

End WithEnv.
End Moviepy.

(* ===================================================================== *)
(** ** Sample collaborators                                               *)
(* ===================================================================== *)

(** Concrete environments and worlds on which the theorems below are
    exercised. *)

Module Samples.
Import Rt.

Definition empty_world : World := mkWorld ∅ [] [] [].
Definition world_with (fs : gset string) : World := mkWorld fs [] [] [].

(** ffprobe prints a width and a height, ffmpeg prints nothing. *)
Definition probe_output : string := "720" ++ PyStr.nl ++ "1280" ++ PyStr.nl.

Definition program (cmd : list string) : string :=
  match cmd with
  | prog :: _ => prog
  | [] => EmptyString
  end.

Definition tools_work (cmd : list string) : outcome string :=
  if String.eqb (program cmd) "ffprobe" then Ret probe_output
  else Ret EmptyString.

(** ffmpeg exits with a non-zero status, ffprobe works. *)
Definition ffmpeg_fails (cmd : list string) : outcome string :=
  if String.eqb (program cmd) "ffprobe" then Ret probe_output
  else Raise (Exn CalledProcessError "Command returned non-zero exit status 1.").

(** The ffmpeg binary is not installed. *)
Definition ffmpeg_missing (cmd : list string) : outcome string :=
  Raise (Exn OSError "[Errno 2] No such file or directory: 'ffmpeg'").

(** Everything answers; the candidate lasts [duration] seconds, frames are
    [size], and sub-processes behave as [process] says.  A successful
    process, download or write creates its output file. *)
Definition sample_env (duration : Z) (size : Z * Z)
    (process : list string -> outcome string) : Env :=
  {| SCRIPT_DIR := "/srv/shortifier";
     API_KEY := "key";
     CHANNEL_ID := "channel";
     api_search := fun _ _ => Ret (SearchItems [Some "JK-B-CT34EU"]);
     api_channel := fun _ _ => Ret (ChannelLogo "https://yt.example/logo.png");
     http_content := fun _ _ => Ret "PNG";
     shuffle := fun ids _ => ids;
     yt_new := fun _ _ => Ret tt;
     yt_title := fun _ _ => Ret "24 Modern Ui";
     yt_video_id := fun _ _ => Ret "JK-B-CT34EU";
     yt_length := fun _ _ => Ret duration;
     yt_first_stream := fun url kind _ =>
       Ret (Some {| stream_url := url; stream_is := kind |});
     stream_download := fun _ dir file w =>
       (Ret tt, files w ∪ {[path_join dir file]});
     run_process := fun cmd w =>
       (process cmd,
        match process cmd with
        | Ret _ => files w ∪ {[List.last cmd EmptyString]}
        | Raise _ => files w
        end);
     makedirs := fun _ _ => Ret tt;
     write_file := fun path _ w => (Ret tt, files w ∪ {[path]});
     load_video := fun _ _ => Ret {| v_size := size; v_duration := "183.41" |};
     load_image := fun _ _ => Ret (800, 800);
     render_text := fun _ _ => Ret tt;
     write_video := fun _ path _ w => (Ret tt, files w ∪ {[path]}) |}.

End Samples.

(* ===================================================================== *)
(** * Properties                                                          *)
(* ===================================================================== *)

(** ** A small program logic for the scripts

    [behaves I P R m]: started in a world whose files satisfy [I], the
    computation [m] only makes external calls accepted by [P], leaves the
    files in [I], and ends in an outcome satisfying [R]. *)

Module Logic.
Import Rt.

Definition since {A} (before after : list A) (added : list A) : Prop :=
  after = (before ++ added)%list.

Definition behaves {A} (I : gset string -> Prop) (P : call -> bool)
    (R : outcome A -> Prop) (m : M A) : Prop :=
  forall w, I (files w) ->
    exists added,
      since (calls w) (calls (snd (m w))) added
      /\ forallb P added = true
      /\ I (files (snd (m w)))
      /\ R (fst (m w)).

Definition anything {A} (r : outcome A) : Prop := True.

Section Rules.
Context {A B : Type}.
Variable I : gset string -> Prop.
Variable P : call -> bool.

Lemma since_refl (l : list call) : since l l [].
Proof. unfold since. now rewrite app_nil_r. Qed.

Lemma since_trans (l1 l2 l3 a b : list call) :
  since l1 l2 a -> since l2 l3 b -> since l1 l3 (a ++ b)%list.
Proof. unfold since. intros -> ->. now rewrite app_assoc. Qed.

Lemma behaves_weaken (R R' : outcome A -> Prop) (m : M A) :
  behaves I P R m -> (forall r, R r -> R' r) -> behaves I P R' m.
Proof.
  intros H HR w Hw. destruct (H w Hw) as (added & H1 & H2 & H3 & H4).
  exists added. auto.
Qed.

Lemma behaves_ret (R : outcome A -> Prop) (a : A) :
  R (Ret a) -> behaves I P R (ret a).
Proof. intros H w Hw. exists []. cbn. auto using since_refl. Qed.

Lemma behaves_raise (R : outcome A -> Prop) (e : exn) :
  R (Raise e) -> behaves I P R (raise e).
Proof. intros H w Hw. exists []. cbn. auto using since_refl. Qed.

Lemma behaves_bind (Rm : outcome A -> Prop) (R : outcome B -> Prop)
    (m : M A) (k : A -> M B) :
  behaves I P Rm m ->
  (forall a, Rm (Ret a) -> behaves I P R (k a)) ->
  (forall e, Rm (Raise e) -> R (Raise e)) ->
  behaves I P R (bind m k).
Proof.
  intros Hm Hk He w Hw. unfold bind.
  destruct (Hm w Hw) as (added & H1 & H2 & H3 & H4).
  destruct (m w) as [[a|e] w']; cbn [fst snd] in *.
  - destruct (Hk a H4 w' H3) as (added' & H1' & H2' & H3' & H4').
    exists (added ++ added')%list. split; [eapply since_trans; eauto|].
    rewrite forallb_app, H2, H2'. auto.
  - exists added. auto.
Qed.

Lemma behaves_try (Rm R : outcome A -> Prop) (m : M A)
    (catches : exn -> bool) (h : exn -> M A) :
  behaves I P Rm m ->
  (forall a, Rm (Ret a) -> R (Ret a)) ->
  (forall e, Rm (Raise e) -> catches e = true -> behaves I P R (h e)) ->
  (forall e, Rm (Raise e) -> catches e = false -> R (Raise e)) ->
  behaves I P R (try_except m catches h).
Proof.
  intros Hm Hr Hc Hn w Hw. unfold try_except.
  destruct (Hm w Hw) as (added & H1 & H2 & H3 & H4).
  destruct (m w) as [[a|e] w']; cbn [fst snd] in *.
  - exists added. auto.
  - destruct (catches e) eqn:E.
    + destruct (Hc e H4 E w' H3) as (added' & H1' & H2' & H3' & H4').
      exists (added ++ added')%list. split; [eapply since_trans; eauto|].
      rewrite forallb_app, H2, H2'. auto.
    + exists added. cbn [fst snd]. auto.
Qed.

Lemma behaves_logging (R : outcome unit -> Prop) lvl msg :
  R (Ret tt) -> behaves I P R (logging lvl msg).
Proof. intros H w Hw. exists []. cbn. auto using since_refl. Qed.

Lemma behaves_print (R : outcome unit -> Prop) msg :
  R (Ret tt) -> behaves I P R (print msg).
Proof. intros H w Hw. exists []. cbn. auto using since_refl. Qed.

Lemma behaves_path_exists (R : outcome bool -> Prop) path :
  (forall b, R (Ret b)) -> behaves I P R (path_exists path).
Proof. intros H w Hw. exists []. cbn. auto using since_refl. Qed.

(** A path the invariant guarantees is found. *)
Lemma behaves_path_present (path : string) :
  (forall fs, I fs -> path ∈ fs) ->
  behaves I P (fun r => r = Ret true) (path_exists path).
Proof.
  intros H w Hw. exists []. cbn. split; [apply since_refl|].
  split; [reflexivity|]. split; [exact Hw|].
  now rewrite bool_decide_eq_true_2 by auto.
Qed.

Lemma behaves_external (c : call) (oracle : World -> outcome A) :
  P c = true -> behaves I P anything (external c oracle).
Proof.
  intros Hc w Hw. exists [c]. cbn. unfold since, anything.
  rewrite Hc. auto.
Qed.

Lemma behaves_external_fs (c : call)
    (oracle : World -> outcome A * gset string) :
  P c = true ->
  (forall w, I (files w) -> I (snd (oracle w))) ->
  behaves I P anything (external_fs c oracle).
Proof.
  intros Hc Hfs w Hw. exists [c]. unfold external_fs.
  specialize (Hfs w Hw). destruct (oracle w) as [r fs].
  cbn in *. unfold since, anything. rewrite Hc. auto.
Qed.

End Rules.

Lemma behaves_lift {A} I P (R : outcome A -> Prop) (r : outcome A) :
  R r -> behaves I P R (match r with Ret a => ret a | Raise e => raise e end).
Proof. intros H. destruct r; [now apply behaves_ret|now apply behaves_raise]. Qed.

End Logic.

(** ** Word wrapping *)

Module TextWrapFacts.
Import PyStr TextWrap.
Local Open Scope list_scope.

Lemma length_str (l : list ascii) : String.length (str l) = length l.
Proof. induction l as [|c l IH]; simpl; [reflexivity|]. now rewrite IH. Qed.

Definition chars_of (cur_line : list (list ascii)) : Z :=
  Z.of_nat (length (concat cur_line)).

Lemma chars_of_snoc cur_line ch :
  chars_of (cur_line ++ [ch]) = chars_of cur_line + len ch.
Proof.
  unfold chars_of, len. rewrite concat_app, length_app. simpl.
  rewrite app_nil_r. lia.
Qed.

(** The inner loop keeps [cur_len] equal to the characters on the line and
    never exceeds the width. *)
Lemma fill_line_fits width cur_line cur_len chunks cl n rest :
  cur_len = chars_of cur_line -> cur_len <= width ->
  fill_line width cur_line cur_len chunks = (cl, n, rest) ->
  n = chars_of cl /\ n <= width.
Proof.
  revert cur_line cur_len; induction chunks as [|ch chunks IH];
    intros cur_line cur_len Hlen Hle; cbn [fill_line].
  - intros [= <- <- <-]. auto.
  - destruct (cur_len + len ch <=? width) eqn:E.
    + apply Z.leb_le in E. apply IH; [|exact E].
      rewrite chars_of_snoc. lia.
    + intros [= <- <- <-]. auto.
Qed.

Lemma rfind_aux_bound l i best :
  rfind_aux l i best <= Z.max best (i + Z.of_nat (length l) - 1).
Proof.
  revert i best; induction l as [|c l IH]; intros i best; cbn [rfind_aux length].
  - lia.
  - specialize (IH (i + 1) (if is_hyphen c then i else best)).
    destruct (is_hyphen c); lia.
Qed.

Lemma slice_index_bound n i : 0 <= i -> Z.of_nat (slice_index n i) <= i.
Proof. intros Hi. unfold slice_index. destruct (i <? 0) eqn:E; lia. Qed.

Lemma rfind_hyphen_lt chunk e : 0 <= e -> rfind_hyphen chunk e < Z.max e 0 \/ rfind_hyphen chunk e = -1.
Proof.
  intros He. unfold rfind_hyphen.
  pose proof (rfind_aux_bound (slice_to e chunk) 0 (-1)) as H.
  rewrite length_slice_to in H.
  pose proof (slice_index_bound (length chunk) e He). lia.
Qed.

Lemma handle_long_word_fits width cur_len cur_line chunk :
  1 <= width -> cur_len = chars_of cur_line -> cur_len <= width ->
  chars_of (fst (handle_long_word width cur_len cur_line chunk)) <= width.
Proof.
  intros Hw Hlen Hle. unfold handle_long_word. cbn [fst].
  rewrite chars_of_snoc. unfold len at 1. rewrite length_slice_to.
  assert ((width <? 1) = false) as -> by (apply Z.ltb_ge; lia).
  set (space_left := width - cur_len).
  assert (0 <= space_left) as Hs by (unfold space_left; lia).
  match goal with |- context [slice_index _ ?e] =>
    assert (0 <= e <= space_left) as He end.
  { destruct (rfind_hyphen_lt chunk space_left Hs) as [Hlt|Hm1].
    - match goal with |- context [if ?b then _ else _] => destruct b eqn:Eb end;
        [|lia].
      apply andb_prop in Eb as [Eb _]. apply andb_prop in Eb as [_ Eb].
      apply Z.gtb_lt in Eb. lia.
    - rewrite Hm1. change (-1 >? 0) with false.
      rewrite andb_false_r. cbn [andb]. lia. }
  pose proof (slice_index_bound (length chunk) _ (proj1 He)).
  unfold space_left in *. lia.
Qed.

Lemma long_word_step_fits width cur_len cur_line chunks :
  1 <= width -> cur_len = chars_of cur_line -> cur_len <= width ->
  chars_of (fst (long_word_step width cur_len cur_line chunks)) <= width.
Proof.
  intros Hw Hlen Hle. destruct chunks as [|ch rest]; cbn [long_word_step fst].
  - lia.
  - destruct (len ch >? width); [|cbn [fst]; lia].
    pose proof (handle_long_word_fits width cur_len cur_line ch Hw Hlen Hle) as H.
    destruct (handle_long_word width cur_len cur_line ch) as [cl ch'].
    exact H.
Qed.

Lemma drop_last_blank_shorter cur_line :
  chars_of (drop_last_blank cur_line) <= chars_of cur_line.
Proof.
  unfold drop_last_blank.
  destruct (rev cur_line) as [|last_chunk init] eqn:E; [lia|].
  destruct (is_blank last_chunk); [|lia].
  assert (cur_line = rev init ++ [last_chunk]) as ->.
  { rewrite <- (rev_involutive cur_line), E. reflexivity. }
  rewrite chars_of_snoc. unfold len. lia.
Qed.

(** A line produced by one turn of the loop fits the width. *)
Lemma line_step_fits width hl chunks line :
  1 <= width ->
  fst (line_step width hl chunks) = Some line ->
  Z.of_nat (String.length line) <= width.
Proof.
  intros Hw. unfold line_step.
  destruct (fill_line width [] 0 (drop_first hl chunks))
    as [[cur_line cur_len] chunks2] eqn:Hfill.
  destruct (fill_line_fits width [] 0 _ _ _ _ eq_refl ltac:(lia) Hfill)
    as [Hlen Hle].
  pose proof (long_word_step_fits width cur_len cur_line chunks2 Hw Hlen Hle) as H3.
  destruct (long_word_step width cur_len cur_line chunks2) as [cur_line3 chunks3].
  cbn [fst] in *.
  pose proof (drop_last_blank_shorter cur_line3) as H4.
  destruct (drop_last_blank cur_line3) as [|c0 cl0]; [discriminate|].
  intros [= <-]. rewrite length_str. unfold chars_of in *.
  cbn [concat] in H4. lia.
Qed.

Definition fits (width : Z) (line : string) : Prop :=
  Z.of_nat (String.length line) <= width.

Lemma wrap_loop_fits width lines chunks :
  Forall (fits (Z.pos width)) lines ->
  Forall (fits (Z.pos width)) (wrap_loop width lines chunks).
Proof.
  funelim (wrap_loop width lines chunks); intros Hlines.
  - exact Hlines.
  - apply H.
    destruct (fst (line_step (Z.pos width) (has_lines lines) (ch :: rest)))
      as [line|] eqn:E; cbn [append_line]; [|exact Hlines].
    apply Forall_app. split; [exact Hlines|].
    constructor; [|constructor].
    eapply line_step_fits; [lia|exact E].
Qed.

(** [textwrap.wrap] returns lines no longer than a positive width, and
    raises only for a width that is not positive. *)
Lemma wrap_fits text width :
  1 <= width ->
  exists raw, wrap text width = Some raw /\ Forall (fits width) raw.
Proof.
  intros Hw. unfold wrap, wrap_chunks.
  destruct width as [|w|w]; try lia.
  eexists; split; [reflexivity|]. apply wrap_loop_fits. constructor.
Qed.

End TextWrapFacts.

(** ** The title banner text ([break_text]) *)

Module TitleFacts.
Import PyStr Title TextWrapFacts.

Definition ends_with_ellipsis (lines : list string) : bool :=
  match rev lines with
  | last_line :: _ => endswith ellipsis last_line
  | [] => false
  end.

(** The claim of the specification, for one title: the last line ends in
    the ellipsis exactly when the raw wrap had more than [max_lines]
    lines. *)
Definition ellipsis_iff_truncated (text : string) (max_lines line_width : Z)
  : Prop :=
  forall raw lines,
    TextWrap.wrap text line_width = Some raw ->
    break_lines text max_lines line_width = Ret lines ->
    (ends_with_ellipsis lines = true <-> max_lines < Z.of_nat (length raw)).

(** The scenario of the specification, for one title of 200 characters. *)
Definition scenario_200 (text : string) : Prop :=
  String.length text = 200%nat ->
  exists lines,
    break_lines text 3 40 = Ret lines
    /\ length lines = 3%nat
    /\ ends_with_ellipsis lines = true.

Definition repeat_char (c : ascii) (n : nat) : string := str (repeat c n).

(** Three words of forty letters, forty blanks between them. *)
Definition spaced_title : string :=
  repeat_char "x" 40 ++ repeat_char " " 40 ++ repeat_char "y" 40
  ++ repeat_char " " 40 ++ repeat_char "z" 40.

(** One word of 200 letters. *)
Definition long_title : string := repeat_char "a" 200.

Lemma chars_app (s t : string) : chars (s ++ t) = (chars s ++ chars t)%list.
Proof. induction s as [|c s IH]; simpl; [reflexivity|]. now rewrite IH. Qed.

Lemma str_app (l m : list ascii) : str (l ++ m)%list = str l ++ str m.
Proof. induction l as [|c l IH]; simpl; [reflexivity|]. now rewrite IH. Qed.

Lemma prefix_app (s t : string) : String.prefix s (s ++ t) = true.
Proof.
  induction s as [|c s IH]; simpl; [now destruct t|].
  destruct (ascii_dec c c); [exact IH|contradiction].
Qed.

Lemma endswith_app (s p : string) : endswith p (s ++ p) = true.
Proof.
  unfold endswith. rewrite chars_app, rev_app_distr, str_app. apply prefix_app.
Qed.

Lemma length_append (s t : string) :
  String.length (s ++ t) = (String.length s + String.length t)%nat.
Proof. induction s as [|c s IH]; simpl; [reflexivity|]. now rewrite IH. Qed.

Lemma total_length_app (l m : list string) :
  total_length (l ++ m)%list = total_length l + total_length m.
Proof.
  unfold total_length. induction l as [|x l IH]; simpl; [reflexivity|].
  rewrite IH. lia.
Qed.

Lemma total_length_fits width (lines : list string) :
  0 <= width -> Forall (fits width) lines ->
  total_length lines <= Z.of_nat (length lines) * width.
Proof.
  intros Hw H. induction H as [|x l Hx Hl IH].
  - reflexivity.
  - unfold total_length in *. cbn [fold_right length]. unfold fits in Hx. nia.
Qed.

(** [truncate] when nothing is cut. *)
Lemma truncate_short max_lines (raw : list string) :
  Z.of_nat (length raw) <= max_lines -> truncate max_lines raw = Ret raw.
Proof.
  intros H. unfold truncate.
  assert ((Z.of_nat (length raw) >? max_lines) = false) as ->; [|reflexivity].
  rewrite Z.gtb_ltb. apply Z.ltb_ge. exact H.
Qed.

(** [truncate] when lines are cut. *)
Lemma truncate_long max_lines (raw : list string) :
  1 <= max_lines -> max_lines < Z.of_nat (length raw) ->
  exists init last_line,
    firstn (Z.to_nat max_lines) raw = (init ++ [last_line])%list
    /\ truncate max_lines raw = Ret (init ++ [(last_line ++ ellipsis)%string])%list.
Proof.
  intros H1 H. unfold truncate.
  assert ((Z.of_nat (length raw) >? max_lines) = true) as ->
    by (apply Z.gtb_lt; exact H).
  assert (TextWrap.slice_to max_lines raw = firstn (Z.to_nat max_lines) raw) as ->.
  { unfold TextWrap.slice_to, TextWrap.slice_index.
    assert ((max_lines <? 0) = false) as -> by (apply Z.ltb_ge; lia).
    f_equal. lia. }
  destruct (rev (firstn (Z.to_nat max_lines) raw)) as [|last_line init] eqn:E.
  - apply (f_equal (@length string)) in E.
    rewrite length_rev, length_firstn in E. simpl in E. lia.
  - exists (rev init), last_line. split; [|reflexivity].
    rewrite <- (rev_involutive (firstn _ raw)), E. reflexivity.
Qed.

(** C1 (as amended).  For [max_lines >= 1] and [line_width >= 1],
    [break_text] never raises; it joins at most [max_lines] lines (the
    ffmpeg variant adds its blank padding lines around them); every raw
    line has at most [line_width] characters; when the raw wrap has at
    most [max_lines] lines they are returned unchanged; when it has more,
    exactly [max_lines] lines are kept, the last one is the raw line with
    the ellipsis appended, and the lines hold at most
    [max_lines * line_width] characters plus the three of the ellipsis. *)
Theorem break_text_lines (text : string) (max_lines line_width : Z) :
  1 <= max_lines -> 1 <= line_width ->
  exists raw lines,
    TextWrap.wrap text line_width = Some raw
    /\ break_lines text max_lines line_width = Ret lines
    /\ Moviepy.break_text text max_lines line_width = Ret (join nl lines)
    /\ (forall top_padding bottom_padding,
          Ffmpeg.break_text text max_lines line_width top_padding bottom_padding
          = Ret (join nl (repeat EmptyString (Z.to_nat top_padding) ++ lines
                          ++ repeat EmptyString (Z.to_nat bottom_padding))%list))
    /\ Z.of_nat (length lines) <= max_lines
    /\ Forall (fits line_width) raw
    /\ (Z.of_nat (length raw) <= max_lines -> lines = raw)
    /\ (max_lines < Z.of_nat (length raw) ->
        Z.of_nat (length lines) = max_lines
        /\ ends_with_ellipsis lines = true
        /\ (exists init last_line,
              firstn (Z.to_nat max_lines) raw = (init ++ [last_line])%list
              /\ lines = (init ++ [(last_line ++ ellipsis)%string])%list)
        /\ total_length lines <= max_lines * line_width + 3).
Proof.
  intros Hm Hw.
  destruct (wrap_fits text line_width Hw) as (raw & Hraw & Hfits).
  destruct (Z_le_gt_dec (Z.of_nat (length raw)) max_lines) as [Hshort|Hlong].
  - exists raw, raw.
    assert (break_lines text max_lines line_width = Ret raw) as Hb.
    { unfold break_lines. rewrite Hraw. now apply truncate_short. }
    unfold Moviepy.break_text, Ffmpeg.break_text. rewrite Hb.
    repeat split; auto. all: lia.
  - destruct (truncate_long max_lines raw Hm ltac:(lia))
      as (init & last_line & Hfirst & Htrunc).
    exists raw, (init ++ [(last_line ++ ellipsis)%string])%list.
    assert (break_lines text max_lines line_width
            = Ret (init ++ [(last_line ++ ellipsis)%string])%list) as Hb.
    { unfold break_lines. rewrite Hraw. exact Htrunc. }
    assert (length (init ++ [last_line])%list = Z.to_nat max_lines) as Hlen.
    { rewrite <- Hfirst, length_firstn. lia. }
    assert (Z.of_nat (length (init ++ [(last_line ++ ellipsis)%string])%list)
            = max_lines) as Hlen'.
    { rewrite length_app in *. cbn [length] in *. lia. }
    unfold Moviepy.break_text, Ffmpeg.break_text. rewrite Hb.
    split; [exact Hraw|]. split; [reflexivity|]. split; [reflexivity|].
    split; [reflexivity|]. split; [lia|]. split; [exact Hfits|].
    split; [lia|]. intros _.
    split; [exact Hlen'|]. split.
    { unfold ends_with_ellipsis. rewrite rev_app_distr. cbn [rev app].
      apply endswith_app. }
    split; [exists init, last_line; auto|].
    assert (Forall (fits line_width) (init ++ [last_line])%list) as Hf.
    { rewrite <- Hfirst. apply Forall_take. exact Hfits. }
    pose proof (total_length_fits line_width _ ltac:(lia) Hf) as Ht.
    rewrite Hlen in Ht. rewrite total_length_app in *.
    unfold total_length in *. cbn [fold_right] in *.
    rewrite length_append. cbn [String.length ellipsis]. lia.
Qed.

(** The theorem at the one-word title of 200 letters, three lines of
    forty characters. *)
Lemma break_text_lines_witness :
  exists raw lines,
    TextWrap.wrap long_title 40 = Some raw
    /\ break_lines long_title 3 40 = Ret lines
    /\ Moviepy.break_text long_title 3 40 = Ret (join nl lines)
    /\ (forall top_padding bottom_padding,
          Ffmpeg.break_text long_title 3 40 top_padding bottom_padding
          = Ret (join nl (repeat EmptyString (Z.to_nat top_padding) ++ lines
                          ++ repeat EmptyString (Z.to_nat bottom_padding))%list))
    /\ Z.of_nat (length lines) <= 3
    /\ Forall (fits 40) raw
    /\ (Z.of_nat (length raw) <= 3 -> lines = raw)
    /\ (3 < Z.of_nat (length raw) ->
        Z.of_nat (length lines) = 3
        /\ ends_with_ellipsis lines = true
        /\ (exists init last_line,
              firstn (Z.to_nat 3) raw = (init ++ [last_line])%list
              /\ lines = (init ++ [(last_line ++ ellipsis)%string])%list)
        /\ total_length lines <= 3 * 40 + 3).
Proof. apply (break_text_lines long_title 3 40); lia. Defined.

(** What the code returns for that title: the third line carries 43
    characters, 123 in all. *)
Example break_text_long_title :
  String.length long_title = 200%nat
  /\ break_lines long_title 3 40
     = Ret [repeat_char "a" 40; repeat_char "a" 40; repeat_char "a" 40 ++ "..."]
  /\ (forall lines, break_lines long_title 3 40 = Ret lines ->
      total_length lines = 123).
Proof.
  split; [reflexivity|]. split; [vm_compute; reflexivity|].
  intros lines. vm_compute. intros [= <-]. reflexivity.
Qed.

(** C1 (as stated) fails twice.  A title that itself ends in three dots
    and fits its lines comes back with a last line ending in the
    ellipsis although nothing was cut; and a title of 200 characters may
    wrap to three lines with nothing cut, so that no ellipsis is added. *)
Lemma break_text_claim_fails :
  ~ ellipsis_iff_truncated "Hi..." 3 40 /\ ~ scenario_200 spaced_title.
Proof.
  split.
  - intros H.
    assert (TextWrap.wrap "Hi..." 40 = Some ["Hi..."]) as Hw
      by (vm_compute; reflexivity).
    assert (break_lines "Hi..." 3 40 = Ret ["Hi..."]) as Hb
      by (vm_compute; reflexivity).
    destruct (H _ _ Hw Hb) as [H1 _].
    specialize (H1 eq_refl). simpl in H1. lia.
  - intros H. destruct (H eq_refl) as (lines & Hb & _ & He).
    vm_compute in Hb. injection Hb as <-. vm_compute in He. discriminate.
Qed.

End TitleFacts.

(** ** The fetcher of the ffmpeg variant *)

Module FetcherFacts.
Import Rt Ffmpeg Logic.

(** Unfolding of the monad operations. *)
Ltac run_monad :=
  unfold mbind, M_bind, bind, try_except, external, external_fs, logging,
    print, path_exists, ret, raise, any_exception, add_call, set_files;
  cbn [files log console calls fst snd].

Definition is_download (c : call) : bool :=
  match c with
  | StreamDownload _ _ _ => true
  | _ => false
  end.

Definition is_error (entry : level * string) : bool :=
  match fst entry with
  | ERROR | CRITICAL => true
  | _ => false
  end.

(** C4.  With the metadata of the candidate at hand, a duration of 119
    seconds or less makes [download_video] return [None] after an INFO
    entry: nothing is downloaded, nothing is logged as an error.  A
    duration of 120 seconds or more passes the gate: the streams are
    looked up and, when both exist, nothing is cached and the downloads
    succeed, both streams are downloaded and the paths returned. *)
Theorem duration_gate (E : Env) (w : World) (video_id title : string) (d : Z) :
  (forall w', yt_new E (watch_url video_id) w' = Ret tt) ->
  (forall w', yt_length E (watch_url video_id) w' = Ret d) ->
  (d <= 119 ->
   exists w',
     download_video E video_id title w = (Ret None, w')
     /\ files w' = files w
     /\ since (log w) (log w')
          [(DEBUG, "Attempting to download video from URL: " ++ watch_url video_id);
           (INFO, "Video '" ++ title ++ "' is shorter than 2 minutes. Skipping download.")]
     /\ since (calls w) (calls w')
          [YouTubeQuery (watch_url video_id) "YouTube";
           YouTubeQuery (watch_url video_id) "length"])
  /\ (120 <= d ->
      forall vs aus,
        (forall w', yt_first_stream E (watch_url video_id) VideoOnly w' = Ret (Some vs)) ->
        (forall w', yt_first_stream E (watch_url video_id) AudioOnly w' = Ret (Some aus)) ->
        (forall s dir f w', fst (stream_download E s dir f w') = Ret tt) ->
        video_path E title ∉ files w ->
        exists w',
          download_video E video_id title w
          = (Ret (Some (video_path E title, audio_path E title, false)), w')
          /\ since (calls w) (calls w')
               [YouTubeQuery (watch_url video_id) "YouTube";
                YouTubeQuery (watch_url video_id) "length";
                YouTubeQuery (watch_url video_id) "video stream";
                YouTubeQuery (watch_url video_id) "audio stream";
                StreamDownload vs (YT_DOWNLOADS_DIR E) (video_file title);
                StreamDownload aus (YT_DOWNLOADS_DIR E) (audio_file title)]
          /\ List.filter is_error (log w') = List.filter is_error (log w)).
Proof.
  intros Hnew Hlen. split.
  - intros Hd. unfold download_video. run_monad.
    rewrite Hnew, Hlen.
    assert ((d <? 120) = true) as -> by (apply Z.ltb_lt; lia).
    eexists. split; [reflexivity|]. cbn [files log calls].
    unfold since. rewrite <- !app_assoc. auto.
  - intros Hd vs aus Hvs Haus Hdl Hfresh. unfold download_video. run_monad.
    rewrite Hnew, Hlen.
    assert ((d <? 120) = false) as -> by (apply Z.ltb_ge; lia).
    rewrite Hvs, Haus. rewrite bool_decide_eq_false_2 by exact Hfresh.
    repeat match goal with
    | |- context [stream_download E ?s ?dir ?f ?w0] =>
        let H := fresh "Hd" in
        pose proof (Hdl s dir f w0) as H;
        destruct (stream_download E s dir f w0) as [? ?];
        cbn [fst] in H; subst; cbn [files log console calls fst snd]
    end.
    eexists. split; [reflexivity|]. cbn [files log calls].
    unfold since. rewrite <- !app_assoc. split; [reflexivity|].
    rewrite !List.filter_app. cbn. rewrite !app_nil_r. reflexivity.
Qed.

(** The gate at its boundary: 119 seconds are skipped, 120 are taken. *)
Lemma duration_gate_witness :
  (exists w',
     download_video (Samples.sample_env 119 (1920, 1080) Samples.tools_work)
       "JK-B-CT34EU" "24 Modern Ui" Samples.empty_world = (Ret None, w')
     /\ files w' = files Samples.empty_world
     /\ since (log Samples.empty_world) (log w')
          [(DEBUG, "Attempting to download video from URL: " ++ watch_url "JK-B-CT34EU");
           (INFO, "Video '" ++ "24 Modern Ui" ++ "' is shorter than 2 minutes. Skipping download.")]
     /\ since (calls Samples.empty_world) (calls w')
          [YouTubeQuery (watch_url "JK-B-CT34EU") "YouTube";
           YouTubeQuery (watch_url "JK-B-CT34EU") "length"])
  /\ (exists w',
        download_video (Samples.sample_env 120 (1920, 1080) Samples.tools_work)
          "JK-B-CT34EU" "24 Modern Ui" Samples.empty_world
        = (Ret (Some (video_path (Samples.sample_env 120 (1920, 1080) Samples.tools_work)
                        "24 Modern Ui",
                      audio_path (Samples.sample_env 120 (1920, 1080) Samples.tools_work)
                        "24 Modern Ui", false)), w')
        /\ since (calls Samples.empty_world) (calls w')
             [YouTubeQuery (watch_url "JK-B-CT34EU") "YouTube";
              YouTubeQuery (watch_url "JK-B-CT34EU") "length";
              YouTubeQuery (watch_url "JK-B-CT34EU") "video stream";
              YouTubeQuery (watch_url "JK-B-CT34EU") "audio stream";
              StreamDownload {| stream_url := watch_url "JK-B-CT34EU"; stream_is := VideoOnly |}
                (YT_DOWNLOADS_DIR (Samples.sample_env 120 (1920, 1080) Samples.tools_work))
                (video_file "24 Modern Ui");
              StreamDownload {| stream_url := watch_url "JK-B-CT34EU"; stream_is := AudioOnly |}
                (YT_DOWNLOADS_DIR (Samples.sample_env 120 (1920, 1080) Samples.tools_work))
                (audio_file "24 Modern Ui")]
        /\ List.filter is_error (log w') = List.filter is_error (log Samples.empty_world)).
Proof.
  split.
  - apply (proj1 (duration_gate
                    (Samples.sample_env 119 (1920, 1080) Samples.tools_work)
                    Samples.empty_world "JK-B-CT34EU" "24 Modern Ui" 119
                    (fun _ => eq_refl) (fun _ => eq_refl))).
    lia.
  - apply (proj2 (duration_gate
                    (Samples.sample_env 120 (1920, 1080) Samples.tools_work)
                    Samples.empty_world "JK-B-CT34EU" "24 Modern Ui" 120
                    (fun _ => eq_refl) (fun _ => eq_refl))).
    + lia.
    + intros w'. reflexivity.
    + intros w'. reflexivity.
    + intros s dir f w'. reflexivity.
    + apply not_elem_of_empty.
Defined.

(** Case analysis on what a collaborator answered. *)
Ltac case_oracle :=
  match goal with
  | |- context [match ?x with Ret _ => _ | Raise _ => _ end] => destruct x eqn:?
  | |- context [match ?x with Some _ => _ | None => _ end] => destruct x eqn:?
  | |- context [if ?b then _ else _] => destruct b eqn:?
  end;
  cbn [files log console calls fst snd].

Ltac close_calls :=
  unfold since; cbn [files log console calls];
  rewrite <- ?app_assoc; cbn [app]; reflexivity.

(** [download_video] never raises, whatever the collaborators do. *)
Lemma download_video_returns (E : Env) (w : World) (video_id title : string) :
  exists r w', download_video E video_id title w = (Ret r, w').
Proof.
  unfold download_video. run_monad.
  repeat case_oracle; eauto.
  all: repeat match goal with
       | |- context [stream_download ?E0 ?s ?dir ?f ?w0] =>
           destruct (stream_download E0 s dir f w0) as [[?|?] ?] eqn:?;
           cbn [files log console calls fst snd]
       end; eauto.
Qed.

(** The answers of pytubefix that let a candidate through: the object is
    made, the duration is read and is at least 120 seconds, and both
    stream lookups give a stream. *)
Definition lookup_passes (made : outcome unit) (seconds : outcome Z)
    (video_stream audio_stream : outcome (option stream)) : bool :=
  match made, seconds, video_stream, audio_stream with
  | Ret _, Ret d, Ret (Some _), Ret (Some _) => 120 <=? d
  | _, _, _, _ => false
  end.

(** With the video file on disk the result follows the lookups alone. *)
Lemma cached_result (E : Env) (w : World) (video_id title : string)
    made seconds video_stream audio_stream :
  video_path E title ∈ files w ->
  (forall w', yt_new E (watch_url video_id) w' = made) ->
  (forall w', yt_length E (watch_url video_id) w' = seconds) ->
  (forall w', yt_first_stream E (watch_url video_id) VideoOnly w' = video_stream) ->
  (forall w', yt_first_stream E (watch_url video_id) AudioOnly w' = audio_stream) ->
  fst (download_video E video_id title w)
  = Ret (if lookup_passes made seconds video_stream audio_stream
         then Some (video_path E title, audio_path E title, true)
         else None).
Proof.
  intros Hcached Hnew Hlen Hvs Haus.
  unfold download_video. run_monad. rewrite Hnew.
  destruct made as [[]|e]; cbn [files log console calls fst snd lookup_passes];
    [|reflexivity].
  rewrite Hlen.
  destruct seconds as [d|e]; cbn [files log console calls fst snd lookup_passes];
    [|reflexivity].
  destruct (Z.ltb_spec d 120) as [Hd|Hd];
    cbn [files log console calls fst snd].
  { assert ((120 <=? d) = false) as -> by (apply Z.leb_gt; lia).
    now destruct video_stream as [[?|]|?], audio_stream as [[?|]|?]. }
  assert ((120 <=? d) = true) as -> by (apply Z.leb_le; lia).
  rewrite Hvs.
  destruct video_stream as [vs|e]; cbn [files log console calls fst snd];
    [|reflexivity].
  rewrite Haus.
  destruct audio_stream as [aus|e]; cbn [files log console calls fst snd];
    [|now destruct vs].
  destruct vs as [vs|], aus as [aus|]; cbn [files log console calls fst snd];
    try reflexivity.
  rewrite bool_decide_eq_true_2 by exact Hcached. reflexivity.
Qed.

(** What [download_and_merge] makes of a result that needs no merge. *)
Lemma merge_skipped (E : Env) (w : World) (video_id title : string) (hit : bool) :
  fst (download_video E video_id title w)
  = Ret (if hit then Some (video_path E title, audio_path E title, true)
         else None) ->
  download_and_merge E video_id title w
  = (Ret (if hit then Some (merged_path E title) else None),
     snd (download_video E video_id title w)).
Proof.
  intros H. unfold download_and_merge, mbind, M_bind, bind.
  destruct (download_video E video_id title w) as [r w']. cbn [fst snd] in *.
  subst r. destruct hit; reflexivity.
Qed.

(** C9 (as amended).  When the expected video file exists,
    [download_video] downloads no stream and leaves the disk alone,
    whatever the collaborators answer, and returns [None] or the two
    expected paths with the flag [True].  With collaborators whose
    answers do not change during the call, it returns the paths (and
    [download_and_merge] the merged path, without calling ffmpeg) exactly
    when the YouTube object is made, the duration is read and is at least
    120 seconds and both stream lookups give a stream; in every other
    case both return [None].  Only the video path is tested; the files
    are not opened. *)
Theorem cache_hit (E : Env) (w : World) (video_id title : string) :
  video_path E title ∈ files w ->
  (exists r w' added,
     download_video E video_id title w = (Ret r, w')
     /\ (r = None \/ r = Some (video_path E title, audio_path E title, true))
     /\ files w' = files w
     /\ since (calls w) (calls w') added
     /\ forallb (fun c => negb (is_download c)) added = true)
  /\ (forall d vs aus,
        (forall w', yt_new E (watch_url video_id) w' = Ret tt) ->
        (forall w', yt_length E (watch_url video_id) w' = Ret d) ->
        120 <= d ->
        (forall w', yt_first_stream E (watch_url video_id) VideoOnly w' = Ret (Some vs)) ->
        (forall w', yt_first_stream E (watch_url video_id) AudioOnly w' = Ret (Some aus)) ->
        exists w',
          download_video E video_id title w
          = (Ret (Some (video_path E title, audio_path E title, true)), w')
          /\ download_and_merge E video_id title w
             = (Ret (Some (merged_path E title)), w')
          /\ files w' = files w
          /\ since (calls w) (calls w')
               [YouTubeQuery (watch_url video_id) "YouTube";
                YouTubeQuery (watch_url video_id) "length";
                YouTubeQuery (watch_url video_id) "video stream";
                YouTubeQuery (watch_url video_id) "audio stream"])
  /\ (forall made seconds video_stream audio_stream,
        (forall w', yt_new E (watch_url video_id) w' = made) ->
        (forall w', yt_length E (watch_url video_id) w' = seconds) ->
        (forall w', yt_first_stream E (watch_url video_id) VideoOnly w'
                    = video_stream) ->
        (forall w', yt_first_stream E (watch_url video_id) AudioOnly w'
                    = audio_stream) ->
        fst (download_video E video_id title w)
        = Ret (if lookup_passes made seconds video_stream audio_stream
               then Some (video_path E title, audio_path E title, true)
               else None)
        /\ fst (download_and_merge E video_id title w)
           = Ret (if lookup_passes made seconds video_stream audio_stream
                  then Some (merged_path E title)
                  else None)).
Proof.
  intros Hcached. split; [|split].
  - unfold download_video. run_monad.
    repeat first [rewrite bool_decide_eq_true_2 by exact Hcached
                 | case_oracle].
    all: eexists _, _, _; split; [reflexivity|]; split; [auto|];
      split; [reflexivity|]; split; [close_calls|reflexivity].
  - intros d vs aus Hnew Hlen Hd Hvs Haus.
    assert (download_video E video_id title w
            = (Ret (Some (video_path E title, audio_path E title, true)),
               mkWorld (files w)
                 (log w ++ [(DEBUG, "Attempting to download video from URL: "
                                    ++ watch_url video_id)])
                 (console w)
                 (calls w ++ [YouTubeQuery (watch_url video_id) "YouTube";
                              YouTubeQuery (watch_url video_id) "length";
                              YouTubeQuery (watch_url video_id) "video stream";
                              YouTubeQuery (watch_url video_id) "audio stream"])))
      as Hdv.
    { unfold download_video. run_monad. rewrite Hnew, Hlen.
      assert ((d <? 120) = false) as -> by (apply Z.ltb_ge; lia).
      rewrite Hvs, Haus.
      rewrite bool_decide_eq_true_2 by exact Hcached.
      cbn [files log console calls]. rewrite <- !app_assoc. reflexivity. }
    eexists. split; [exact Hdv|]. split.
    { unfold download_and_merge. unfold mbind, M_bind, bind at 1.
      rewrite Hdv. reflexivity. }
    split; reflexivity.
  - intros made seconds video_stream audio_stream Hnew Hlen Hvs Haus.
    pose proof (cached_result E w video_id title made seconds video_stream
                  audio_stream Hcached Hnew Hlen Hvs Haus) as Hr.
    split; [exact Hr|].
    now rewrite (merge_skipped E w video_id title _ Hr).
Qed.

Definition long_video : Env := Samples.sample_env 300 (1920, 1080) Samples.tools_work.
Definition short_video : Env := Samples.sample_env 60 (1920, 1080) Samples.tools_work.

(** A disk that already holds the two downloads of the sample title. *)
Definition cached_world (E : Env) : World :=
  Samples.world_with {[video_path E "24 Modern Ui"; audio_path E "24 Modern Ui"]}.

Lemma cache_hit_witness :
  (exists r w' added,
     download_video long_video "JK-B-CT34EU" "24 Modern Ui" (cached_world long_video)
     = (Ret r, w')
     /\ (r = None
         \/ r = Some (video_path long_video "24 Modern Ui",
                      audio_path long_video "24 Modern Ui", true))
     /\ files w' = files (cached_world long_video)
     /\ since (calls (cached_world long_video)) (calls w') added
     /\ forallb (fun c => negb (is_download c)) added = true)
  /\ (exists w',
        download_video long_video "JK-B-CT34EU" "24 Modern Ui" (cached_world long_video)
        = (Ret (Some (video_path long_video "24 Modern Ui",
                      audio_path long_video "24 Modern Ui", true)), w')
        /\ download_and_merge long_video "JK-B-CT34EU" "24 Modern Ui"
             (cached_world long_video)
           = (Ret (Some (merged_path long_video "24 Modern Ui")), w')
        /\ files w' = files (cached_world long_video)
        /\ since (calls (cached_world long_video)) (calls w')
             [YouTubeQuery (watch_url "JK-B-CT34EU") "YouTube";
              YouTubeQuery (watch_url "JK-B-CT34EU") "length";
              YouTubeQuery (watch_url "JK-B-CT34EU") "video stream";
              YouTubeQuery (watch_url "JK-B-CT34EU") "audio stream"])
  /\ fst (download_video short_video "JK-B-CT34EU" "24 Modern Ui"
            (cached_world short_video)) = Ret None
  /\ fst (download_and_merge short_video "JK-B-CT34EU" "24 Modern Ui"
            (cached_world short_video)) = Ret None.
Proof.
  assert (video_path long_video "24 Modern Ui" ∈ files (cached_world long_video))
    as Hin by (cbn [cached_world Samples.world_with files]; set_solver).
  assert (video_path short_video "24 Modern Ui" ∈ files (cached_world short_video))
    as Hin' by (cbn [cached_world Samples.world_with files]; set_solver).
  destruct (cache_hit long_video (cached_world long_video)
              "JK-B-CT34EU" "24 Modern Ui" Hin) as (H1 & H2 & _).
  destruct (cache_hit short_video (cached_world short_video)
              "JK-B-CT34EU" "24 Modern Ui" Hin') as (_ & _ & H3).
  split; [exact H1|]. split.
  - apply (H2 300 {| stream_url := watch_url "JK-B-CT34EU"; stream_is := VideoOnly |}
              {| stream_url := watch_url "JK-B-CT34EU"; stream_is := AudioOnly |}).
    + intros w'. reflexivity.
    + intros w'. reflexivity.
    + lia.
    + intros w'. reflexivity.
    + intros w'. reflexivity.
  - apply (H3 (Ret tt) (Ret 60)
              (Ret (Some {| stream_url := watch_url "JK-B-CT34EU";
                            stream_is := VideoOnly |}))
              (Ret (Some {| stream_url := watch_url "JK-B-CT34EU";
                            stream_is := AudioOnly |})));
      intros w'; reflexivity.
Defined.

(** C9 (as stated) fails: both expected files exist, yet the candidate
    lasts 60 seconds and [download_video] returns [None], not the paths. *)
Lemma cached_but_short :
  video_path short_video "24 Modern Ui" ∈ files (cached_world short_video)
  /\ audio_path short_video "24 Modern Ui" ∈ files (cached_world short_video)
  /\ fst (download_video short_video "JK-B-CT34EU" "24 Modern Ui"
            (cached_world short_video)) = Ret None
  /\ fst (download_and_merge short_video "JK-B-CT34EU" "24 Modern Ui"
            (cached_world short_video)) = Ret None.
Proof.
  split; [cbn [cached_world Samples.world_with files]; set_solver|].
  split; [cbn [cached_world Samples.world_with files]; set_solver|].
  split; vm_compute; reflexivity.
Qed.

(** ** Merge failures (C5) *)

Definition merge_fails : Env := Samples.sample_env 300 (1920, 1080) Samples.ffmpeg_fails.
Definition merge_cannot_start : Env :=
  Samples.sample_env 300 (1920, 1080) Samples.ffmpeg_missing.

(** C5 does not hold of the code.  The download succeeds and ffmpeg exits
    with an error: [merge_video_audio] logs it, but [download_and_merge]
    still returns the path of the merged file, which does not exist.
    When ffmpeg cannot be started at all, the [OSError] is not caught by
    [merge_video_audio] and leaves [download_and_merge]. *)
Theorem merge_failure_not_reported :
  (let r := download_and_merge merge_fails "JK-B-CT34EU" "24 Modern Ui"
              Samples.empty_world in
   fst r = Ret (Some (merged_path merge_fails "24 Modern Ui"))
   /\ bool_decide (merged_path merge_fails "24 Modern Ui" ∈ files (snd r)) = false
   /\ List.last (log (snd r)) (DEBUG, EmptyString)
      = (ERROR, "Error merging video and audio: Command returned non-zero exit status 1."))
  /\ fst (download_and_merge merge_cannot_start "JK-B-CT34EU" "24 Modern Ui"
            Samples.empty_world)
     = Raise (Exn OSError "[Errno 2] No such file or directory: 'ffmpeg'").
Proof. split; [split; [|split]|]; vm_compute; reflexivity. Qed.

(** The part of C5 that holds: a failing download is logged and
    [download_and_merge] returns [None] without raising. *)
Lemma download_failure_reported (E : Env) (w : World) (video_id title : string) :
  fst (download_video E video_id title w) = Ret None ->
  download_and_merge E video_id title w
  = (Ret None, snd (download_video E video_id title w)).
Proof.
  intros H. unfold download_and_merge, mbind, M_bind, bind.
  destruct (download_video E video_id title w) as [r w']. cbn [fst snd] in *.
  subst r. reflexivity.
Qed.

End FetcherFacts.

(** ** The compositor of the ffmpeg variant *)

Module CompositorFacts.
Import Rt Ffmpeg Logic.

(** Leaves of a computation; [fs_tac] proves that a call touching the
    disk keeps the invariant. *)
Ltac hoare_leaf fs_tac :=
  lazymatch goal with
  | |- behaves _ _ _ (ret _) => apply behaves_ret
  | |- behaves _ _ _ (raise _) => apply behaves_raise
  | |- behaves _ _ _ (logging _ _) => apply behaves_logging
  | |- behaves _ _ _ (print _) => apply behaves_print
  | |- behaves _ _ _ (path_exists _) => apply behaves_path_exists; intros ?
  | |- behaves _ _ _ (external _ _) =>
      eapply behaves_weaken; [apply behaves_external; reflexivity|intros ? _]
  | |- behaves _ _ _ (external_fs _ _) =>
      eapply behaves_weaken;
      [apply behaves_external_fs; [reflexivity|fs_tac]|intros ? _]
  end.

Ltac hoare_step fs_tac :=
  lazymatch goal with
  | |- behaves _ _ _ (mbind _ _) => unfold mbind, M_bind
  | |- behaves _ _ _ (bind _ _) =>
      eapply behaves_bind with (Rm := anything); [|intros ? _|intros ? _]
  | |- behaves _ _ _ (try_except _ _ _) =>
      eapply behaves_try with (Rm := anything);
      [|intros ? _|intros ? _ ?|intros ? _ ?]
  | |- behaves _ _ _ (if ?b then _ else _) => destruct b eqn:?
  | |- behaves _ _ _ (match ?x with _ => _ end) => destruct x eqn:?
  | |- behaves _ _ _ (let _ := _ in _) => cbv zeta
  | _ => hoare_leaf fs_tac
  end.

Definition is_transcoding (c : call) : bool :=
  match c with
  | Subprocess ("ffmpeg" :: _) => true
  | _ => false
  end.

Definition not_transcoding (c : call) : bool := negb (is_transcoding c).

(** The four stage outputs of a title. *)
Definition stage_outputs (title : string) : gset string :=
  {[blurry_bg_path title; trimmed_main_path title;
    final_output_path title; concat_output_path title]}.

Definition outputs_present (title : string) (fs : gset string) : Prop :=
  stage_outputs title ⊆ fs.

(** What a run may return: [True] or [None], possibly after an exception
    inside the [try] block. *)
Definition flag_or_none (r : outcome pyval) : Prop :=
  r = Ret (PyBool true) \/ r = Ret PyNone.

Definition flag_none_or_raise (r : outcome pyval) : Prop :=
  r = Ret (PyBool true) \/ r = Ret PyNone \/ exists e, r = Raise e.

Section Rerun.
Variable E : Env.
Variable title : string.

(** Probing and writing the concat list do not remove stage outputs. *)
Hypothesis probe_keeps : forall p w,
  outputs_present title (files w) ->
  outputs_present title (snd (run_process E (cmd_probe p) w)).
Hypothesis write_keeps : forall p c w,
  outputs_present title (files w) ->
  outputs_present title (snd (write_file E p c w)).

Lemma stage_skipped path cmd on_success on_failure stop :
  path ∈ stage_outputs title ->
  behaves (outputs_present title) not_transcoding (fun r => r = Ret true)
    (stage E path cmd on_success on_failure stop).
Proof.
  intros Hin. unfold stage, mbind, M_bind.
  eapply behaves_bind with (Rm := fun r => r = Ret true).
  - apply behaves_path_present. intros fs Hfs. apply Hfs, Hin.
  - intros a [= ->]. now apply behaves_ret.
  - intros e [=].
Qed.

Lemma probe_quiet path :
  behaves (outputs_present title) not_transcoding anything
    (get_video_dimensions E path).
Proof.
  unfold get_video_dimensions.
  repeat hoare_step ltac:(apply probe_keeps).
  all: exact I.
Qed.

Ltac next tac :=
  eapply behaves_bind with (Rm := anything);
  [tac|intros ? _|intros ? _; right; right; eauto].

Ltac skipped_stage :=
  eapply behaves_bind with (Rm := fun r => r = Ret true);
  [apply stage_skipped; unfold stage_outputs; set_solver
  |intros ? [= ->]; cbn [negb]
  |intros ? [=]].

(** With the four outputs on disk a run starts no ffmpeg process and ends
    with [True] or [None]. *)
Lemma rerun_quiet input_path outro_path duration watermark_path overwrite :
  behaves (outputs_present title) not_transcoding flag_or_none
    (trim_and_resize_video E input_path title outro_path duration
       watermark_path overwrite).
Proof.
  unfold trim_and_resize_video.
  eapply behaves_try with (Rm := flag_none_or_raise).
  - unfold mbind, M_bind.
    next ltac:(apply behaves_logging; exact I).
    next ltac:(hoare_leaf idtac; exact I).
    next ltac:(apply behaves_logging; exact I).
    skipped_stage.
    next ltac:(apply probe_quiet).
    cbv zeta.
    next ltac:(apply behaves_logging; exact I).
    next ltac:(apply behaves_logging; exact I).
    skipped_stage.
    next ltac:(apply probe_quiet).
    next ltac:(apply behaves_logging; exact I).
    next ltac:(apply behaves_lift; exact I).
    skipped_stage.
    next ltac:(hoare_leaf ltac:(apply write_keeps); exact I).
    eapply behaves_bind with (Rm := fun r => r = Ret true);
      [apply stage_skipped; unfold stage_outputs; set_solver
      |intros ? _|intros ? [=]].
    apply behaves_ret. left. reflexivity.
  - intros a [H|[H|[e H]]]; [left|right|discriminate]; exact H.
  - intros e _ _. unfold mbind, M_bind.
    eapply behaves_bind with (Rm := fun r => r = Ret tt);
      [apply behaves_logging; reflexivity|intros ? _|intros ? [=]].
    apply behaves_ret. right. reflexivity.
  - intros e _ [=].
Qed.

Lemma break_text_returns (text : string) :
  exists formatted, break_text text 3 20 3 3 = Ret formatted.
Proof.
  destruct (TitleFacts.break_text_lines text 3 20 ltac:(lia) ltac:(lia))
    as (raw & lines & _ & _ & _ & H & _).
  eexists. apply H.
Qed.

Lemma present_in path fs :
  outputs_present title fs -> path ∈ stage_outputs title ->
  bool_decide (path ∈ fs) = true.
Proof. intros H Hin. apply bool_decide_eq_true_2, H, Hin. Qed.

(** When moreover the directory can be made, both probes answer with two
    integers and the concat list can be written, the run returns [True]
    after exactly four external calls, none of them ffmpeg. *)
Lemma rerun_succeeds input_path outro_path duration watermark_path overwrite w :
  outputs_present title (files w) ->
  (forall w', makedirs E output_dir w' = Ret tt) ->
  (forall p w', exists out dims,
      fst (run_process E (cmd_probe p) w') = Ret out
      /\ parse_dimensions out = Ret dims) ->
  (forall p c w', fst (write_file E p c w') = Ret tt) ->
  exists w',
    trim_and_resize_video E input_path title outro_path duration
      watermark_path overwrite w = (Ret (PyBool true), w')
    /\ since (calls w) (calls w')
         [Makedirs output_dir;
          Subprocess (cmd_probe (blurry_bg_path title));
          Subprocess (cmd_probe (trimmed_main_path title));
          WriteFile concat_file (concat_list title outro_path)]
    /\ console w' = console w.
Proof.
  intros Hw Hmk Hprobe Hwrite.
  destruct (break_text_returns title) as [formatted Hbt].
  unfold trim_and_resize_video, stage, get_video_dimensions.
  unfold mbind, M_bind, bind, try_except, external, external_fs, logging,
    print, path_exists, ret, raise, any_exception, add_call, set_files.
  cbn [files log console calls fst snd].
  rewrite Hmk. cbv beta iota; cbn [negb files log console calls fst snd].
  rewrite (present_in (blurry_bg_path title) _ Hw)
    by (unfold stage_outputs; set_solver).
  cbv beta iota; cbn [negb files log console calls fst snd].
  match goal with |- context [run_process E (cmd_probe ?p) ?W] =>
    pose proof (probe_keeps p W Hw) as Hk1;
    destruct (Hprobe p W) as (out1 & dims1 & Ho1 & Hd1);
    destruct (run_process E (cmd_probe p) W) as [r1 fs1]
  end.
  cbn [fst snd files log console calls] in *. subst r1. rewrite Hd1.
  cbn [is_class exn_cls]. cbn [files log console calls fst snd].
  rewrite (present_in (trimmed_main_path title) _ Hk1)
    by (unfold stage_outputs; set_solver).
  cbv beta iota; cbn [negb files log console calls fst snd].
  match goal with |- context [run_process E (cmd_probe ?p) ?W] =>
    pose proof (probe_keeps p W Hk1) as Hk2;
    destruct (Hprobe p W) as (out2 & dims2 & Ho2 & Hd2);
    destruct (run_process E (cmd_probe p) W) as [r2 fs2]
  end.
  cbn [fst snd files log console calls] in *. subst r2. rewrite Hd2.
  cbn [files log console calls fst snd].
  rewrite Hbt. cbv beta iota; cbn [negb files log console calls fst snd].
  rewrite (present_in (final_output_path title) _ Hk2)
    by (unfold stage_outputs; set_solver).
  cbv beta iota; cbn [negb files log console calls fst snd].
  match goal with |- context [write_file E ?p ?c ?W] =>
    pose proof (write_keeps p c W Hk2) as Hk3;
    pose proof (Hwrite p c W) as Hw3;
    destruct (write_file E p c W) as [r3 fs3]
  end.
  cbn [fst snd files log console calls] in *. subst r3.
  rewrite (present_in (concat_output_path title) _ Hk3)
    by (unfold stage_outputs; set_solver).
  cbv beta iota; cbn [negb files log console calls fst snd].
  eexists. split; [reflexivity|]. cbn [calls console].
  split; [|reflexivity]. unfold since. rewrite <- !app_assoc. reflexivity.
Qed.

End Rerun.
(** *** Results of a run, whatever is on disk *)

Definition any_files (fs : gset string) : Prop := True.
Definition any_call (c : call) : bool := true.

Ltac flag_goal :=
  first [exact I
        |left; reflexivity
        |right; left; reflexivity
        |right; right; eexists; reflexivity].

Ltac total_step :=
  lazymatch goal with
  | |- behaves _ _ _ (stage _ _ _ _ _ _) => unfold stage
  | |- behaves _ _ _ (get_video_dimensions _ _) => unfold get_video_dimensions
  | _ => hoare_step ltac:(intros; exact I)
  end.

(** [trim_and_resize_video] never raises and never returns a path: its
    result is [True] or [None]. *)
Lemma trim_flag_or_none (E : Env) input_path title outro_path duration
    watermark_path overwrite :
  behaves any_files any_call flag_or_none
    (trim_and_resize_video E input_path title outro_path duration
       watermark_path overwrite).
Proof.
  unfold trim_and_resize_video.
  eapply behaves_try with (Rm := flag_none_or_raise).
  - repeat total_step. all: flag_goal.
  - intros a [H|[H|[e H]]]; [left|right|discriminate]; exact H.
  - intros e _ _. unfold mbind, M_bind.
    eapply behaves_bind with (Rm := fun r => r = Ret tt);
      [apply behaves_logging; reflexivity|intros ? _|intros ? [=]].
    apply behaves_ret. right. reflexivity.
  - intros e _ [=].
Qed.

Ltac unfold_run :=
  unfold trim_and_resize_video, stage, get_video_dimensions;
  unfold mbind, M_bind, bind, try_except, external, external_fs, logging,
    print, path_exists, ret, raise, any_exception, add_call, set_files.

Ltac simp_run :=
  cbv beta iota;
  cbn [negb orb andb files log console calls fst snd is_class exn_cls
       exn_class_eqb].

(** When every collaborator succeeds the run returns [True], whatever was
    on disk. *)
Lemma trim_succeeds (E : Env) input_path title outro_path duration
    watermark_path overwrite w :
  (forall w', makedirs E output_dir w' = Ret tt) ->
  (forall cmd w', exists out, fst (run_process E cmd w') = Ret out) ->
  (forall p w', exists out dims,
      fst (run_process E (cmd_probe p) w') = Ret out
      /\ parse_dimensions out = Ret dims) ->
  (forall p c w', fst (write_file E p c w') = Ret tt) ->
  fst (trim_and_resize_video E input_path title outro_path duration
         watermark_path overwrite w) = Ret (PyBool true).
Proof.
  intros Hmk Hrun Hprobe Hwrite.
  destruct (break_text_returns title) as [formatted Hbt].
  unfold_run. simp_run. rewrite Hmk, Hbt. simp_run.
  repeat match goal with
  | |- context [bool_decide ?P] => destruct (bool_decide P); simp_run
  | |- context [run_process E (cmd_probe ?p) ?W] =>
      let out := fresh "out" in
      let dims := fresh "dims" in
      let Ho := fresh "Ho" in
      let Hd := fresh "Hd" in
      destruct (Hprobe p W) as (out & dims & Ho & Hd);
      destruct (run_process E (cmd_probe p) W) as [? ?];
      cbn [fst snd] in Ho; subst; rewrite Hd; simp_run
  | |- context [run_process E ?cmd ?W] =>
      let out := fresh "out" in
      let Ho := fresh "Ho" in
      destruct (Hrun cmd W) as (out & Ho);
      destruct (run_process E cmd W) as [? ?];
      cbn [fst snd] in Ho; subst; simp_run
  | |- context [write_file E ?p ?c ?W] =>
      let Ho := fresh "Ho" in
      pose proof (Hwrite p c W) as Ho;
      destruct (write_file E p c W) as [? ?];
      cbn [fst snd] in Ho; subst; simp_run
  end.
  all: reflexivity.
Qed.

(** When the background is missing and ffmpeg fails on it, the run logs
    the error and returns [None]. *)
Lemma trim_fails_first_stage (E : Env) input_path title outro_path duration
    watermark_path overwrite w msg :
  (forall w', makedirs E output_dir w' = Ret tt) ->
  blurry_bg_path title ∉ files w ->
  (forall w', fst (run_process E (cmd_trim_resize_blur input_path title duration) w')
              = Raise (Exn CalledProcessError msg)) ->
  fst (trim_and_resize_video E input_path title outro_path duration
         watermark_path overwrite w) = Ret PyNone
  /\ List.last (log (snd (trim_and_resize_video E input_path title outro_path
                            duration watermark_path overwrite w)))
               (DEBUG, EmptyString)
     = (ERROR, "Failed to create blurry background video. Error: " ++ msg).
Proof.
  intros Hmk Hmissing Hfail.
  unfold_run. simp_run. rewrite Hmk. simp_run.
  rewrite bool_decide_eq_false_2 by exact Hmissing. simp_run.
  match goal with |- context [run_process E ?cmd ?W] =>
    pose proof (Hfail W) as Hf; destruct (run_process E cmd W) as [? ?]
  end.
  cbn [fst snd] in Hf. subst. simp_run.
  split; [reflexivity|]. apply last_last.
Qed.

(** C2 (as amended).  With the four stage outputs on disk, and probing
    and writing the concat list not removing them, a run of
    [trim_and_resize_video] starts no ffmpeg process, whatever the
    collaborators answer, and returns [True] or [None]; when the
    directory can be made, both ffprobe calls answer with two integers
    and the concat list can be written, it returns [True] (the same value
    as a successful first run, not a path) after exactly four external
    calls: makedirs, two ffprobe runs and the rewriting of the concat
    list. *)
Theorem rerun_skips_transcoding (E : Env) (w : World)
    (input_path title outro_path : string) (duration : Z)
    (watermark_path : option string) (overwrite : bool) :
  outputs_present title (files w) ->
  (forall p w', outputs_present title (files w') ->
                outputs_present title (snd (run_process E (cmd_probe p) w'))) ->
  (forall p c w', outputs_present title (files w') ->
                  outputs_present title (snd (write_file E p c w'))) ->
  (exists added,
     flag_or_none (fst (trim_and_resize_video E input_path title outro_path
                          duration watermark_path overwrite w))
     /\ since (calls w)
          (calls (snd (trim_and_resize_video E input_path title outro_path
                         duration watermark_path overwrite w))) added
     /\ forallb not_transcoding added = true
     /\ outputs_present title
          (files (snd (trim_and_resize_video E input_path title outro_path
                         duration watermark_path overwrite w))))
  /\ ((forall w', makedirs E output_dir w' = Ret tt) ->
      (forall p w', exists out dims,
          fst (run_process E (cmd_probe p) w') = Ret out
          /\ parse_dimensions out = Ret dims) ->
      (forall p c w', fst (write_file E p c w') = Ret tt) ->
      exists w',
        trim_and_resize_video E input_path title outro_path duration
          watermark_path overwrite w = (Ret (PyBool true), w')
        /\ since (calls w) (calls w')
             [Makedirs output_dir;
              Subprocess (cmd_probe (blurry_bg_path title));
              Subprocess (cmd_probe (trimmed_main_path title));
              WriteFile concat_file (concat_list title outro_path)]
        /\ console w' = console w).
Proof.
  intros Hw Hprobe Hwrite. split.
  - destruct (rerun_quiet E title Hprobe Hwrite input_path outro_path duration
                watermark_path overwrite w Hw) as (added & H1 & H2 & H3 & H4).
    exists added. auto.
  - intros Hmk Hok Hwr.
    apply (rerun_succeeds E title Hprobe Hwrite); assumption.
Qed.

Definition studio : Env := Samples.sample_env 300 (1920, 1080) Samples.tools_work.
Definition sample_title : string := "24 Modern Ui".
Definition sample_input : string := merged_path studio sample_title.

(** The disk after a first run: the four stage outputs are there. *)
Definition finished_world : World := Samples.world_with (stage_outputs sample_title).

Lemma studio_probe_keeps p w' :
  outputs_present sample_title (files w') ->
  outputs_present sample_title (snd (run_process studio (cmd_probe p) w')).
Proof.
  unfold outputs_present. cbn. intros H.
  etrans; [exact H|apply union_subseteq_l].
Qed.

Lemma studio_write_keeps p c w' :
  outputs_present sample_title (files w') ->
  outputs_present sample_title (snd (write_file studio p c w')).
Proof.
  unfold outputs_present. cbn. intros H.
  etrans; [exact H|apply union_subseteq_l].
Qed.

Lemma rerun_skips_transcoding_witness :
  (exists added,
     flag_or_none (fst (trim_and_resize_video studio sample_input sample_title
                          (outro studio) 55 None false finished_world))
     /\ since (calls finished_world)
          (calls (snd (trim_and_resize_video studio sample_input sample_title
                         (outro studio) 55 None false finished_world))) added
     /\ forallb not_transcoding added = true
     /\ outputs_present sample_title
          (files (snd (trim_and_resize_video studio sample_input sample_title
                         (outro studio) 55 None false finished_world))))
  /\ (exists w',
        trim_and_resize_video studio sample_input sample_title (outro studio)
          55 None false finished_world = (Ret (PyBool true), w')
        /\ since (calls finished_world) (calls w')
             [Makedirs output_dir;
              Subprocess (cmd_probe (blurry_bg_path sample_title));
              Subprocess (cmd_probe (trimmed_main_path sample_title));
              WriteFile concat_file (concat_list sample_title (outro studio))]
        /\ console w' = console finished_world).
Proof.
  assert (outputs_present sample_title (files finished_world)) as Hw
    by (unfold outputs_present; reflexivity).
  destruct (rerun_skips_transcoding studio finished_world sample_input
              sample_title (outro studio) 55 None false Hw
              studio_probe_keeps studio_write_keeps) as [H1 H2].
  split; [exact H1|]. apply H2.
  - intros w'. reflexivity.
  - intros p w'. exists Samples.probe_output, (720, 1280).
    split; reflexivity.
  - intros p c w'. reflexivity.
Defined.

(** C2 (as stated) fails on its last part: with all four outputs on disk
    the run returns [True], which is not the output path. *)
Lemma rerun_returns_no_path :
  outputs_present sample_title (files finished_world)
  /\ fst (trim_and_resize_video studio sample_input sample_title (outro studio)
            55 None false finished_world)
     <> Ret (PyStr (concat_output_path sample_title)).
Proof.
  split; [unfold outputs_present; reflexivity|].
  destruct rerun_skips_transcoding_witness as [_ (w' & H & _)].
  rewrite H. cbn [fst]. discriminate.
Qed.

End CompositorFacts.

(** ** The compositor of the moviepy variant *)

Module MoviepyFacts.
Import Rt Clip Moviepy Logic.

Definition none_or_raise (r : outcome pyval) : Prop :=
  r = Ret PyNone \/ exists e, r = Raise e.

Ltac total_step :=
  lazymatch goal with
  | |- behaves _ _ _ (open_video _ _) => unfold open_video
  | |- behaves _ _ _ (lift _) => unfold lift
  | _ => CompositorFacts.hoare_step ltac:(intros; exact I)
  end.

(** The moviepy variant never raises and returns [None] on every path,
    the successful ones included. *)
Lemma trim_returns_none (E : Env) input_path title outro_path duration
    watermark_path :
  behaves CompositorFacts.any_files CompositorFacts.any_call
    (fun r => r = Ret PyNone)
    (trim_and_resize_video E input_path title outro_path duration
       watermark_path).
Proof.
  unfold trim_and_resize_video.
  eapply behaves_try with (Rm := none_or_raise).
  - repeat total_step.
    all: first [exact I | left; reflexivity | right; eexists; reflexivity].
  - intros a [H|[e H]]; [exact H|discriminate].
  - intros e _ _. unfold mbind, M_bind.
    eapply behaves_bind with (Rm := fun r => r = Ret tt);
      [apply behaves_logging; reflexivity|intros ? _|intros ? [=]].
    now apply behaves_ret.
  - intros e _ [=].
Qed.

Lemma append_assoc (a b c : string) : (a ++ b) ++ c = a ++ (b ++ c).
Proof.
  induction a as [|x a IH]; [reflexivity|].
  change (String x ((a ++ b) ++ c) = String x (a ++ (b ++ c))).
  f_equal. exact IH.
Qed.

(** Whatever the directory, a joined path ends the way its last component
    does. *)
Lemma path_join_suffix (a b : string) :
  exists prefix, path_join a b = prefix ++ b.
Proof.
  unfold path_join.
  destruct (PyStr.startswith "/" b); [exists EmptyString; reflexivity|].
  destruct (String.eqb a EmptyString || PyStr.endswith "/" a).
  - exists a. reflexivity.
  - exists (a ++ "/"). symmetry. apply append_assoc.
Qed.

Lemma short_path_suffix (E : Env) (title : string) :
  PyStr.endswith "_short.mp4" (short_path E title) = true
  /\ PyStr.endswith "_short_with_outro.mp4" (short_path E title) = false.
Proof.
  unfold short_path.
  destruct (path_join_suffix (SHORTIFIED_VIDEOS_DIR E)
              (sanitize_filename title ++ "_short.mp4")) as [prefix ->].
  rewrite <- append_assoc. split.
  - apply TitleFacts.endswith_app.
  - unfold PyStr.endswith. rewrite TitleFacts.chars_app, rev_app_distr.
    reflexivity.
Qed.

Lemma outro_path_suffix (E : Env) (title : string) :
  PyStr.endswith "_short_with_outro.mp4" (short_with_outro_path E title) = true.
Proof.
  unfold short_with_outro_path.
  destruct (path_join_suffix (SHORTIFIED_VIDEOS_DIR E)
              (sanitize_filename title ++ "_short_with_outro.mp4")) as [prefix ->].
  rewrite <- append_assoc. apply TitleFacts.endswith_app.
Qed.

(** C10.  For a source narrower than 360 or lower than 640 pixels, with
    the three clips loading and the file written, the moviepy variant
    makes exactly four external calls: the three loads and one
    [write_videofile] of the trimmed source clip itself (no blur, no
    banner, no watermark, no outro, no bitrate option), to the path
    ending in [_short.mp4], which differs from the [_short_with_outro.mp4]
    path of the composed output; it logs a warning that shows the size as
    the tuple it is after [subclip], and returns [None]. *)
Theorem small_source_written_as_is (E : Env) (w : World)
    (input_path title outro_path : string) (duration : Z)
    (watermark_path : option string) (info outro_info : video_info) :
  (forall w', load_video E input_path w' = Ret info) ->
  (forall w', load_video E outro_path w' = Ret outro_info) ->
  (forall c p o w', fst (write_video E c p o w') = Ret tt) ->
  fst (v_size info) < 360 \/ snd (v_size info) < 640 ->
  exists w',
    trim_and_resize_video E input_path title outro_path duration
      watermark_path w = (Ret PyNone, w')
    /\ since (calls w) (calls w')
         [LoadVideo input_path; LoadVideo input_path; LoadVideo outro_path;
          WriteVideo (Subclip (VideoFileClip input_path (v_size info)) 0 duration)
                     (short_path E title) {| bitrate := None |}]
    /\ since (log w) (log w')
         [(WARNING, "Original video resolution " ++ tuple_repr (v_size info)
                    ++ " is too small. Skipping resizing.");
          (INFO, "Video processed and saved as " ++ short_path E title ++ ".")]
    /\ PyStr.endswith "_short.mp4" (short_path E title) = true
    /\ PyStr.endswith "_short_with_outro.mp4" (short_path E title) = false
    /\ short_path E title <> short_with_outro_path E title.
Proof.
  intros Hload Hload_outro Hwrite Hsmall.
  assert (too_small (v_size info) = true) as Hs.
  { unfold too_small, min_resolution. cbn [fst snd].
    apply orb_true_iff. destruct Hsmall; [left|right]; apply Z.ltb_lt; lia. }
  destruct (short_path_suffix E title) as [Hend Hnot].
  unfold trim_and_resize_video, open_video.
  unfold mbind, M_bind, bind, try_except, external, external_fs, logging,
    print, path_exists, ret, raise, any_exception, add_call, set_files.
  cbn [files log console calls fst snd].
  rewrite !Hload, Hload_outro.
  cbv beta iota. cbn [files log console calls fst snd clip_size].
  rewrite Hs. cbv beta iota. cbn [files log console calls fst snd].
  match goal with |- context [write_video E ?c ?p ?o ?W] =>
    pose proof (Hwrite c p o W) as Ho;
    destruct (write_video E c p o W) as [r fs]
  end.
  cbn [fst snd] in Ho. subst r. cbv beta iota.
  cbn [files log console calls fst snd].
  eexists. split; [reflexivity|]. cbn [calls log].
  unfold since. rewrite <- !app_assoc.
  repeat split; auto.
  intros Heq. rewrite Heq, outro_path_suffix in Hnot. discriminate.
Qed.

Definition phone_clip : Env := Samples.sample_env 300 (320, 568) Samples.tools_work.

Lemma small_source_written_as_is_witness :
  exists w',
    trim_and_resize_video phone_clip "in.mp4" "My: Title?" "outro.mp4" 55
      (Some "logo.png") Samples.empty_world = (Ret PyNone, w')
    /\ since (calls Samples.empty_world) (calls w')
         [LoadVideo "in.mp4"; LoadVideo "in.mp4"; LoadVideo "outro.mp4";
          WriteVideo (Subclip (VideoFileClip "in.mp4" (320, 568)) 0 55)
                     (short_path phone_clip "My: Title?") {| bitrate := None |}]
    /\ since (log Samples.empty_world) (log w')
         [(WARNING, "Original video resolution (320, 568) is too small. Skipping resizing.");
          (INFO, "Video processed and saved as "
                 ++ short_path phone_clip "My: Title?" ++ ".")]
    /\ PyStr.endswith "_short.mp4" (short_path phone_clip "My: Title?") = true
    /\ PyStr.endswith "_short_with_outro.mp4"
         (short_path phone_clip "My: Title?") = false
    /\ short_path phone_clip "My: Title?"
       <> short_with_outro_path phone_clip "My: Title?".
Proof.
  apply (small_source_written_as_is phone_clip Samples.empty_world
           "in.mp4" "My: Title?" "outro.mp4" 55 (Some "logo.png")
           {| v_size := (320, 568); v_duration := "183.41" |}
           {| v_size := (320, 568); v_duration := "183.41" |}).
  - intros w'. reflexivity.
  - intros w'. reflexivity.
  - intros c p o w'. reflexivity.
  - left. cbn. lia.
Defined.

End MoviepyFacts.

(** ** What the compositor returns (C3) *)

Module ResultFacts.
Import Rt Logic.

(** *** What a run reports *)

(** The entries of the log that report a failure, and the line the third
    stage prints when it fails. *)
Definition is_error (entry : level * string) : bool :=
  match fst entry with
  | ERROR => true
  | _ => false
  end.

Definition failure_logged (added : list (level * string)) : bool :=
  existsb is_error added.

Definition combination_failed (printed : list string) : bool :=
  existsb (PyStr.startswith "Final video combination failed.") printed.

(** [reports Q m]: [Q] relates the outcome of [m] to whether the run of
    [m] has reported a failure, in the log or on the console. *)
Definition reports {A} (Q : outcome A -> bool -> Prop) (m : M A) : Prop :=
  forall w, exists lg out,
    since (log w) (log (snd (m w))) lg
    /\ since (console w) (console (snd (m w))) out
    /\ Q (fst (m w)) (failure_logged lg || combination_failed out).

(** Nothing has been reported. *)
Definition quiet {A} (r : outcome A) (b : bool) : Prop := b = false.

(** A normal return means that nothing has been reported. *)
Definition clean {A} (r : outcome A) (b : bool) : Prop :=
  match r with
  | Ret _ => b = false
  | Raise _ => True
  end.

(** A gated stage goes on exactly when it has reported nothing. *)
Definition gate (r : outcome bool) (b : bool) : Prop :=
  match r with
  | Ret go => b = negb go
  | Raise _ => True
  end.

Section Reports.
Context {A B : Type}.

Lemma since_nil {X} (l : list X) : since l l [].
Proof. unfold since. now rewrite app_nil_r. Qed.

Lemma since_app {X} (l1 l2 l3 a b : list X) :
  since l1 l2 a -> since l2 l3 b -> since l1 l3 (a ++ b)%list.
Proof. unfold since. intros -> ->. now rewrite app_assoc. Qed.

Lemma reported_app lg lg' out out' :
  failure_logged (lg ++ lg') || combination_failed (out ++ out')
  = (failure_logged lg || combination_failed out)
    || (failure_logged lg' || combination_failed out').
Proof.
  unfold failure_logged, combination_failed. rewrite !existsb_app.
  destruct (existsb is_error lg), (existsb is_error lg'),
    (existsb _ out), (existsb _ out'); reflexivity.
Qed.

Lemma reports_ret (Q : outcome A -> bool -> Prop) (a : A) :
  Q (Ret a) false -> reports Q (ret a).
Proof. intros H w. exists [], []. cbn. auto using since_nil. Qed.

Lemma reports_raise (Q : outcome A -> bool -> Prop) (e : exn) :
  Q (Raise e) false -> reports Q (raise e).
Proof. intros H w. exists [], []. cbn. auto using since_nil. Qed.

Lemma reports_bind (Qm : outcome A -> bool -> Prop)
    (Q : outcome B -> bool -> Prop) (m : M A) (k : A -> M B) :
  reports Qm m ->
  (forall a b, Qm (Ret a) b -> reports (fun r b' => Q r (b || b')) (k a)) ->
  (forall e b, Qm (Raise e) b -> Q (Raise e) b) ->
  reports Q (bind m k).
Proof.
  intros Hm Hk He w. unfold bind.
  destruct (Hm w) as (lg & out & H1 & H2 & H3).
  destruct (m w) as [[a|e] w']; cbn [fst snd] in *.
  - destruct (Hk a _ H3 w') as (lg' & out' & H1' & H2' & H3').
    exists (lg ++ lg')%list, (out ++ out')%list.
    split; [eapply since_app; eauto|]. split; [eapply since_app; eauto|].
    rewrite reported_app. exact H3'.
  - exists lg, out. auto.
Qed.

Lemma reports_try (Qm Q : outcome A -> bool -> Prop) (m : M A)
    (catches : exn -> bool) (h : exn -> M A) :
  reports Qm m ->
  (forall a b, Qm (Ret a) b -> Q (Ret a) b) ->
  (forall e b, Qm (Raise e) b -> catches e = true ->
               reports (fun r b' => Q r (b || b')) (h e)) ->
  (forall e b, Qm (Raise e) b -> catches e = false -> Q (Raise e) b) ->
  reports Q (try_except m catches h).
Proof.
  intros Hm Hr Hc Hn w. unfold try_except.
  destruct (Hm w) as (lg & out & H1 & H2 & H3).
  destruct (m w) as [[a|e] w']; cbn [fst snd] in *.
  - exists lg, out. auto.
  - destruct (catches e) eqn:E.
    + destruct (Hc e _ H3 E w') as (lg' & out' & H1' & H2' & H3').
      exists (lg ++ lg')%list, (out ++ out')%list.
      split; [eapply since_app; eauto|]. split; [eapply since_app; eauto|].
      rewrite reported_app. exact H3'.
    + exists lg, out. cbn [fst snd]. auto.
Qed.

End Reports.

Lemma reports_logging (Q : outcome unit -> bool -> Prop) lvl msg :
  Q (Ret tt) (is_error (lvl, msg)) -> reports Q (logging lvl msg).
Proof.
  intros H w. exists [(lvl, msg)], []. cbn [logging fst snd log console].
  split; [reflexivity|]. split; [apply since_nil|].
  unfold failure_logged, combination_failed. cbn [existsb].
  now rewrite !orb_false_r.
Qed.

Lemma reports_print (Q : outcome unit -> bool -> Prop) msg :
  Q (Ret tt) (PyStr.startswith "Final video combination failed." msg) ->
  reports Q (print msg).
Proof.
  intros H w. exists [], [msg]. cbn [print fst snd log console].
  split; [apply since_nil|]. split; [reflexivity|].
  unfold failure_logged, combination_failed. cbn [existsb].
  now rewrite orb_false_r.
Qed.

Lemma reports_path_exists (Q : outcome bool -> bool -> Prop) path :
  (forall b, Q (Ret b) false) -> reports Q (path_exists path).
Proof. intros H w. exists [], []. cbn. auto using since_nil. Qed.

Lemma reports_external {A} (Q : outcome A -> bool -> Prop) c oracle :
  (forall r, Q r false) -> reports Q (external c oracle).
Proof. intros H w. exists [], []. cbn. auto using since_nil. Qed.

Lemma reports_external_fs {A} (Q : outcome A -> bool -> Prop) c
    (oracle : World -> outcome A * gset string) :
  (forall r, Q r false) -> reports Q (external_fs c oracle).
Proof.
  intros H w. exists [], []. unfold external_fs.
  destruct (oracle w) as [r fs]. cbn. auto using since_nil.
Qed.

Section Stages.
Variable E : Env.

(** The body of a stage: nothing is reported, and a normal return gives
    [true]. *)
Definition ran (r : outcome bool) (b : bool) : Prop :=
  b = false /\ forall a, r = Ret a -> a = true.

Lemma stage_body cmd on_success :
  reports quiet on_success ->
  reports ran
    (bind (external_fs (Subprocess cmd) (run_process E cmd))
          (fun _ : string => bind on_success (fun _ : unit => ret true))).
Proof.
  intros Hs.
  eapply reports_bind with (Qm := quiet);
    [apply reports_external_fs; intros; reflexivity
    |intros ? ? ->|intros ? ? ->; split; [reflexivity|discriminate]].
  eapply reports_bind with (Qm := quiet);
    [exact Hs|intros ? ? ->|intros ? ? ->; split; [reflexivity|discriminate]].
  apply reports_ret. split; [reflexivity|]. intros go [= <-]. reflexivity.
Qed.

(** A stage that stops the function reports its failure; one that was
    skipped or has run reports nothing. *)
Lemma stage_gate path cmd on_success on_failure :
  reports quiet on_success ->
  (forall e, reports (fun r b => r = Ret tt /\ b = true) (on_failure e)) ->
  reports gate (Ffmpeg.stage E path cmd on_success on_failure true).
Proof.
  intros Hs Hf. unfold Ffmpeg.stage, mbind, M_bind.
  eapply reports_bind with (Qm := quiet);
    [apply reports_path_exists; intros; reflexivity
    |intros present b ->|intros e b _; exact I].
  destruct present; [apply reports_ret; reflexivity|].
  eapply reports_try with (Qm := ran).
  - apply stage_body, Hs.
  - intros a b [-> Ha]. now rewrite (Ha a eq_refl).
  - intros e b [-> _] _. unfold mbind, M_bind.
    eapply reports_bind with (Qm := fun r b => r = Ret tt /\ b = true);
      [apply Hf|intros ? ? [_ ->]|intros ? ? [[=] _]].
    apply reports_ret. reflexivity.
  - intros e b _ _. exact I.
Qed.

(** The last stage never stops the function: its failure is printed, and
    is not one of the reports. *)
Lemma stage_clean path cmd on_success on_failure :
  reports quiet on_success ->
  (forall e, reports (fun r b => r = Ret tt /\ b = false) (on_failure e)) ->
  reports clean (Ffmpeg.stage E path cmd on_success on_failure false).
Proof.
  intros Hs Hf. unfold Ffmpeg.stage, mbind, M_bind.
  eapply reports_bind with (Qm := quiet);
    [apply reports_path_exists; intros; reflexivity
    |intros present b ->|intros e b _; exact I].
  destruct present; [apply reports_ret; reflexivity|].
  eapply reports_try with (Qm := ran).
  - apply stage_body, Hs.
  - intros a b [-> _]. reflexivity.
  - intros e b [-> _] _. unfold mbind, M_bind.
    eapply reports_bind with (Qm := fun r b => r = Ret tt /\ b = false);
      [apply Hf|intros ? ? [_ ->]|intros ? ? [[=] _]].
    apply reports_ret. reflexivity.
  - intros e b _ _. exact I.
Qed.

(** Probing reports nothing when it returns. *)
Lemma probe_clean path : reports clean (Ffmpeg.get_video_dimensions E path).
Proof.
  unfold Ffmpeg.get_video_dimensions.
  eapply reports_try with (Qm := clean).
  - unfold mbind, M_bind.
    eapply reports_bind with (Qm := quiet);
      [apply reports_external_fs; intros; reflexivity
      |intros stdout ? ->|intros ? ? _; exact I].
    destruct (Ffmpeg.parse_dimensions stdout);
      [apply reports_ret; reflexivity|apply reports_raise; exact I].
  - intros a b H. exact H.
  - intros e b _ _. unfold mbind, M_bind.
    eapply reports_bind with (Qm := fun _ _ => True);
      [destruct (is_class CalledProcessError e);
       apply reports_logging; exact I
      |intros ? ? _|intros ? ? _; exact I].
    apply reports_raise. exact I.
  - intros e b _ _. exact I.
Qed.

(** What the run returns, against what it has reported. *)
Definition flag_reports (r : outcome pyval) (b : bool) : Prop :=
  (r = Ret (PyBool true) /\ b = false) \/ (r = Ret PyNone /\ b = true).

Definition body_reports (r : outcome pyval) (b : bool) : Prop :=
  flag_reports r b \/ exists e, r = Raise e.

Ltac next_clean tac :=
  eapply reports_bind with (Qm := clean);
  [tac|intros ? ? ->|intros ? ? _; right; eauto].

Ltac next_gate tac :=
  eapply reports_bind with (Qm := gate);
  [tac|intros [|] ? ->; cbn [negb orb]|intros ? ? _; right; eauto].

Lemma trim_reports input_path title outro_path duration watermark_path
    overwrite :
  reports flag_reports
    (Ffmpeg.trim_and_resize_video E input_path title outro_path duration
       watermark_path overwrite).
Proof.
  unfold Ffmpeg.trim_and_resize_video.
  eapply reports_try with (Qm := body_reports).
  - unfold mbind, M_bind.
    next_clean ltac:(apply reports_logging; reflexivity).
    next_clean ltac:(apply reports_external; intros [|]; [reflexivity|exact I]).
    next_clean ltac:(apply reports_logging; reflexivity).
    next_gate ltac:(apply stage_gate;
                    [apply reports_logging; reflexivity
                    |intros e; apply reports_logging; split; reflexivity]);
      [|apply reports_ret; left; right; split; reflexivity].
    next_clean ltac:(apply probe_clean).
    cbv zeta.
    next_clean ltac:(apply reports_logging; reflexivity).
    next_clean ltac:(apply reports_logging; reflexivity).
    next_gate ltac:(apply stage_gate;
                    [apply reports_logging; reflexivity
                    |intros e; apply reports_logging; split; reflexivity]);
      [|apply reports_ret; left; right; split; reflexivity].
    next_clean ltac:(apply probe_clean).
    next_clean ltac:(apply reports_logging; reflexivity).
    next_clean ltac:(destruct (Ffmpeg.break_text title 3 20 3 3);
                     [apply reports_ret; reflexivity
                     |apply reports_raise; exact I]).
    next_gate ltac:(apply stage_gate;
                    [apply reports_print; reflexivity
                    |intros e; apply reports_print; split; reflexivity]);
      [|apply reports_ret; left; right; split; reflexivity].
    next_clean ltac:(apply reports_external_fs; intros [|]; [reflexivity|exact I]).
    next_clean ltac:(apply stage_clean;
                     [apply reports_print; reflexivity
                     |intros e; apply reports_print; split; reflexivity]).
    apply reports_ret. left. left. split; reflexivity.
  - intros a b [H|[e [=]]]. exact H.
  - intros e b _ _. unfold mbind, M_bind.
    eapply reports_bind with (Qm := fun r b => r = Ret tt /\ b = true);
      [apply reports_logging; split; reflexivity
      |intros ? ? [_ ->]|intros ? ? [[=] _]].
    apply reports_ret. right. rewrite orb_true_r. split; reflexivity.
  - intros e b _ [=].
Qed.

End Stages.

(** *** The stops, one by one *)

Section Stops.
Variable E : Env.
Variables input_path title outro_path : string.
Variable duration : Z.
Variable watermark_path : option string.
Variable overwrite : bool.

Definition run : M pyval :=
  Ffmpeg.trim_and_resize_video E input_path title outro_path duration
    watermark_path overwrite.

Hypothesis makedirs_ok : forall w, makedirs E Ffmpeg.output_dir w = Ret tt.

(** ffprobe answers with two integers and leaves the disk alone. *)
Hypothesis probe_ok : forall p w, exists out dims,
  run_process E (Ffmpeg.cmd_probe p) w = (Ret out, files w)
  /\ Ffmpeg.parse_dimensions out = Ret dims.

Ltac probe :=
  match goal with |- context [run_process E (Ffmpeg.cmd_probe ?p) ?W] =>
    let out := fresh "out" in
    let dims := fresh "dims" in
    let Ho := fresh "Ho" in
    let Hd := fresh "Hd" in
    destruct (probe_ok p W) as (out & dims & Ho & Hd);
    rewrite Ho, Hd; CompositorFacts.simp_run
  end.

Ltac found H :=
  rewrite bool_decide_eq_true_2 by exact H; CompositorFacts.simp_run.

Ltac missing H :=
  rewrite bool_decide_eq_false_2 by exact H; CompositorFacts.simp_run.

(** Whatever the first process raises, the run returns [None]: a
    non-zero exit status is caught at the stage, anything else by the
    handler of the function. *)
Lemma first_stage_stops w e :
  Ffmpeg.blurry_bg_path title ∉ files w ->
  (forall w', fst (run_process E
                     (Ffmpeg.cmd_trim_resize_blur input_path title duration) w')
              = Raise e) ->
  fst (run w) = Ret PyNone
  /\ is_error (List.last (log (snd (run w))) (DEBUG, EmptyString)) = true.
Proof.
  intros Hmissing Hfail. unfold run.
  CompositorFacts.unfold_run. CompositorFacts.simp_run.
  rewrite makedirs_ok. CompositorFacts.simp_run. missing Hmissing.
  match goal with |- context [run_process E ?cmd ?W] =>
    pose proof (Hfail W) as Hf; destruct (run_process E cmd W) as [? ?]
  end.
  cbn [fst snd] in Hf. subst. CompositorFacts.simp_run.
  unfold is_class. destruct (exn_class_eqb (exn_cls e) CalledProcessError);
    CompositorFacts.simp_run; (split; [reflexivity|]);
    rewrite last_last; reflexivity.
Qed.

(** With the background on disk and the main video missing, a failing
    second process stops the run. *)
Lemma second_stage_stops w msg :
  Ffmpeg.blurry_bg_path title ∈ files w ->
  Ffmpeg.trimmed_main_path title ∉ files w ->
  (forall bw bh w',
      fst (run_process E (Ffmpeg.cmd_cut input_path title duration bw bh) w')
      = Raise (Exn CalledProcessError msg)) ->
  fst (run w) = Ret PyNone
  /\ List.last (log (snd (run w))) (DEBUG, EmptyString)
     = (ERROR, "Failed to trim main video. Error: " ++ msg).
Proof.
  intros Hbg Hmissing Hfail. unfold run.
  CompositorFacts.unfold_run. CompositorFacts.simp_run.
  rewrite makedirs_ok. CompositorFacts.simp_run. found Hbg. probe.
  missing Hmissing.
  match goal with |- context [run_process E ?cmd ?W] =>
    pose proof (Hfail (fst dims) (snd dims) W) as Hf;
    destruct (run_process E cmd W) as [? ?]
  end.
  cbn [fst snd] in Hf. subst. CompositorFacts.simp_run.
  split; [reflexivity|]. apply last_last.
Qed.

(** With the background and the main video on disk and the combined
    video missing, a failing third process stops the run. *)
Lemma third_stage_stops w msg :
  Ffmpeg.blurry_bg_path title ∈ files w ->
  Ffmpeg.trimmed_main_path title ∈ files w ->
  Ffmpeg.final_output_path title ∉ files w ->
  (forall formatted w',
      fst (run_process E (Ffmpeg.cmd_combine title formatted) w')
      = Raise (Exn CalledProcessError msg)) ->
  fst (run w) = Ret PyNone
  /\ List.last (console (snd (run w))) EmptyString
     = "Final video combination failed. Error: " ++ msg.
Proof.
  intros Hbg Hmain Hmissing Hfail.
  destruct (CompositorFacts.break_text_returns title) as [formatted Hbt].
  unfold run. CompositorFacts.unfold_run. CompositorFacts.simp_run.
  rewrite makedirs_ok, Hbt. CompositorFacts.simp_run. found Hbg. probe.
  found Hmain. probe. missing Hmissing.
  match goal with |- context [run_process E ?cmd ?W] =>
    pose proof (Hfail formatted W) as Hf;
    destruct (run_process E cmd W) as [? ?]
  end.
  cbn [fst snd] in Hf. subst. CompositorFacts.simp_run.
  split; [reflexivity|]. apply last_last.
Qed.

End Stops.

(** An exception of the first external call is caught as well. *)
Lemma no_directory_stops (E : Env) input_path title outro_path duration
    watermark_path overwrite w e :
  (forall w', makedirs E Ffmpeg.output_dir w' = Raise e) ->
  fst (Ffmpeg.trim_and_resize_video E input_path title outro_path duration
         watermark_path overwrite w) = Ret PyNone
  /\ List.last (log (snd (Ffmpeg.trim_and_resize_video E input_path title
                            outro_path duration watermark_path overwrite w)))
               (DEBUG, EmptyString)
     = (ERROR, "Error processing video " ++ title ++ ": " ++ exn_msg e).
Proof.
  intros Hfail. CompositorFacts.unfold_run. CompositorFacts.simp_run.
  rewrite Hfail. CompositorFacts.simp_run.
  split; [reflexivity|]. apply last_last.
Qed.


Definition studio : Env := CompositorFacts.studio.
Definition broken_ffmpeg : Env :=
  Samples.sample_env 300 (1920, 1080) Samples.ffmpeg_fails.

(** The collaborators of [E], with the directory not to be made, or with
    processes that leave the disk alone. *)
Definition with_tools (E : Env)
    (mk : string -> World -> outcome unit)
    (process : list string -> outcome string) : Env :=
  {| SCRIPT_DIR := SCRIPT_DIR E;
     API_KEY := API_KEY E;
     CHANNEL_ID := CHANNEL_ID E;
     api_search := api_search E;
     api_channel := api_channel E;
     http_content := http_content E;
     shuffle := shuffle E;
     yt_new := yt_new E;
     yt_title := yt_title E;
     yt_video_id := yt_video_id E;
     yt_length := yt_length E;
     yt_first_stream := yt_first_stream E;
     stream_download := stream_download E;
     run_process := fun cmd w => (process cmd, files w);
     makedirs := mk;
     write_file := write_file E;
     load_video := load_video E;
     load_image := load_image E;
     render_text := render_text E;
     write_video := write_video E |}.

Definition read_only : Env :=
  with_tools studio
    (fun _ _ => Raise (Exn OSError "[Errno 13] Permission denied: 'output_videos'"))
    Samples.tools_work.

Definition failing_encoder : Env :=
  with_tools studio (fun _ _ => Ret tt) Samples.ffmpeg_fails.

Definition after_background : World :=
  Samples.world_with {[Ffmpeg.blurry_bg_path "24 Modern Ui"]}.

Definition after_main : World :=
  Samples.world_with {[Ffmpeg.blurry_bg_path "24 Modern Ui";
                       Ffmpeg.trimmed_main_path "24 Modern Ui"]}.

Ltac on_disk := refine (bool_decide_unpack _ _); vm_compute; exact I.



End ResultFacts.

(** ** The orchestrators (C7) *)

Module OrchestratorFacts.
Import Rt Logic.

Definition unit_or_raise (r : outcome unit) : Prop :=
  r = Ret tt \/ exists e, r = Raise e.

Ltac total_step :=
  lazymatch goal with
  | |- behaves _ _ _ (Ffmpeg.download_and_merge _ _ _) =>
      unfold Ffmpeg.download_and_merge
  | |- behaves _ _ _ (Ffmpeg.download_video _ _ _) =>
      unfold Ffmpeg.download_video
  | |- behaves _ _ _ (Ffmpeg.merge_video_audio _ _ _ _) =>
      unfold Ffmpeg.merge_video_audio
  | |- behaves _ _ _ (Ffmpeg.fetch_random_video _) =>
      unfold Ffmpeg.fetch_random_video
  | |- behaves _ _ _ (Ffmpeg.trim_and_resize_video _ _ _ _ _ _ _) =>
      eapply behaves_weaken;
      [apply CompositorFacts.trim_flag_or_none|intros ? _]
  | _ => CompositorFacts.hoare_step ltac:(intros; exact I)
  end.

Ltac unit_goal :=
  first [exact I | left; reflexivity | right; eexists; reflexivity].

Lemma main_loop_total (E : Env) (video_urls : list string) :
  behaves CompositorFacts.any_files CompositorFacts.any_call unit_or_raise
    (Ffmpeg.main_loop E video_urls).
Proof.
  induction video_urls as [|url more IH]; cbn [Ffmpeg.main_loop].
  - apply behaves_ret. left. reflexivity.
  - repeat first [exact IH | total_step]. all: unit_goal.
Qed.

(** The orchestrator of the ffmpeg variant never raises: every exception
    of its body is caught and logged. *)
Lemma main_never_raises (E : Env) (w : World) :
  fst (Ffmpeg.main E w) = Ret tt.
Proof.
  assert (behaves CompositorFacts.any_files CompositorFacts.any_call
            (fun r => r = Ret tt) (Ffmpeg.main E)) as H.
  { unfold Ffmpeg.main.
    eapply behaves_try with (Rm := unit_or_raise).
    - unfold mbind, M_bind.
      eapply behaves_bind with (Rm := anything);
        [repeat total_step; exact I|intros ? _|intros ? _; unit_goal].
      repeat first [apply main_loop_total | total_step]. all: unit_goal.
    - intros [] [H|[e H]]; [reflexivity|discriminate].
    - intros e _ _. now apply behaves_logging.
    - intros e _ [=]. }
  destruct (H w I) as (_ & _ & _ & _ & Hr). exact Hr.
Qed.

Definition studio : Env := CompositorFacts.studio.

(** The world in which the channel logo is already on disk. *)
Definition logo_world : World :=
  Samples.world_with {[Moviepy.logo_path studio]}.

Definition missing_argument : exn :=
  Exn TypeError
    "trim_and_resize_video() missing 1 required positional argument: 'outro_path'".

(** C7 does not hold of the moviepy variant.  Every collaborator answers,
    the first candidate is downloaded and merged, the merged file exists;
    [main_flow] then calls [trim_and_resize_video] without its required
    [outro_path], and the [TypeError] leaves [main_flow], which has no
    handler.  Nothing is composed. *)
Theorem main_flow_raises :
  (let r := Moviepy.main_flow studio Samples.empty_world in
   fst r = Raise missing_argument
   /\ bool_decide (Moviepy.merged_path studio (Ffmpeg.watch_url "JK-B-CT34EU")
                     ∈ files (snd r)) = true
   /\ forallb (fun c => match c with WriteVideo _ _ _ => false | _ => true end)
              (calls (snd r)) = true)
  /\ fst (Moviepy.main_flow studio logo_world) = Raise missing_argument.
Proof. split; [split; [|split]|]; vm_compute; reflexivity. Qed.

(** A collaborator of the moviepy variant that finds no stream. *)
Definition without_streams (E : Env) : Env :=
  {| SCRIPT_DIR := SCRIPT_DIR E; API_KEY := API_KEY E; CHANNEL_ID := CHANNEL_ID E;
     api_search := api_search E; api_channel := api_channel E;
     http_content := http_content E; shuffle := shuffle E;
     yt_new := yt_new E; yt_title := yt_title E; yt_video_id := yt_video_id E;
     yt_length := yt_length E;
     yt_first_stream := fun _ _ _ => Ret None;
     stream_download := stream_download E; run_process := run_process E;
     makedirs := makedirs E; write_file := write_file E;
     load_video := load_video E; load_image := load_image E;
     render_text := render_text E; write_video := write_video E |}.

(** When no download succeeds, the loop of the moviepy variant makes its
    five trials, logs the exhaustion once and returns. *)
Example main_flow_exhausts_trials :
  let r := Moviepy.main_flow (without_streams studio) logo_world in
  fst r = Ret tt
  /\ length (List.filter (fun c => match c with HttpGet _ => true | _ => false end)
                         (calls (snd r))) = 5%nat
  /\ List.filter (fun entry => match fst entry with CRITICAL => true | _ => false end)
                 (log (snd r))
     = [(CRITICAL, "Exceeded maximum number of trials. Exiting.")].
Proof. cbv zeta. split; [|split]; vm_compute; reflexivity. Qed.

(** The orchestrator of the ffmpeg variant on the same collaborators
    stops at the first composed candidate. *)
Example main_stops_on_success :
  let r := Ffmpeg.main studio Samples.empty_world in
  fst r = Ret tt
  /\ bool_decide (Ffmpeg.concat_output_path "24 Modern Ui" ∈ files (snd r)) = true.
Proof. cbv zeta. split; vm_compute; reflexivity. Qed.

End OrchestratorFacts.

(** ** File names (C8) *)

Module FilenameFacts.
Import PyStr.

Lemma filter_skip_non_word (l : list ascii) :
  List.filter re_w (skipn (TextWrap.span_len Ffmpeg.non_word l) l)
  = List.filter re_w l.
Proof.
  induction l as [|c l IH]; [reflexivity|].
  cbn [TextWrap.span_len]. unfold Ffmpeg.non_word at 1.
  destruct (re_w c) eqn:E; cbn [negb skipn List.filter].
  - now rewrite E.
  - now rewrite E, IH.
Qed.

(** Deleting the runs of non-word characters leaves the word characters,
    in their order. *)
Lemma re_sub_non_word_filter (l : list ascii) :
  Ffmpeg.re_sub_non_word l = List.filter re_w l.
Proof.
  funelim (Ffmpeg.re_sub_non_word l); [reflexivity|].
  cbn [List.filter]. destruct (re_w c).
  - f_equal. assumption.
  - rewrite H0. apply filter_skip_non_word.
Qed.

Lemma re_sub_invalid_filter (l : list ascii) :
  Moviepy.re_sub_invalid l
  = List.filter (fun c => negb (Moviepy.invalid_char c)) l.
Proof.
  induction l as [|c l IH]; [reflexivity|].
  cbn [Moviepy.re_sub_invalid List.filter].
  destruct (Moviepy.invalid_char c); cbn [negb]; now rewrite IH.
Qed.

(** What the ffmpeg compositor does to a title: blanks and slashes become
    underscores, every other character stays. *)
Definition underscored (c : ascii) : ascii :=
  if Ascii.eqb c " " then "_"%char
  else if Ascii.eqb c "/" then "_"%char else c.

Lemma chars_str (l : list ascii) : chars (str l) = l.
Proof. apply list_ascii_of_string_of_list_ascii. Qed.

Lemma replace_twice (l : list ascii) :
  flat_map (fun c => if Ascii.eqb c "/" then chars "_" else [c])
    (flat_map (fun c => if Ascii.eqb c " " then chars "_" else [c]) l)
  = map underscored l.
Proof.
  induction l as [|c l IH]; [reflexivity|].
  cbn [flat_map map]. rewrite flat_map_app, IH.
  change (underscored c)
    with (if Ascii.eqb c " " then "_"%char
          else if Ascii.eqb c "/" then "_"%char else c).
  destruct (Ascii.eqb c " ") eqn:E1; [reflexivity|].
  cbn [flat_map app]. destruct (Ascii.eqb c "/"); reflexivity.
Qed.

Lemma sanitized_title_chars (title : string) :
  chars (Ffmpeg.sanitized_title title) = map underscored (chars title).
Proof.
  unfold Ffmpeg.sanitized_title, replace_char. rewrite !chars_str.
  apply replace_twice.
Qed.

(** The characters the claim keeps: the alphanumeric ones. *)
Definition alnum_only (title : string) : string :=
  str (List.filter isalnum (chars title)).

Definition no_underscore (title : string) : Prop :=
  existsb (is_char 95) (chars title) = false.

(** Away from the underscore, the word characters are the alphanumeric
    ones. *)
Lemma filter_word_alnum (l : list ascii) :
  existsb (is_char 95) l = false ->
  List.filter re_w l = List.filter isalnum l.
Proof.
  induction l as [|c l IH]; [reflexivity|]. cbn [existsb List.filter].
  intros H. apply orb_false_elim in H as [Hc Hl].
  unfold re_w at 1. rewrite Hc, orb_false_r, (IH Hl). reflexivity.
Qed.

Lemma sanitize_alnum (title : string) :
  no_underscore title -> Ffmpeg.sanitize_filename title = alnum_only title.
Proof.
  intros H. unfold Ffmpeg.sanitize_filename, alnum_only.
  now rewrite re_sub_non_word_filter, filter_word_alnum.
Qed.

(** C8 (as amended).  A download of the ffmpeg variant is named after
    the alphanumeric characters of the title (for a title without an
    underscore), so that two such titles that agree on those characters
    share their download paths.  The compositor of that variant names its
    outputs after the title with blanks and slashes replaced by
    underscores, and the moviepy variant removes only the nine characters
    that are invalid in file names. *)
Theorem filename_rules (E : Rt.Env) (t1 t2 : string) :
  (no_underscore t1 -> Ffmpeg.sanitize_filename t1 = alnum_only t1)
  /\ chars (Ffmpeg.sanitized_title t1) = map underscored (chars t1)
  /\ Moviepy.sanitize_filename t1
     = str (List.filter (fun c => negb (Moviepy.invalid_char c)) (chars t1))
  /\ (no_underscore t1 -> no_underscore t2 ->
      alnum_only t1 = alnum_only t2 ->
      Ffmpeg.sanitize_filename t1 = Ffmpeg.sanitize_filename t2
      /\ Ffmpeg.video_path E t1 = Ffmpeg.video_path E t2
      /\ Ffmpeg.audio_path E t1 = Ffmpeg.audio_path E t2
      /\ Ffmpeg.merged_path E t1 = Ffmpeg.merged_path E t2).
Proof.
  split; [apply sanitize_alnum|]. split; [apply sanitized_title_chars|].
  split; [unfold Moviepy.sanitize_filename; now rewrite re_sub_invalid_filter|].
  intros H1 H2 Heq.
  assert (Ffmpeg.sanitize_filename t1 = Ffmpeg.sanitize_filename t2) as H
    by (rewrite !sanitize_alnum by assumption; exact Heq).
  unfold Ffmpeg.video_path, Ffmpeg.audio_path, Ffmpeg.merged_path,
    Ffmpeg.video_file, Ffmpeg.audio_file.
  rewrite H. auto.
Qed.

Lemma filename_rules_witness :
  Ffmpeg.sanitize_filename "24 Modern Ui: Python!" = "24ModernUiPython"
  /\ Ffmpeg.sanitize_filename "24 Modern Ui: Python!"
     = Ffmpeg.sanitize_filename "24ModernUiPython"
  /\ Ffmpeg.merged_path CompositorFacts.studio "24 Modern Ui: Python!"
     = Ffmpeg.merged_path CompositorFacts.studio "24ModernUiPython".
Proof.
  destruct (filename_rules CompositorFacts.studio "24 Modern Ui: Python!"
              "24ModernUiPython") as (H0 & _ & _ & H).
  split; [rewrite H0 by (vm_compute; reflexivity); vm_compute; reflexivity|].
  assert (alnum_only "24 Modern Ui: Python!" = alnum_only "24ModernUiPython")
    as Heq by (vm_compute; reflexivity).
  assert (no_underscore "24 Modern Ui: Python!") as Hn1
    by (vm_compute; reflexivity).
  assert (no_underscore "24ModernUiPython") as Hn2
    by (vm_compute; reflexivity).
  destruct (H Hn1 Hn2 Heq) as (H1 & _ & _ & H4).
  split; assumption.
Defined.

(** C8 (as stated) fails: titles that agree on their alphanumeric
    characters get different names, for the outputs of the ffmpeg
    compositor (nothing is stripped) and for every file of the moviepy
    variant (a hyphen is kept). *)
Lemma filenames_differ :
  alnum_only "a-b" = alnum_only "ab"
  /\ Ffmpeg.concat_output_path "a-b" <> Ffmpeg.concat_output_path "ab"
  /\ Moviepy.sanitize_filename "a-b" <> Moviepy.sanitize_filename "ab"
  /\ Moviepy.short_with_outro_path CompositorFacts.studio "a-b"
     <> Moviepy.short_with_outro_path CompositorFacts.studio "ab".
Proof.
  split; [reflexivity|]. split; [vm_compute; discriminate|].
  split; vm_compute; discriminate.
Qed.

End FilenameFacts.

(** ** Rounding to a double *)

Module FloatFacts.
Import Float.
Local Open Scope Q_scope.

Lemma pow2_pos e : 0 < pow2 e.
Proof. apply Qpower_0_lt. reflexivity. Qed.

Lemma pow2_add a b : pow2 (a + b) == pow2 a * pow2 b.
Proof. apply Qpower_plus. discriminate. Qed.

Lemma pow2_le a b : (a <= b)%Z -> pow2 a <= pow2 b.
Proof. intros H. apply Qpower_le_compat_l; [exact H|]. discriminate. Qed.

Lemma pow2_lt_inv a b : pow2 a < pow2 b -> (a < b)%Z.
Proof. intros H. eapply Qpower_lt_compat_l_inv; [exact H|]. reflexivity. Qed.

Lemma pow2_inject (n : Z) : (0 <= n)%Z -> pow2 n == inject_Z (2 ^ n).
Proof. intros H. unfold pow2. now rewrite Zpower_Qpower. Qed.

(** *** Rounding to an integer *)

Lemma rne_floor x : rne x = Qfloor x \/ rne x = (Qfloor x + 1)%Z.
Proof.
  unfold rne. destruct (x - inject_Z (Qfloor x) ?= 1 # 2); auto.
  destruct (Z.even (Qfloor x)); auto.
Qed.

Lemma rne_close x :
  x - (1 # 2) <= inject_Z (rne x) <= x + (1 # 2).
Proof.
  pose proof (Qfloor_le x) as Hl. pose proof (Qlt_floor x) as Hu.
  rewrite inject_Z_plus in Hu. change (inject_Z 1) with 1 in Hu.
  assert (inject_Z (Qfloor x + 1) == inject_Z (Qfloor x) + 1) as H1
    by (now rewrite inject_Z_plus).
  unfold rne. destruct (Qcompare_spec (x - inject_Z (Qfloor x)) (1 # 2)) as [E|E|E].
  - destruct (Z.even (Qfloor x)).
    + lra.
    + rewrite H1. lra.
  - lra.
  - rewrite H1. lra.
Qed.

Lemma rne_Z (k : Z) : rne (inject_Z k) = k.
Proof.
  unfold rne. rewrite Qfloor_Z.
  destruct (Qcompare_spec (inject_Z k - inject_Z k) (1 # 2)) as [E|E|E].
  - exfalso. lra.
  - reflexivity.
  - exfalso. lra.
Qed.

Lemma rne_mono x y : x <= y -> (rne x <= rne y)%Z.
Proof.
  intros Hxy.
  pose proof (Qfloor_resp_le x y Hxy) as Hf.
  destruct (Z.eq_dec (Qfloor x) (Qfloor y)) as [Heq|Hne].
  - unfold rne. rewrite <- Heq.
    destruct (Qcompare_spec (x - inject_Z (Qfloor x)) (1 # 2)) as [Ex|Ex|Ex];
      destruct (Qcompare_spec (y - inject_Z (Qfloor x)) (1 # 2)) as [Ey|Ey|Ey];
      try (destruct (Z.even (Qfloor x))); try lia; exfalso; lra.
  - destruct (rne_floor x) as [-> | ->], (rne_floor y) as [-> | ->]; lia.
Qed.

(** *** The binade of a positive rational *)

Lemma exponent_spec q : 0 < q ->
  pow2 (exponent q + 52) <= q /\ q < pow2 (exponent q + 53).
Proof.
  intros Hq. destruct q as [n d].
  assert (0 < n)%Z as Hn by (unfold Qlt in Hq; cbn in Hq; lia).
  unfold exponent. cbn [Qnum Qden].
  set (ln := Z.log2 n). set (ld := Z.log2 (Z.pos d)).
  set (e0 := (ln - ld - 53)%Z).
  destruct (Z.log2_spec n Hn) as [Hn1 Hn2].
  destruct (Z.log2_spec (Z.pos d) ltac:(lia)) as [Hd1 Hd2].
  fold ln in Hn1, Hn2. fold ld in Hd1, Hd2.
  assert (0 <= ln)%Z as Hln by apply Z.log2_nonneg.
  assert (0 <= ld)%Z as Hld by apply Z.log2_nonneg.
  set (N := inject_Z n). set (D := inject_Z (Z.pos d)).
  assert (n # d == N / D) as Hq' by apply Qmake_Qdiv.
  assert (0 < D) as HD by (unfold D, Qlt; cbn; lia).
  assert (pow2 ln <= N) as HN1.
  { rewrite pow2_inject by lia. unfold N. rewrite <- Zle_Qle. exact Hn1. }
  assert (N < pow2 (ln + 1)) as HN2.
  { rewrite pow2_inject by lia. unfold N. rewrite <- Zlt_Qlt.
    replace (ln + 1)%Z with (Z.succ ln) by lia. exact Hn2. }
  assert (pow2 ld <= D) as HD1.
  { rewrite pow2_inject by lia. unfold D. rewrite <- Zle_Qle. exact Hd1. }
  assert (D < pow2 (ld + 1)) as HD2.
  { rewrite pow2_inject by lia. unfold D. rewrite <- Zlt_Qlt.
    replace (ld + 1)%Z with (Z.succ ld) by lia. exact Hd2. }
  assert (pow2 (e0 + 52) < N / D) as HA.
  { apply Qlt_shift_div_l; [exact HD|].
    assert (pow2 (e0 + 52) * pow2 (ld + 1) == pow2 ln) as Hp
      by (rewrite <- pow2_add; unfold e0; f_equiv; lia).
    pose proof (pow2_pos (e0 + 52)). nra. }
  assert (N / D < pow2 (e0 + 54)) as HB.
  { apply Qlt_shift_div_r; [exact HD|].
    assert (pow2 (e0 + 54) * pow2 ld == pow2 (ln + 1)) as Hp
      by (rewrite <- pow2_add; unfold e0; f_equiv; lia).
    pose proof (pow2_pos (e0 + 54)). nra. }
  destruct (Qle_bool (pow2 (e0 + 53)) (n # d)) eqn:E.
  - apply Qle_bool_iff in E. rewrite Hq' in *.
    replace (e0 + 1 + 52)%Z with (e0 + 53)%Z by lia.
    replace (e0 + 1 + 53)%Z with (e0 + 54)%Z by lia. split; [exact E|exact HB].
  - assert (~ pow2 (e0 + 53) <= n # d) as E'.
    { intros H. apply Qle_bool_iff in H. congruence. }
    rewrite Hq' in *.
    split; [apply Qlt_le_weak; exact HA|]. apply Qnot_le_lt. exact E'.
Qed.

(** *** Rounding a positive rational to 53 bits *)

Definition eps : Q := 1 # 9007199254740992.   (* 2^-53 *)

Lemma pow2_52 : pow2 52 == 4503599627370496.
Proof. reflexivity. Qed.

Lemma pow2_53 : pow2 53 == 9007199254740992.
Proof. reflexivity. Qed.

Lemma round_pos_eq q :
  round_pos q == inject_Z (rne (q / pow2 (exponent q))) * pow2 (exponent q).
Proof. unfold round_pos. apply Qred_correct. Qed.

Lemma scaled q e : q / pow2 e * pow2 e == q.
Proof. field. pose proof (pow2_pos e). lra. Qed.

(** The relative error of one rounding is at most [2^-53]. *)
Lemma round_pos_error q : 0 < q ->
  q * (1 - eps) <= round_pos q <= q * (1 + eps).
Proof.
  intros Hq. rewrite round_pos_eq.
  destruct (exponent_spec q Hq) as [Hlo _].
  set (e := exponent q) in *.
  pose proof (pow2_pos e) as HP.
  pose proof (rne_close (q / pow2 e)) as [H1 H2].
  pose proof (scaled q e) as Hs.
  rewrite pow2_add, pow2_52 in Hlo.
  set (P := pow2 e) in *. set (x := q / P) in *.
  set (m := inject_Z (rne x)) in *. unfold eps.
  split; nra.
Qed.

Lemma round_pos_positive q : 0 < q -> 0 < round_pos q.
Proof.
  intros Hq. pose proof (round_pos_error q Hq) as [H _]. unfold eps in H.
  nra.
Qed.

(** Rounding is monotone. *)
Lemma round_pos_mono x y : 0 < x -> x <= y -> round_pos x <= round_pos y.
Proof.
  intros Hx Hxy. assert (0 < y) as Hy by lra.
  rewrite !round_pos_eq.
  destruct (exponent_spec x Hx) as [Hx1 Hx2].
  destruct (exponent_spec y Hy) as [Hy1 Hy2].
  set (ex := exponent x) in *. set (ey := exponent y) in *.
  assert (ex <= ey)%Z as He.
  { assert (pow2 (ex + 52) < pow2 (ey + 53)) as H by lra.
    apply pow2_lt_inv in H. lia. }
  pose proof (pow2_pos ex) as HPx. pose proof (pow2_pos ey) as HPy.
  destruct (Z.eq_dec ex ey) as [Heq|Hne].
  - rewrite <- Heq.
    assert (x / pow2 ex <= y / pow2 ex) as Hd.
    { apply Qmult_le_r with (z := pow2 ex); [exact HPx|].
      rewrite !scaled. exact Hxy. }
    apply rne_mono in Hd. rewrite Zle_Qle in Hd.
    apply Qmult_le_compat_r; [exact Hd|lra].
  - assert (ex + 53 <= ey + 52)%Z as Hlt by lia.
    apply pow2_le in Hlt.
    (* the mantissa of x is at most 2^53, that of y at least 2^52 *)
    assert (x / pow2 ex <= inject_Z (2 ^ 53)) as Hmx.
    { apply Qmult_le_r with (z := pow2 ex); [exact HPx|].
      rewrite scaled. rewrite pow2_add in Hx2.
      rewrite <- pow2_inject by lia. lra. }
    apply rne_mono in Hmx. rewrite rne_Z in Hmx. rewrite Zle_Qle in Hmx.
    assert (inject_Z (2 ^ 52) <= y / pow2 ey) as Hmy.
    { apply Qmult_le_r with (z := pow2 ey); [exact HPy|].
      rewrite scaled. rewrite pow2_add in Hy1.
      rewrite <- pow2_inject by lia. lra. }
    apply rne_mono in Hmy. rewrite rne_Z in Hmy. rewrite Zle_Qle in Hmy.
    rewrite <- !pow2_inject in * by lia.
    rewrite !pow2_add in Hlt.
    set (mx := inject_Z (rne (x / pow2 ex))) in *.
    set (my := inject_Z (rne (y / pow2 ey))) in *.
    apply Qle_trans with (pow2 ex * pow2 53); [nra|].
    apply Qle_trans with (pow2 ey * pow2 52); [exact Hlt|nra].
Qed.

Lemma round53_pos q : 0 < q -> round53 q = round_pos q.
Proof.
  intros Hq. unfold round53.
  destruct (Qcompare_spec q 0) as [E|E|E]; [exfalso; lra|exfalso; lra|reflexivity].
Qed.

End FloatFacts.

(** ** The fit-within arithmetic of the moviepy variant (C6) *)

Module LayoutFacts.
Import Float FloatFacts Moviepy.
Local Open Scope Q_scope.

Lemma py_int_floor x : 0 <= x ->
  inject_Z (py_int x) <= x /\ x < inject_Z (py_int x) + 1.
Proof.
  intros Hx. assert (py_int x = Qfloor x) as ->.
  { destruct x as [n d]. unfold py_int, Qfloor. cbn [Qnum Qden].
    apply Z.quot_div_nonneg; [|lia].
    unfold Qle in Hx. cbn in Hx. lia. }
  split; [apply Qfloor_le|].
  pose proof (Qlt_floor x) as H. rewrite inject_Z_plus in H. exact H.
Qed.

Lemma py_min_cases a b :
  (py_min a b = a /\ a <= b) \/ (py_min a b = b /\ b <= a).
Proof.
  unfold py_min. destruct (Qle_bool a b) eqn:E.
  - left. split; [reflexivity|]. now apply Qle_bool_iff.
  - right. split; [reflexivity|].
    destruct (Qlt_le_dec b a) as [H|H]; [lra|].
    apply Qle_bool_iff in H. congruence.
Qed.

Lemma round_pos_one : round_pos 1 == 1.
Proof. vm_compute. reflexivity. Qed.

Lemma quotient_pos (t n : Z) : (1 <= t)%Z -> (1 <= n)%Z ->
  0 < inject_Z t / inject_Z n.
Proof.
  intros Ht Hn. apply Qlt_shift_div_l.
  - rewrite <- (Zlt_Qlt 0). lia.
  - rewrite Qmult_0_l. rewrite <- (Zlt_Qlt 0). lia.
Qed.

(** One side of the canvas against one side of the source: the rounded
    quotient is at most 1 exactly when the source is at least as large. *)
Lemma side_factor (t n : Z) : (1 <= t)%Z -> (1 <= n)%Z -> (t <= 4096)%Z ->
  let q := round_pos (inject_Z t / inject_Z n) in
  0 < q
  /\ inject_Z n * q <= inject_Z t * (1 + eps)
  /\ inject_Z t * (1 - eps) <= inject_Z n * q
  /\ ((t <= n)%Z -> q <= 1)
  /\ ((n < t)%Z -> 1 < q).
Proof.
  intros Ht Hn Hmax q.
  pose proof (quotient_pos t n Ht Hn) as Hpos.
  pose proof (round_pos_error _ Hpos) as [Hlo Hhi]. fold q in Hlo, Hhi.
  assert (0 < inject_Z n) as HN by (rewrite <- (Zlt_Qlt 0); lia).
  assert (0 < inject_Z t) as HT by (rewrite <- (Zlt_Qlt 0); lia).
  assert (inject_Z n * (inject_Z t / inject_Z n) == inject_Z t) as Hx
    by (field; lra).
  set (N := inject_Z n) in *. set (T := inject_Z t) in *.
  set (x := T / N) in *.
  unfold eps in *.
  split; [nra|]. split; [nra|]. split; [nra|]. split.
  - intros Hle. rewrite <- round_pos_one.
    apply round_pos_mono; [exact Hpos|].
    apply Qle_shift_div_r; [exact HN|].
    unfold T, N. rewrite Qmult_1_l, <- Zle_Qle. exact Hle.
  - intros Hlt.
    assert (T <= inject_Z 4096) as HT4 by (unfold T; rewrite <- Zle_Qle; exact Hmax).
    change (inject_Z 4096) with 4096 in HT4.
    assert (N + 1 <= T) as HNT.
    { unfold N, T. change 1 with (inject_Z 1).
      rewrite <- inject_Z_plus, <- Zle_Qle. lia. }
    nra.
Qed.

Lemma inject_bounds (n lo hi : Z) : (lo <= n <= hi)%Z ->
  inject_Z lo <= inject_Z n <= inject_Z hi.
Proof. intros [H1 H2]. split; rewrite <- Zle_Qle; assumption. Qed.

(** One resized side: [nw = int(w * s)] for a factor [s] with
    [0 < w * s]. *)
Lemma resized_side (n : Z) (s : Q) : 0 < inject_Z n * s ->
  let a := times n s in
  let k := py_int a in
  inject_Z n * s * (1 - eps) <= a <= inject_Z n * s * (1 + eps)
  /\ inject_Z k <= a /\ a < inject_Z k + 1.
Proof.
  intros Hpos a k. unfold k, a, times. rewrite round53_pos by exact Hpos.
  pose proof (round_pos_error _ Hpos) as Herr.
  split; [exact Herr|]. apply py_int_floor.
  pose proof (round_pos_positive _ Hpos). lra.
Qed.

(** C6 (as amended).  For a source of [w] by [h] pixels (both at least 1
    and at most [2^32]) the scale factor [s = min(1080 / w, 1920 / h)] is
    at most 1 exactly when the source is at least as wide or at least as
    high as the canvas.  The resized sides [nw = int(w * s)] and
    [nh = int(h * s)] fit within the canvas and reach it in one dimension
    up to the last pixel.  Each of them is the source side times the one
    factor [s], rounded down to an integer, within the relative error
    [2^-53] of the doubles; so the aspect ratio is kept within rounding,
    [nw * h] and [nh * w] differing by at most one source side.  A source
    smaller than the canvas in both dimensions has a factor above 1 and
    neither of its sides shrinks; any other source has no side that
    grows. *)
Theorem fit_within_canvas (w h : Z) :
  (1 <= w <= 2 ^ 32)%Z -> (1 <= h <= 2 ^ 32)%Z ->
  exists s nw nh,
    scale_factor w h = Ret s
    /\ fit_within w h = Ret (nw, nh)
    /\ (s <= 1 <-> (1080 <= w \/ 1920 <= h)%Z)
    /\ (0 <= nw <= 1080)%Z /\ (0 <= nh <= 1920)%Z
    /\ (1079 <= nw \/ 1919 <= nh)%Z
    /\ (inject_Z w * s * (1 - eps) - 1 < inject_Z nw
        /\ inject_Z nw <= inject_Z w * s * (1 + eps))
    /\ (inject_Z h * s * (1 - eps) - 1 < inject_Z nh
        /\ inject_Z nh <= inject_Z h * s * (1 + eps))
    /\ (- h <= nw * h - nh * w <= w)%Z
    /\ ((w < 1080)%Z -> (h < 1920)%Z -> 1 < s /\ (w <= nw)%Z /\ (h <= nh)%Z)
    /\ ((1080 <= w \/ 1920 <= h)%Z -> (nw <= w)%Z /\ (nh <= h)%Z).
Proof.
  intros Hw Hh.
  assert (scale_factor w h
          = Ret (py_min (round_pos (inject_Z 1080 / inject_Z w))
                        (round_pos (inject_Z 1920 / inject_Z h)))) as Hs.
  { unfold scale_factor, truediv, target_size. cbn [fst snd].
    assert ((w =? 0)%Z = false) as -> by (apply Z.eqb_neq; lia).
    assert ((h =? 0)%Z = false) as -> by (apply Z.eqb_neq; lia).
    rewrite !round53_pos by (apply quotient_pos; lia). reflexivity. }
  destruct (side_factor 1080 w ltac:(lia) ltac:(lia) ltac:(lia))
    as (Hsw0 & Hsw1 & Hsw2 & Hsw3 & Hsw4).
  destruct (side_factor 1920 h ltac:(lia) ltac:(lia) ltac:(lia))
    as (Hsh0 & Hsh1 & Hsh2 & Hsh3 & Hsh4).
  set (sw := round_pos (inject_Z 1080 / inject_Z w)) in *.
  set (sh := round_pos (inject_Z 1920 / inject_Z h)) in *.
  set (s := py_min sw sh) in *.
  pose proof (inject_bounds w 1 (2 ^ 32) Hw) as HW.
  pose proof (inject_bounds h 1 (2 ^ 32) Hh) as HH.
  change (inject_Z 1) with 1 in *.
  change (inject_Z (2 ^ 32)) with 4294967296 in *.
  change (inject_Z 1080) with 1080 in *. change (inject_Z 1920) with 1920 in *.
  set (W := inject_Z w) in *. set (H := inject_Z h) in *.
  assert (0 < s /\ s <= sw /\ s <= sh /\ (s = sw \/ s = sh)) as (Hs0 & Hs1 & Hs2 & Hs3).
  { unfold s. destruct (py_min_cases sw sh) as [[-> Hle]|[-> Hle]];
      repeat split; auto; lra. }
  assert (0 < W * s) as Hws by nra.
  assert (0 < H * s) as Hhs by nra.
  destruct (resized_side w s Hws) as ([Ha1 Ha2] & Ha3 & Ha4).
  destruct (resized_side h s Hhs) as ([Hb1 Hb2] & Hb3 & Hb4).
  fold W in Ha1, Ha2. fold H in Hb1, Hb2.
  set (a := times w s) in *. set (b := times h s) in *.
  set (nw := py_int a) in *. set (nh := py_int b) in *.
  exists s, nw, nh.
  split; [exact Hs|]. split; [unfold fit_within; rewrite Hs; reflexivity|].
  assert (W * s <= 1080 * (1 + eps)) as Hp by nra.
  assert (H * s <= 1920 * (1 + eps)) as Hq by nra.
  assert (s <= 1 <-> (1080 <= w \/ 1920 <= h)%Z) as Hone.
  { split.
    + intros Hle. destruct (Z_lt_le_dec w 1080) as [Hlw|Hlw]; [|auto].
      destruct (Z_lt_le_dec h 1920) as [Hlh|Hlh]; [|auto].
      specialize (Hsw4 Hlw). specialize (Hsh4 Hlh).
      exfalso. destruct Hs3 as [E|E]; rewrite E in Hle; lra.
    + intros [Hge|Hge]; [specialize (Hsw3 Hge)|specialize (Hsh3 Hge)]; lra. }
  unfold eps in *.
  split; [exact Hone|].
  split; [|split; [|split; [|split; [|split; [|split; [|split]]]]]].
  - assert (inject_Z nw < inject_Z 1081) as Hu
      by (change (inject_Z 1081) with 1081; nra).
    assert (inject_Z (-1) < inject_Z nw) as Hl
      by (change (inject_Z (-1)) with (-1 # 1); nra).
    rewrite <- Zlt_Qlt in Hu, Hl. lia.
  - assert (inject_Z nh < inject_Z 1921) as Hu
      by (change (inject_Z 1921) with 1921; nra).
    assert (inject_Z (-1) < inject_Z nh) as Hl
      by (change (inject_Z (-1)) with (-1 # 1); nra).
    rewrite <- Zlt_Qlt in Hu, Hl. lia.
  - destruct Hs3 as [E|E].
    + left. assert (inject_Z 1078 < inject_Z nw) as Hl.
      { change (inject_Z 1078) with 1078. fold nw. rewrite E in *.
        set (p := W * sw) in *. nra. }
      rewrite <- Zlt_Qlt in Hl. lia.
    + right. assert (inject_Z 1918 < inject_Z nh) as Hl.
      { change (inject_Z 1918) with 1918. fold nh. rewrite E in *.
        set (q := H * sh) in *. nra. }
      rewrite <- Zlt_Qlt in Hl. lia.
  - split; lra.
  - split; lra.
  - set (NW := inject_Z nw) in *. set (NH := inject_Z nh) in *.
    set (p := W * s) in *. set (q := H * s) in *.
    assert (p * H == q * W) as Hpq by (unfold p, q; ring).
    assert (0 <= NW) as HNW0.
    { assert (inject_Z (-1) < NW) as Hl
        by (change (inject_Z (-1)) with (-1 # 1); nra).
      unfold NW in *. rewrite <- Zlt_Qlt in Hl.
      change 0 with (inject_Z 0). rewrite <- Zle_Qle. lia. }
    assert (0 <= NH) as HNH0.
    { assert (inject_Z (-1) < NH) as Hl
        by (change (inject_Z (-1)) with (-1 # 1); nra).
      unfold NH in *. rewrite <- Zlt_Qlt in Hl.
      change 0 with (inject_Z 0). rewrite <- Zle_Qle. lia. }
    assert (0 <= H) as HH0 by lra. assert (0 <= W) as HW0 by lra.
    assert (0 < H) as HH1 by lra. assert (0 < W) as HW1 by lra.
    pose proof (Qmult_le_compat_r _ _ H Hp HH0) as HpH.
    pose proof (Qmult_le_compat_r _ _ W Hq HW0) as HqW.
    pose proof (Qmult_le_compat_r _ _ H Ha3 HH0) as H1.
    pose proof (Qmult_le_compat_r _ _ H Ha2 HH0) as H2.
    pose proof (Qmult_le_compat_r _ _ H Ha1 HH0) as H7.
    pose proof (Qmult_lt_compat_r _ _ H HH1 Ha4) as H8.
    pose proof (Qmult_le_compat_r _ _ W Hb3 HW0) as H5.
    pose proof (Qmult_le_compat_r _ _ W Hb2 HW0) as H6.
    pose proof (Qmult_le_compat_r _ _ W Hb1 HW0) as H3.
    pose proof (Qmult_lt_compat_r _ _ W HW1 Hb4) as H4.
    assert (inject_Z (nw * h - nh * w) == NW * H - NH * W) as HX.
    { unfold NW, NH, W, H, Zminus.
      rewrite inject_Z_plus, inject_Z_opp, !inject_Z_mult. ring. }
    assert (inject_Z (nw * h - nh * w) < inject_Z (w + 1)) as Hup.
    { rewrite HX, inject_Z_plus. fold W. change (inject_Z 1) with 1. lra. }
    assert (inject_Z (- h - 1) < inject_Z (nw * h - nh * w)) as Hdn.
    { rewrite HX. unfold Zminus. rewrite inject_Z_plus, !inject_Z_opp. fold H.
      change (inject_Z 1) with 1. lra. }
    rewrite <- Zlt_Qlt in Hup, Hdn. lia.
  - (* a smaller source: the factor is above 1 and no side shrinks *)
    intros Hlw Hlh.
    specialize (Hsw4 Hlw). specialize (Hsh4 Hlh).
    assert (1 < s) as Hs1' by (destruct Hs3 as [E|E]; rewrite E; lra).
    split; [exact Hs1'|].
    assert (W <= 1079) as HW9.
    { unfold W. change 1079 with (inject_Z 1079). rewrite <- Zle_Qle. lia. }
    assert (H <= 1919) as HH9.
    { unfold H. change 1919 with (inject_Z 1919). rewrite <- Zle_Qle. lia. }
    assert (1080 * (1 - (1 # 9007199254740992)) <= 1079 * sw) as Hx1 by nra.
    assert (1920 * (1 - (1 # 9007199254740992)) <= 1919 * sh) as Hx2 by nra.
    assert (1 <= s * (1 - (1 # 9007199254740992))) as Hfac
      by (destruct Hs3 as [E|E]; rewrite E; lra).
    assert (W <= a) as HWa by nra.
    assert (H <= b) as HHb by nra.
    assert (inject_Z w < inject_Z (nw + 1)) as Hl1.
    { rewrite inject_Z_plus. fold W. change (inject_Z 1) with 1. lra. }
    assert (inject_Z h < inject_Z (nh + 1)) as Hl2.
    { rewrite inject_Z_plus. fold H. change (inject_Z 1) with 1. lra. }
    rewrite <- Zlt_Qlt in Hl1, Hl2. lia.
  - (* any other source: no side grows *)
    intros Hbig. apply Hone in Hbig.
    assert (a < W + 1) as HWa by nra.
    assert (b < H + 1) as HHb by nra.
    assert (inject_Z nw < inject_Z (w + 1)) as Hl1.
    { rewrite inject_Z_plus. fold W. change (inject_Z 1) with 1. lra. }
    assert (inject_Z nh < inject_Z (h + 1)) as Hl2.
    { rewrite inject_Z_plus. fold H. change (inject_Z 1) with 1. lra. }
    rewrite <- Zlt_Qlt in Hl1, Hl2. lia.
Qed.

Lemma fit_within_canvas_witness :
  exists s nw nh,
    scale_factor 1920 1080 = Ret s
    /\ fit_within 1920 1080 = Ret (nw, nh)
    /\ (s <= 1 <-> (1080 <= 1920 \/ 1920 <= 1080)%Z)
    /\ (0 <= nw <= 1080)%Z /\ (0 <= nh <= 1920)%Z
    /\ (1079 <= nw \/ 1919 <= nh)%Z
    /\ (inject_Z 1920 * s * (1 - eps) - 1 < inject_Z nw
        /\ inject_Z nw <= inject_Z 1920 * s * (1 + eps))
    /\ (inject_Z 1080 * s * (1 - eps) - 1 < inject_Z nh
        /\ inject_Z nh <= inject_Z 1080 * s * (1 + eps))
    /\ (- 1080 <= nw * 1080 - nh * 1920 <= 1920)%Z
    /\ ((1920 < 1080)%Z -> (1080 < 1920)%Z ->
        1 < s /\ (1920 <= nw)%Z /\ (1080 <= nh)%Z)
    /\ ((1080 <= 1920 \/ 1920 <= 1080)%Z -> (nw <= 1920)%Z /\ (nh <= 1080)%Z).
Proof. apply (fit_within_canvas 1920 1080); lia. Defined.

(** C6 (as stated) fails: a source of 720 by 1280 pixels is smaller than
    the canvas of 1080 by 1920 in both dimensions, is not below the
    minimum resolution, and its scale factor is 3/2. *)
Lemma small_source_scaled_up :
  (720 < 1080)%Z /\ (1280 < 1920)%Z
  /\ too_small (720, 1280)%Z = false
  /\ scale_factor 720 1280 = Ret (3 # 2)
  /\ ~ (3 # 2 <= 1)
  /\ fit_within 720 1280 = Ret (1080, 1920)%Z.
Proof.
  split; [lia|]. split; [lia|]. split; [reflexivity|].
  split; [vm_compute; reflexivity|]. split; [intros H; lra|].
  vm_compute; reflexivity.
Qed.

(** The rounding is visible: for a source of 360 by 703 pixels the exact
    quotient would give a height of 1920, the doubles give 1919. *)
Example fit_within_rounds_down :
  fit_within 360 703 = Ret (983, 1919)%Z
  /\ fit_within 1920 1080 = Ret (1080, 607)%Z.
Proof. split; vm_compute; reflexivity. Qed.

End LayoutFacts.

(** ** What the banner shows of the title *)

Module BannerFacts.
Import PyStr TextWrap Title.
Local Open Scope list_scope.

(** The characters of a text that are not white space, in their order. *)
Definition visible (l : list ascii) : list ascii :=
  List.filter (fun c => negb (isspace c)) l.

(** The characters of the lines of a text. *)
Definition text_of (lines : list string) : list ascii :=
  concat (map chars lines).

Lemma visible_app (a b : list ascii) : visible (a ++ b) = visible a ++ visible b.
Proof. apply List.filter_app. Qed.

Lemma visible_blank (ch : list ascii) : is_blank ch = true -> visible ch = [].
Proof.
  unfold is_blank, visible. induction ch as [|c ch IH]; [reflexivity|].
  cbn [forallb List.filter]. intros H. apply andb_prop in H as [Hc Hch].
  rewrite Hc. cbn [negb]. auto.
Qed.

Lemma is_ws_isspace (c : ascii) : is_ws c = true -> isspace c = true.
Proof.
  unfold is_ws, isspace, in_range, is_char. intros H.
  apply orb_prop in H as [H|H].
  - rewrite H. reflexivity.
  - apply N.eqb_eq in H. rewrite H. reflexivity.
Qed.

Lemma visible_spaces (n : nat) : visible (repeat space n) = [].
Proof. induction n as [|n IH]; [reflexivity|exact IH]. Qed.

Lemma visible_expandtabs (col : nat) (l : list ascii) :
  visible (expandtabs col l) = visible l.
Proof.
  revert col; induction l as [|c l IH]; intros col; [reflexivity|].
  cbn [expandtabs]. destruct (is_char 9 c) eqn:Etab.
  - rewrite visible_app, visible_spaces, IH. cbn [app].
    unfold visible at 2. cbn [List.filter].
    assert (isspace c = true) as ->; [|reflexivity].
    apply is_ws_isspace. unfold is_ws, in_range, is_char in *.
    apply N.eqb_eq in Etab. rewrite Etab. reflexivity.
  - destruct (is_char 10 c || is_char 13 c);
      unfold visible; cbn [List.filter]; fold (visible (expandtabs 0 l));
      fold (visible (expandtabs (S col) l)); fold (visible l);
      rewrite IH; reflexivity.
Qed.

Lemma visible_replace_whitespace (l : list ascii) :
  visible (replace_whitespace l) = visible l.
Proof.
  unfold replace_whitespace, visible.
  induction l as [|c l IH]; [reflexivity|].
  cbn [map List.filter]. rewrite IH.
  destruct (is_ws c) eqn:E; [|reflexivity].
  rewrite (is_ws_isspace c E). reflexivity.
Qed.

Lemma visible_munge (l : list ascii) : visible (munge_whitespace l) = visible l.
Proof.
  unfold munge_whitespace.
  now rewrite visible_replace_whitespace, visible_expandtabs.
Qed.

(** The split loses nothing: the chunks are the text, cut in pieces. *)
Lemma concat_split_loop (prev rest : list ascii) :
  concat (split_loop prev rest) = rest.
Proof.
  funelim (split_loop prev rest); [reflexivity|].
  cbn [concat]. rewrite H. apply firstn_skipn.
Qed.

Lemma concat_drop_empty (l : list (list ascii)) :
  concat (List.filter (fun c => negb (Nat.eqb (length c) 0)) l) = concat l.
Proof.
  induction l as [|c l IH]; [reflexivity|].
  cbn [List.filter concat]. destruct c as [|x c]; cbn [length Nat.eqb negb].
  - exact IH.
  - cbn [concat]. now rewrite IH.
Qed.

Lemma concat_split_chunks (text : list ascii) :
  concat (split_chunks text) = munge_whitespace text.
Proof.
  unfold split_chunks. rewrite concat_drop_empty. apply concat_split_loop.
Qed.

Lemma fill_line_keeps width cur_line cur_len chunks cl n rest :
  fill_line width cur_line cur_len chunks = (cl, n, rest) ->
  cl ++ rest = cur_line ++ chunks.
Proof.
  revert cur_line cur_len; induction chunks as [|ch chunks IH];
    intros cur_line cur_len; cbn [fill_line].
  - intros [= <- <- <-]. reflexivity.
  - destruct (cur_len + len ch <=? width).
    + intros H. apply IH in H. rewrite H, <- app_assoc. reflexivity.
    + intros [= <- <- <-]. reflexivity.
Qed.

Lemma slice_keeps {A} (i : Z) (l : list A) : slice_to i l ++ slice_from i l = l.
Proof. unfold slice_to, slice_from. apply firstn_skipn. Qed.

Lemma long_word_step_keeps width cur_len cur_line chunks :
  concat (fst (long_word_step width cur_len cur_line chunks))
  ++ concat (snd (long_word_step width cur_len cur_line chunks))
  = concat cur_line ++ concat chunks.
Proof.
  destruct chunks as [|ch rest]; cbn [long_word_step fst snd]; [reflexivity|].
  destruct (len ch >? width); [|reflexivity].
  unfold handle_long_word. cbn [fst snd concat].
  rewrite concat_app. cbn [concat]. rewrite app_nil_r, <- app_assoc.
  f_equal. rewrite app_assoc, slice_keeps. reflexivity.
Qed.

Lemma visible_drop_first hl chunks :
  visible (concat (drop_first hl chunks)) = visible (concat chunks).
Proof.
  destruct chunks as [|ch rest]; cbn [drop_first]; [reflexivity|].
  destruct (is_blank ch) eqn:E; cbn [andb]; [|reflexivity].
  destruct hl; [|reflexivity].
  cbn [concat]. now rewrite visible_app, (visible_blank ch E).
Qed.

Lemma visible_drop_last_blank cur_line :
  visible (concat (drop_last_blank cur_line)) = visible (concat cur_line).
Proof.
  unfold drop_last_blank.
  destruct (rev cur_line) as [|last_chunk init] eqn:E; [reflexivity|].
  destruct (is_blank last_chunk) eqn:Eb; [|reflexivity].
  assert (cur_line = rev init ++ [last_chunk]) as ->.
  { rewrite <- (rev_involutive cur_line), E. reflexivity. }
  rewrite concat_app, visible_app. cbn [concat].
  rewrite app_nil_r, (visible_blank _ Eb), app_nil_r. reflexivity.
Qed.

Definition line_chars (line : option string) : list ascii :=
  match line with
  | Some l => chars l
  | None => []
  end.

(** One turn of the loop moves visible characters from the chunks to the
    line, and loses none. *)
Lemma line_step_keeps width hl chunks :
  visible (line_chars (fst (line_step width hl chunks)))
  ++ visible (concat (snd (line_step width hl chunks)))
  = visible (concat chunks).
Proof.
  unfold line_step.
  destruct (fill_line width [] 0 (drop_first hl chunks))
    as [[cur_line cur_len] chunks2] eqn:Hfill.
  apply fill_line_keeps in Hfill. cbn [app] in Hfill.
  pose proof (long_word_step_keeps width cur_len cur_line chunks2) as Hlong.
  destruct (long_word_step width cur_len cur_line chunks2) as [cur_line3 chunks3].
  cbn [fst snd] in *.
  rewrite <- (visible_drop_first hl chunks), <- Hfill, concat_app, <- Hlong.
  rewrite (visible_app (concat cur_line3)),
    <- (visible_drop_last_blank cur_line3).
  f_equal.
  destruct (drop_last_blank cur_line3) as [|c0 cl0]; [reflexivity|].
  cbn [line_chars]. now rewrite FilenameFacts.chars_str.
Qed.

Lemma text_of_append_line lines line :
  text_of (append_line lines line) = text_of lines ++ line_chars line.
Proof.
  unfold text_of. destruct line as [l|]; cbn [append_line line_chars].
  - rewrite map_app, concat_app. cbn [map concat]. now rewrite app_nil_r.
  - now rewrite app_nil_r.
Qed.

Lemma wrap_loop_keeps width lines chunks :
  visible (text_of (wrap_loop width lines chunks))
  = visible (text_of lines) ++ visible (concat chunks).
Proof.
  funelim (wrap_loop width lines chunks).
  - cbn [concat]. now rewrite app_nil_r.
  - rewrite H, text_of_append_line, visible_app, <- app_assoc.
    now rewrite line_step_keeps.
Qed.

(** [textwrap.wrap] keeps every visible character of the text, in order. *)
Lemma wrap_keeps text width raw :
  wrap text width = Some raw -> visible (text_of raw) = visible (chars text).
Proof.
  unfold wrap, wrap_chunks. destruct width as [|w|w]; try discriminate.
  intros [= <-]. rewrite wrap_loop_keeps. cbn [text_of map concat visible
    List.filter app].
  now rewrite concat_split_chunks, visible_munge.
Qed.

Lemma visible_join (lines : list string) :
  visible (chars (join nl lines)) = visible (text_of lines).
Proof.
  unfold text_of. induction lines as [|l lines IH]; [reflexivity|].
  destruct lines as [|l' lines].
  - cbn [join map concat]. now rewrite app_nil_r.
  - change (join nl (l :: l' :: lines))
      with (l ++ nl ++ join nl (l' :: lines))%string.
    change (concat (map chars (l :: l' :: lines)))
      with (chars l ++ concat (map chars (l' :: lines))).
    rewrite !TitleFacts.chars_app, !visible_app, IH. reflexivity.
Qed.

Lemma text_of_app (a b : list string) : text_of (a ++ b) = text_of a ++ text_of b.
Proof. unfold text_of. now rewrite map_app, concat_app. Qed.

Lemma visible_padding (n : nat) : visible (text_of (repeat EmptyString n)) = [].
Proof. induction n as [|n IH]; [reflexivity|exact IH]. Qed.

(** X1.  For [max_lines >= 1] and [line_width >= 1] the banner text of
    both variants shows the visible characters of the title in their
    order: all of them when the raw wrap has at most [max_lines] lines,
    and otherwise a prefix of them followed by the three dots of the
    ellipsis.  Wrapping changes white space only; the padding lines of
    the ffmpeg variant add none. *)
Theorem banner_keeps_title (text : string) (max_lines line_width : Z) :
  1 <= max_lines -> 1 <= line_width ->
  exists raw banner,
    wrap text line_width = Some raw
    /\ Moviepy.break_text text max_lines line_width = Ret banner
    /\ (Z.of_nat (length raw) <= max_lines ->
        visible (chars banner) = visible (chars text))
    /\ (max_lines < Z.of_nat (length raw) ->
        exists shown cut,
          visible (chars text) = shown ++ cut
          /\ visible (chars banner) = shown ++ chars ellipsis)
    /\ (forall top_padding bottom_padding,
          exists padded,
            Ffmpeg.break_text text max_lines line_width top_padding bottom_padding
            = Ret padded
            /\ visible (chars padded) = visible (chars banner)).
Proof.
  intros Hm Hw.
  destruct (TextWrapFacts.wrap_fits text line_width Hw) as (raw & Hraw & _).
  pose proof (wrap_keeps text line_width raw Hraw) as Hkeep.
  assert (exists lines,
            break_lines text max_lines line_width = Ret lines
            /\ (Z.of_nat (length raw) <= max_lines -> lines = raw)
            /\ (max_lines < Z.of_nat (length raw) ->
                exists init last_line,
                  firstn (Z.to_nat max_lines) raw = init ++ [last_line]
                  /\ lines = init ++ [(last_line ++ ellipsis)%string]))
    as (lines & Hb & Hshort & Hlong).
  { unfold break_lines. rewrite Hraw.
    destruct (Z_le_gt_dec (Z.of_nat (length raw)) max_lines) as [Hs|Hl].
    - exists raw. split; [now apply TitleFacts.truncate_short|].
      split; [reflexivity|lia].
    - destruct (TitleFacts.truncate_long max_lines raw Hm ltac:(lia))
        as (init & last_line & Hfirst & Htrunc).
      eexists. split; [exact Htrunc|]. split; [lia|].
      intros _. exists init, last_line. auto. }
  exists raw, (join nl lines).
  split; [exact Hraw|].
  split; [unfold Moviepy.break_text; now rewrite Hb|].
  split; [|split].
  - intros Hs. rewrite (Hshort Hs), visible_join. exact Hkeep.
  - intros Hl. destruct (Hlong Hl) as (init & last_line & Hfirst & ->).
    exists (visible (text_of (init ++ [last_line]))),
           (visible (text_of (skipn (Z.to_nat max_lines) raw))).
    split.
    + rewrite <- Hkeep, <- visible_app, <- text_of_app, <- Hfirst.
      now rewrite firstn_skipn.
    + rewrite visible_join, !text_of_app, !visible_app, <- app_assoc. f_equal.
      unfold text_of. cbn [map concat]. rewrite !app_nil_r.
      rewrite TitleFacts.chars_app, visible_app. reflexivity.
  - intros top_padding bottom_padding. unfold Ffmpeg.break_text. rewrite Hb.
    eexists. split; [reflexivity|].
    rewrite !visible_join, !text_of_app, !visible_app, !visible_padding.
    now rewrite app_nil_r.
Qed.

Lemma banner_keeps_title_witness :
  exists raw banner,
    wrap "24 Modern Ui - Python, PySide6, Pyqt6 Desktop GUI app" 40 = Some raw
    /\ Moviepy.break_text "24 Modern Ui - Python, PySide6, Pyqt6 Desktop GUI app" 1 40
       = Ret banner
    /\ (Z.of_nat (length raw) <= 1 ->
        visible (chars banner)
        = visible (chars "24 Modern Ui - Python, PySide6, Pyqt6 Desktop GUI app"))
    /\ (1 < Z.of_nat (length raw) ->
        exists shown cut,
          visible (chars "24 Modern Ui - Python, PySide6, Pyqt6 Desktop GUI app")
          = shown ++ cut
          /\ visible (chars banner) = shown ++ chars ellipsis)
    /\ (forall top_padding bottom_padding,
          exists padded,
            Ffmpeg.break_text "24 Modern Ui - Python, PySide6, Pyqt6 Desktop GUI app"
              1 40 top_padding bottom_padding = Ret padded
            /\ visible (chars padded) = visible (chars banner)).
Proof.
  apply (banner_keeps_title
           "24 Modern Ui - Python, PySide6, Pyqt6 Desktop GUI app" 1 40); lia.
Defined.

(** *** Titles without visible text, and arguments out of range *)

Lemma blank_no_hyphen (c : ascii) : isspace c = true -> is_hyphen c = false.
Proof.
  intros H. destruct (is_hyphen c) eqn:E; [|reflexivity].
  unfold is_hyphen, is_char in E. apply N.eqb_eq in E.
  unfold isspace, in_range, is_char in H. rewrite E in H. discriminate H.
Qed.

Lemma rfind_aux_blank (l : list ascii) (i best : Z) :
  is_blank l = true -> rfind_aux l i best = best.
Proof.
  revert i best; induction l as [|c l IH]; intros i best; [reflexivity|].
  unfold is_blank. cbn [forallb rfind_aux]. intros H.
  apply andb_prop in H as [Hc Hl]. rewrite (blank_no_hyphen c Hc).
  now apply IH.
Qed.

Lemma is_blank_firstn (n : nat) (l : list ascii) :
  is_blank l = true -> is_blank (firstn n l) = true.
Proof.
  unfold is_blank. revert n; induction l as [|c l IH]; intros [|n];
    cbn [firstn forallb]; auto.
  intros H. apply andb_prop in H as [Hc Hl]. rewrite Hc. cbn [andb]. auto.
Qed.

Lemma is_blank_skipn (n : nat) (l : list ascii) :
  is_blank l = true -> is_blank (skipn n l) = true.
Proof.
  unfold is_blank. revert n; induction l as [|c l IH]; intros [|n];
    cbn [skipn forallb]; auto.
  intros H. apply andb_prop in H as [Hc Hl]. auto.
Qed.

(** One turn of the loop on a single blank chunk, before any line: no
    line is made; a chunk longer than the width loses [width] blanks. *)
Lemma line_step_blank (width : Z) (ch : list ascii) :
  1 <= width -> is_blank ch = true ->
  line_step width false [ch]
  = (None, if len ch >? width then [slice_from width ch] else []).
Proof.
  intros Hw Hb. unfold line_step. cbn [drop_first]. rewrite andb_false_r.
  cbn [fill_line]. rewrite Z.add_0_l.
  destruct (len ch <=? width) eqn:E.
  - cbn [fill_line app long_word_step].
    assert ((len ch >? width) = false) as ->
      by (rewrite Z.gtb_ltb; apply Z.ltb_ge; apply Z.leb_le in E; lia).
    unfold drop_last_blank. cbn [rev app]. rewrite Hb. reflexivity.
  - cbn [long_word_step].
    assert ((len ch >? width) = true) as ->
      by (apply Z.gtb_lt; apply Z.leb_gt in E; lia).
    unfold handle_long_word.
    assert ((width <? 1) = false) as -> by (apply Z.ltb_ge; lia).
    rewrite Z.sub_0_r.
    assert (rfind_hyphen ch width = -1) as ->.
    { unfold rfind_hyphen. apply rfind_aux_blank.
      unfold slice_to. now apply is_blank_firstn. }
    change (-1 >? 0) with false. rewrite andb_false_r. cbn [andb app].
    unfold drop_last_blank. cbn [rev app].
    assert (is_blank (slice_to width ch) = true) as ->
      by (unfold slice_to; now apply is_blank_firstn).
    reflexivity.
Qed.

Lemma wrap_loop_blank (width : positive) (n : nat) (ch : list ascii) :
  (length ch <= n)%nat -> is_blank ch = true -> wrap_loop width [] [ch] = [].
Proof.
  revert ch; induction n as [|n IH]; intros ch Hn Hb;
    rewrite wrap_loop_equation_2; cbn [has_lines];
    rewrite (line_step_blank (Z.pos width) ch ltac:(lia) Hb);
    cbn [fst snd append_line].
  - assert ((len ch >? Z.pos width) = false) as ->
      by (rewrite Z.gtb_ltb; apply Z.ltb_ge; unfold len; lia).
    apply wrap_loop_equation_1.
  - destruct (len ch >? Z.pos width) eqn:E; [|apply wrap_loop_equation_1].
    apply Z.gtb_lt in E. unfold len in E. apply IH.
    + rewrite length_slice_from.
      pose proof (slice_index_pos (length ch) (Z.pos width) ltac:(lia) ltac:(lia)).
      lia.
    + unfold slice_from. now apply is_blank_skipn.
Qed.

Lemma is_ws_expandtabs (col : nat) (l : list ascii) :
  forallb is_ws l = true -> forallb is_ws (expandtabs col l) = true.
Proof.
  revert col; induction l as [|c l IH]; intros col; [reflexivity|].
  cbn [forallb expandtabs]. intros H. apply andb_prop in H as [Hc Hl].
  destruct (is_char 9 c).
  - rewrite forallb_app, (IH _ Hl), andb_true_r.
    apply forallb_forall. intros x Hx. apply repeat_spec in Hx. now subst x.
  - destruct (is_char 10 c || is_char 13 c); cbn [forallb];
      now rewrite Hc, (IH _ Hl).
Qed.

Lemma is_ws_replace_whitespace (l : list ascii) :
  forallb is_ws (replace_whitespace l) = forallb is_ws l.
Proof.
  unfold replace_whitespace. induction l as [|c l IH]; [reflexivity|].
  cbn [map forallb]. rewrite IH. now destruct (is_ws c) eqn:E; rewrite ?E.
Qed.

Lemma span_len_all (p : ascii -> bool) (l : list ascii) :
  forallb p l = true -> span_len p l = length l.
Proof.
  induction l as [|c l IH]; [reflexivity|]. cbn [forallb span_len length].
  intros H. apply andb_prop in H as [-> Hl]. now rewrite IH.
Qed.

(** A text of white space only is one chunk, or none. *)
Lemma split_chunks_blank (l : list ascii) :
  forallb is_ws l = true ->
  split_chunks l = [] \/ exists ch, split_chunks l = [ch] /\ is_blank ch = true.
Proof.
  intros H. unfold split_chunks.
  assert (forallb is_ws (munge_whitespace l) = true) as Hm.
  { unfold munge_whitespace. rewrite is_ws_replace_whitespace.
    now apply is_ws_expandtabs. }
  destruct (munge_whitespace l) as [|c rest]; [left; reflexivity|].
  right. exists (c :: rest). cbn [forallb] in Hm.
  apply andb_prop in Hm as [Hc Hrest].
  rewrite split_loop_equation_2. unfold match_len. rewrite Hc.
  rewrite (span_len_all _ _ Hrest). cbv zeta.
  change (S (length rest)) with (length (c :: rest)).
  rewrite firstn_all, skipn_all. rewrite split_loop_equation_1.
  cbn [List.filter length Nat.eqb negb]. split; [reflexivity|].
  unfold is_blank. cbn [forallb]. rewrite (is_ws_isspace c Hc). cbn [andb].
  apply forallb_forall. intros x Hx.
  apply is_ws_isspace. rewrite forallb_forall in Hrest. now apply Hrest.
Qed.

Lemma wrap_blank (text : string) (width : Z) :
  1 <= width -> forallb is_ws (chars text) = true -> wrap text width = Some [].
Proof.
  intros Hw H. unfold wrap, wrap_chunks. destruct width as [|w|w]; try lia.
  f_equal. destruct (split_chunks_blank _ H) as [->|(ch & -> & Hb)].
  - apply wrap_loop_equation_1.
  - now apply (wrap_loop_blank w (length ch)).
Qed.

(** X2.  A title without any character other than ASCII white space (the
    empty title included) wraps to no line at all: the moviepy variant
    returns the empty string and the ffmpeg variant nothing but its
    padding lines. *)
Theorem blank_title (text : string) (max_lines line_width : Z) :
  forallb is_ws (chars text) = true ->
  0 <= max_lines -> 1 <= line_width ->
  wrap text line_width = Some []
  /\ Moviepy.break_text text max_lines line_width = Ret EmptyString
  /\ (forall top_padding bottom_padding,
        Ffmpeg.break_text text max_lines line_width top_padding bottom_padding
        = Ret (join nl (repeat EmptyString (Z.to_nat top_padding)
                        ++ repeat EmptyString (Z.to_nat bottom_padding)))).
Proof.
  intros Hblank Hm Hw. pose proof (wrap_blank text line_width Hw Hblank) as Hraw.
  assert (break_lines text max_lines line_width = Ret []) as Hb.
  { unfold break_lines. rewrite Hraw. apply TitleFacts.truncate_short.
    cbn [length]. lia. }
  split; [exact Hraw|].
  unfold Moviepy.break_text, Ffmpeg.break_text. rewrite Hb.
  split; reflexivity.
Qed.

Lemma blank_title_witness :
  wrap (str [space; ascii_of_N 9; newline; space]) 20 = Some []
  /\ Moviepy.break_text (str [space; ascii_of_N 9; newline; space]) 3 20
     = Ret EmptyString
  /\ (forall top_padding bottom_padding,
        Ffmpeg.break_text (str [space; ascii_of_N 9; newline; space]) 3 20
          top_padding bottom_padding
        = Ret (join nl (repeat EmptyString (Z.to_nat top_padding)
                        ++ repeat EmptyString (Z.to_nat bottom_padding)))).
Proof.
  apply (blank_title (str [space; ascii_of_N 9; newline; space]) 3 20);
    [reflexivity|lia|lia].
Defined.

Lemma visible_raw (text : string) (width : Z) (raw : list string) :
  wrap text width = Some raw -> visible (chars text) <> [] -> raw <> [].
Proof.
  intros Hraw Hvis ->. apply wrap_keeps in Hraw. apply Hvis.
  rewrite <- Hraw. reflexivity.
Qed.

(** X3.  Arguments out of range.  A [line_width] of zero or less makes
    both variants of [break_text] raise [ValueError], whatever the title.
    With a positive width and [max_lines = 0], a title with a visible
    character makes them raise [IndexError]: the wrap has a line, the
    slice keeps none, and the ellipsis is appended to the last line of an
    empty list. *)
Theorem break_text_bad_arguments (text : string) (max_lines line_width : Z) :
  (line_width <= 0 ->
   (exists msg, Moviepy.break_text text max_lines line_width
                = Raise (Exn ValueError msg))
   /\ (forall top_padding bottom_padding, exists msg,
         Ffmpeg.break_text text max_lines line_width top_padding bottom_padding
         = Raise (Exn ValueError msg)))
  /\ (1 <= line_width -> max_lines = 0 -> visible (chars text) <> [] ->
      (exists msg, Moviepy.break_text text max_lines line_width
                   = Raise (Exn IndexError msg))
      /\ (forall top_padding bottom_padding, exists msg,
            Ffmpeg.break_text text max_lines line_width top_padding bottom_padding
            = Raise (Exn IndexError msg))).
Proof.
  split.
  - intros Hw.
    assert (exists msg, break_lines text max_lines line_width
                        = Raise (Exn ValueError msg)) as [msg Hb].
    { unfold break_lines, wrap, wrap_chunks.
      destruct line_width as [|w|w]; try lia; eauto. }
    unfold Moviepy.break_text, Ffmpeg.break_text. rewrite Hb. eauto.
  - intros Hw -> Hvis.
    destruct (TextWrapFacts.wrap_fits text line_width Hw) as (raw & Hraw & _).
    pose proof (visible_raw text line_width raw Hraw Hvis) as Hne.
    assert (exists msg, break_lines text 0 line_width
                        = Raise (Exn IndexError msg)) as [msg Hb].
    { unfold break_lines. rewrite Hraw. unfold truncate.
      destruct raw as [|l raw]; [contradiction|].
      cbn [length]. 
      assert ((Z.of_nat (S (length raw)) >? 0) = true) as ->
        by (apply Z.gtb_lt; lia).
      unfold slice_to, slice_index. cbn. eauto. }
    unfold Moviepy.break_text, Ffmpeg.break_text. rewrite Hb. eauto.
Qed.

Lemma break_text_bad_arguments_witness :
  ((exists msg, Moviepy.break_text "24 Modern Ui" 3 0 = Raise (Exn ValueError msg))
   /\ (forall top_padding bottom_padding, exists msg,
         Ffmpeg.break_text "24 Modern Ui" 3 0 top_padding bottom_padding
         = Raise (Exn ValueError msg)))
  /\ ((exists msg, Moviepy.break_text "24 Modern Ui" 0 40
                   = Raise (Exn IndexError msg))
      /\ (forall top_padding bottom_padding, exists msg,
            Ffmpeg.break_text "24 Modern Ui" 0 40 top_padding bottom_padding
            = Raise (Exn IndexError msg))).
Proof.
  split.
  - apply (proj1 (break_text_bad_arguments "24 Modern Ui" 3 0)). lia.
  - apply (proj2 (break_text_bad_arguments "24 Modern Ui" 0 40));
      [lia|reflexivity|]. vm_compute. discriminate.
Defined.

End BannerFacts.

(** ** File names and paths derived from a title *)

Module NamingFacts.
Import PyStr Rt.
Local Open Scope list_scope.

Lemma filter_twice {A} (p : A -> bool) (l : list A) :
  List.filter p (List.filter p l) = List.filter p l.
Proof.
  induction l as [|x l IH]; [reflexivity|]. cbn [List.filter].
  destruct (p x) eqn:E; [|exact IH]. cbn [List.filter]. now rewrite E, IH.
Qed.

Lemma filter_all {A} (p : A -> bool) (l : list A) :
  forallb p l = true -> List.filter p l = l.
Proof.
  induction l as [|x l IH]; [reflexivity|]. cbn [forallb List.filter].
  intros H. apply andb_prop in H as [-> Hl]. now rewrite IH.
Qed.

Lemma forallb_filter {A} (p : A -> bool) (l : list A) :
  forallb p (List.filter p l) = true.
Proof.
  induction l as [|x l IH]; [reflexivity|]. cbn [List.filter].
  destruct (p x) eqn:E; [|exact IH]. cbn [forallb]. now rewrite E, IH.
Qed.

Lemma str_chars (s : string) : str (chars s) = s.
Proof. apply string_of_list_ascii_of_string. Qed.

Definition valid_char (c : ascii) : bool := negb (Moviepy.invalid_char c).

Lemma ffmpeg_sanitize (s : string) :
  Ffmpeg.sanitize_filename s = str (List.filter re_w (chars s)).
Proof.
  unfold Ffmpeg.sanitize_filename.
  now rewrite FilenameFacts.re_sub_non_word_filter.
Qed.

Lemma moviepy_sanitize (s : string) :
  Moviepy.sanitize_filename s = str (List.filter valid_char (chars s)).
Proof.
  unfold Moviepy.sanitize_filename.
  now rewrite FilenameFacts.re_sub_invalid_filter.
Qed.

(** X4.  Both versions of [sanitize_filename] leave only characters they
    accept (word characters in the ffmpeg variant, everything but nine
    punctuation marks in the moviepy variant), sanitizing twice is
    sanitizing once, a name that is already clean is returned unchanged,
    and the sanitized form of a concatenation is the concatenation of the
    sanitized forms. *)
Theorem sanitize_filename_laws (s t : string) :
  (forallb re_w (chars (Ffmpeg.sanitize_filename s)) = true
   /\ Ffmpeg.sanitize_filename (Ffmpeg.sanitize_filename s)
      = Ffmpeg.sanitize_filename s
   /\ (forallb re_w (chars s) = true -> Ffmpeg.sanitize_filename s = s)
   /\ Ffmpeg.sanitize_filename (s ++ t)%string
      = (Ffmpeg.sanitize_filename s ++ Ffmpeg.sanitize_filename t)%string)
  /\ (forallb valid_char (chars (Moviepy.sanitize_filename s)) = true
      /\ Moviepy.sanitize_filename (Moviepy.sanitize_filename s)
         = Moviepy.sanitize_filename s
      /\ (forallb valid_char (chars s) = true -> Moviepy.sanitize_filename s = s)
      /\ Moviepy.sanitize_filename (s ++ t)%string
         = (Moviepy.sanitize_filename s ++ Moviepy.sanitize_filename t)%string).
Proof.
  split.
  - rewrite !ffmpeg_sanitize. rewrite !FilenameFacts.chars_str.
    split; [apply forallb_filter|]. split; [now rewrite filter_twice|].
    split; [intros H; now rewrite filter_all, str_chars|].
    now rewrite TitleFacts.chars_app, List.filter_app, TitleFacts.str_app.
  - rewrite !moviepy_sanitize. rewrite !FilenameFacts.chars_str.
    split; [apply forallb_filter|]. split; [now rewrite filter_twice|].
    split; [intros H; now rewrite filter_all, str_chars|].
    now rewrite TitleFacts.chars_app, List.filter_app, TitleFacts.str_app.
Qed.

(** *** Where the files go *)

Definition is_slash (c : ascii) : bool := is_char 47 c.

(** [path] names a file directly inside [dir]: the directory, a slash and
    a non-empty name without a slash. *)
Definition directly_in (dir path : string) : Prop :=
  exists name,
    path = (dir ++ "/" ++ name)%string
    /\ name <> EmptyString
    /\ existsb is_slash (chars name) = false.

Lemma existsb_app_false {A} (p : A -> bool) (l m : list A) :
  existsb p l = false -> existsb p m = false -> existsb p (l ++ m) = false.
Proof. intros Hl Hm. now rewrite existsb_app, Hl, Hm. Qed.

Lemma no_slash_filter (p : ascii -> bool) (l : list ascii) :
  (forall c, p c = true -> is_slash c = false) ->
  existsb is_slash (List.filter p l) = false.
Proof.
  intros Hp. induction l as [|c l IH]; [reflexivity|]. cbn [List.filter].
  destruct (p c) eqn:E; [|exact IH]. cbn [existsb]. now rewrite (Hp c E), IH.
Qed.

Lemma word_no_slash (c : ascii) : re_w c = true -> is_slash c = false.
Proof.
  intros H. destruct (is_slash c) eqn:E; [|reflexivity].
  unfold is_slash, is_char in E. apply N.eqb_eq in E.
  unfold re_w, isalnum, in_range, is_char in H. rewrite E in H. discriminate H.
Qed.

Lemma valid_no_slash (c : ascii) : valid_char c = true -> is_slash c = false.
Proof.
  intros H. destruct (is_slash c) eqn:E; [|reflexivity].
  unfold is_slash, is_char in E. apply N.eqb_eq in E.
  unfold valid_char, Moviepy.invalid_char, is_char in H. rewrite E in H.
  discriminate H.
Qed.

Lemma underscored_no_slash (l : list ascii) :
  existsb is_slash (map FilenameFacts.underscored l) = false.
Proof.
  induction l as [|c l IH]; [reflexivity|]. cbn [map existsb]. rewrite IH.
  rewrite orb_false_r. unfold FilenameFacts.underscored.
  destruct (Ascii.eqb c " ") eqn:E1; [reflexivity|].
  destruct (Ascii.eqb c "/") eqn:E2; [reflexivity|].
  destruct (is_slash c) eqn:E; [|reflexivity].
  unfold is_slash, is_char, code in E. apply N.eqb_eq in E.
  apply (f_equal ascii_of_N) in E. rewrite ascii_N_embedding in E.
  subst c. discriminate E2.
Qed.

Lemma startswith_slash (name : string) :
  startswith "/" name = true ->
  name = EmptyString \/ existsb is_slash (chars name) = true.
Proof.
  destruct name as [|c name]; [auto|]. unfold startswith. cbn [String.prefix].
  destruct (ascii_dec "/" c) as [<-|]; [|discriminate].
  intros _. right. reflexivity.
Qed.

Lemma endswith_slash_app (a b : string) :
  b <> EmptyString -> endswith "/" (a ++ b)%string = endswith "/" b.
Proof.
  intros Hb. unfold endswith. rewrite TitleFacts.chars_app, rev_app_distr.
  destruct (rev (chars b)) as [|c r] eqn:E.
  - exfalso. apply Hb. apply (f_equal (@rev ascii)) in E.
    rewrite rev_involutive in E. cbn in E.
    rewrite <- (str_chars b), E. reflexivity.
  - change (str (rev (chars "/"))) with "/".
    change ((c :: r) ++ rev (chars a)) with (c :: (r ++ rev (chars a))).
    unfold str. cbn [string_of_list_ascii String.prefix].
    destruct (ascii_dec "/" c); [|reflexivity].
    destruct (string_of_list_ascii r),
      (string_of_list_ascii (r ++ rev (chars a))); reflexivity.
Qed.

(** A name without a slash, joined to a directory that does not end in
    one, lands directly in that directory. *)
Lemma path_join_directly (dir name : string) :
  dir <> EmptyString -> endswith "/" dir = false ->
  name <> EmptyString -> existsb is_slash (chars name) = false ->
  directly_in dir (path_join dir name).
Proof.
  intros Hd He Hn Hs. exists name. split; [|auto].
  unfold path_join.
  destruct (startswith "/" name) eqn:E.
  { destruct (startswith_slash name E) as [->|H]; [contradiction|congruence]. }
  rewrite He, orb_false_r.
  destruct (String.eqb dir EmptyString) eqn:Ed; [|reflexivity].
  apply String.eqb_eq in Ed. contradiction.
Qed.

Lemma append_nonempty (a b : string) : b <> EmptyString -> (a ++ b)%string <> EmptyString.
Proof. destruct a; [auto|discriminate]. Qed.

(** A directory made by joining [SCRIPT_DIR] and a plain name. *)
Lemma subdir_plain (base sub : string) :
  sub <> EmptyString -> endswith "/" sub = false ->
  path_join base sub <> EmptyString /\ endswith "/" (path_join base sub) = false.
Proof.
  intros Hs He.
  destruct (MoviepyFacts.path_join_suffix base sub) as [prefix ->].
  split; [now apply append_nonempty|].
  now rewrite endswith_slash_app.
Qed.

Lemma suffixed_name (l : list ascii) (suffix : string) :
  existsb is_slash l = false -> suffix <> EmptyString ->
  existsb is_slash (chars suffix) = false ->
  (str l ++ suffix)%string <> EmptyString
  /\ existsb is_slash (chars (str l ++ suffix)%string) = false.
Proof.
  intros Hl Hne Hs. split; [now apply append_nonempty|].
  rewrite TitleFacts.chars_app, FilenameFacts.chars_str.
  now apply existsb_app_false.
Qed.

(** *** Names that are safe under the path rules of Windows too *)

(** The characters that separate the parts of a path under [ntpath]: the
    backslash and the colon of a drive (the slash is one under both sets
    of rules). *)
Definition is_foreign (c : ascii) : bool := is_char 92 c || is_char 58 c.

(** [path] names a file directly inside [dir], by a name that holds no
    separator of either set of rules. *)
Definition portably_in (dir path : string) : Prop :=
  exists name,
    path = (dir ++ "/" ++ name)%string
    /\ name <> EmptyString
    /\ existsb is_slash (chars name) = false
    /\ existsb is_foreign (chars name) = false.

Lemma no_foreign_filter (p : ascii -> bool) (l : list ascii) :
  (forall c, p c = true -> is_foreign c = false) ->
  existsb is_foreign (List.filter p l) = false.
Proof.
  intros Hp. induction l as [|c l IH]; [reflexivity|]. cbn [List.filter].
  destruct (p c) eqn:E; [|exact IH]. cbn [existsb]. now rewrite (Hp c E), IH.
Qed.

Lemma word_not_foreign (c : ascii) : re_w c = true -> is_foreign c = false.
Proof.
  intros H. destruct (is_foreign c) eqn:E; [|reflexivity].
  unfold is_foreign, is_char in E. apply orb_prop in E as [E|E];
    apply N.eqb_eq in E;
    unfold re_w, isalnum, in_range, is_char in H; rewrite E in H;
    discriminate H.
Qed.

Lemma valid_not_foreign (c : ascii) : valid_char c = true -> is_foreign c = false.
Proof.
  intros H. destruct (is_foreign c) eqn:E; [|reflexivity].
  unfold is_foreign, is_char in E. apply orb_prop in E as [E|E];
    apply N.eqb_eq in E;
    unfold valid_char, Moviepy.invalid_char, is_char in H; rewrite E in H;
    discriminate H.
Qed.

(** The compositor of the ffmpeg variant keeps the backslashes and the
    colons of a title. *)
Lemma underscored_keeps_foreign (l : list ascii) :
  existsb is_foreign (map FilenameFacts.underscored l) = existsb is_foreign l.
Proof.
  induction l as [|c l IH]; [reflexivity|]. cbn [map existsb]. rewrite IH.
  f_equal. unfold FilenameFacts.underscored.
  destruct (Ascii.eqb c " ") eqn:E1;
    [apply Ascii.eqb_eq in E1; subst c; reflexivity|].
  destruct (Ascii.eqb c "/") eqn:E2;
    [apply Ascii.eqb_eq in E2; subst c; reflexivity|].
  reflexivity.
Qed.

Lemma path_join_portably (dir name : string) :
  dir <> EmptyString -> endswith "/" dir = false ->
  name <> EmptyString -> existsb is_slash (chars name) = false ->
  existsb is_foreign (chars name) = false ->
  portably_in dir (path_join dir name).
Proof.
  intros Hd He Hn Hs Hf. exists name. split; [|auto].
  unfold path_join.
  destruct (startswith "/" name) eqn:E.
  { destruct (startswith_slash name E) as [->|H]; [contradiction|congruence]. }
  rewrite He, orb_false_r.
  destruct (String.eqb dir EmptyString) eqn:Ed; [|reflexivity].
  apply String.eqb_eq in Ed. contradiction.
Qed.

Lemma suffixed_portable (l : list ascii) (suffix : string) :
  existsb is_slash l = false -> existsb is_foreign l = false ->
  suffix <> EmptyString ->
  existsb is_slash (chars suffix) = false ->
  existsb is_foreign (chars suffix) = false ->
  (str l ++ suffix)%string <> EmptyString
  /\ existsb is_slash (chars (str l ++ suffix)%string) = false
  /\ existsb is_foreign (chars (str l ++ suffix)%string) = false.
Proof.
  intros Hl Hlf Hne Hs Hsf.
  destruct (suffixed_name l suffix Hl Hne Hs) as [H1 H2].
  split; [exact H1|]. split; [exact H2|].
  rewrite TitleFacts.chars_app, FilenameFacts.chars_str.
  now apply existsb_app_false.
Qed.

Ltac in_dir Hname :=
  apply path_join_portably;
  [apply subdir_plain; [discriminate|reflexivity]
  |apply subdir_plain; [discriminate|reflexivity]
  |apply Hname; [discriminate|reflexivity|reflexivity]
  |apply Hname; [discriminate|reflexivity|reflexivity]
  |apply Hname; [discriminate|reflexivity|reflexivity]].

(** X5.  Under the path rules of POSIX, which the embedding follows
    ([os.path.join] is that of [posixpath]), every file the scripts derive
    from a title lies directly in its directory, whatever the title: the
    downloads in [YtDownloads], the stage outputs of the ffmpeg compositor
    in [output_videos] and [ShortifiedYtVideos], the outputs of the
    moviepy compositor in [ShortifiedYtVideos]; the derived name is never
    empty and never holds a slash.  The names of the downloads and of the
    moviepy outputs hold no backslash and no colon either, the separators
    of the path rules of Windows; the names of the ffmpeg compositor keep
    every backslash and colon of the title. *)
Theorem derived_paths_stay_in_place (E : Env) (title : string) :
  (portably_in (Ffmpeg.YT_DOWNLOADS_DIR E) (Ffmpeg.video_path E title)
   /\ portably_in (Ffmpeg.YT_DOWNLOADS_DIR E) (Ffmpeg.audio_path E title)
   /\ portably_in (Ffmpeg.YT_DOWNLOADS_DIR E) (Ffmpeg.merged_path E title))
  /\ (directly_in Ffmpeg.output_dir (Ffmpeg.blurry_bg_path title)
      /\ directly_in Ffmpeg.output_dir (Ffmpeg.trimmed_main_path title)
      /\ directly_in Ffmpeg.output_dir (Ffmpeg.final_output_path title)
      /\ directly_in "ShortifiedYtVideos" (Ffmpeg.concat_output_path title)
      /\ existsb is_foreign (chars (Ffmpeg.sanitized_title title))
         = existsb is_foreign (chars title))
  /\ (portably_in (Moviepy.YT_DOWNLOADS_DIR E) (Moviepy.video_path E title)
      /\ portably_in (Moviepy.YT_DOWNLOADS_DIR E) (Moviepy.audio_path E title)
      /\ portably_in (Moviepy.YT_DOWNLOADS_DIR E) (Moviepy.merged_path E title)
      /\ portably_in (Moviepy.SHORTIFIED_VIDEOS_DIR E) (Moviepy.short_path E title)
      /\ portably_in (Moviepy.SHORTIFIED_VIDEOS_DIR E)
           (Moviepy.short_with_outro_path E title)).
Proof.
  assert (forall suffix, suffix <> EmptyString ->
            existsb is_slash (chars suffix) = false ->
            existsb is_foreign (chars suffix) = false ->
            (Ffmpeg.sanitize_filename title ++ suffix)%string <> EmptyString
            /\ existsb is_slash
                 (chars (Ffmpeg.sanitize_filename title ++ suffix)%string) = false
            /\ existsb is_foreign
                 (chars (Ffmpeg.sanitize_filename title ++ suffix)%string) = false)
    as Hf.
  { intros suffix Hne Hs Hsf. rewrite ffmpeg_sanitize.
    apply suffixed_portable; auto.
    - apply no_slash_filter, word_no_slash.
    - apply no_foreign_filter, word_not_foreign. }
  assert (forall suffix, suffix <> EmptyString ->
            existsb is_slash (chars suffix) = false ->
            (Ffmpeg.sanitized_title title ++ suffix)%string <> EmptyString
            /\ existsb is_slash
                 (chars (Ffmpeg.sanitized_title title ++ suffix)%string) = false)
    as Hc.
  { intros suffix Hne Hs.
    rewrite <- (str_chars (Ffmpeg.sanitized_title title)),
      FilenameFacts.sanitized_title_chars.
    apply suffixed_name; auto. apply underscored_no_slash. }
  assert (forall suffix, suffix <> EmptyString ->
            existsb is_slash (chars suffix) = false ->
            existsb is_foreign (chars suffix) = false ->
            (Moviepy.sanitize_filename title ++ suffix)%string <> EmptyString
            /\ existsb is_slash
                 (chars (Moviepy.sanitize_filename title ++ suffix)%string) = false
            /\ existsb is_foreign
                 (chars (Moviepy.sanitize_filename title ++ suffix)%string) = false)
    as Hm.
  { intros suffix Hne Hs Hsf. rewrite moviepy_sanitize.
    apply suffixed_portable; auto.
    - apply no_slash_filter, valid_no_slash.
    - apply no_foreign_filter, valid_not_foreign. }
  split; [|split].
  - unfold Ffmpeg.video_path, Ffmpeg.audio_path, Ffmpeg.merged_path,
      Ffmpeg.video_file, Ffmpeg.audio_file, Ffmpeg.YT_DOWNLOADS_DIR.
    repeat split; in_dir Hf.
  - unfold Ffmpeg.blurry_bg_path, Ffmpeg.trimmed_main_path,
      Ffmpeg.final_output_path, Ffmpeg.concat_output_path, Ffmpeg.output_dir.
    split; [|split; [|split; [|split]]];
      [apply path_join_directly;
       first [discriminate | reflexivity | apply Hc; [discriminate|reflexivity]]..
      |].
    rewrite FilenameFacts.sanitized_title_chars.
    apply underscored_keeps_foreign.
  - unfold Moviepy.video_path, Moviepy.audio_path, Moviepy.merged_path,
      Moviepy.video_file, Moviepy.audio_file, Moviepy.YT_DOWNLOADS_DIR,
      Moviepy.short_path, Moviepy.short_with_outro_path,
      Moviepy.SHORTIFIED_VIDEOS_DIR.
    repeat split; in_dir Hm.
Qed.

(** *** The moviepy variant names its downloads after the URL *)

Definition url_name : string := "httpswww.youtube.comwatchv=".

(** X6.  [main_flow] passes the URL of the video where [download_and_merge]
    expects its title, so the moviepy variant names its downloads after
    the URL with its colon, slashes and question mark removed.  For video
    ids without an invalid character the merged file is
    [httpswww.youtube.comwatchv=<id>.mp4], and two different ids never
    share a merged file. *)
Theorem moviepy_download_named_after_url (E : Env) (id1 id2 : string) :
  forallb valid_char (chars id1) = true ->
  forallb valid_char (chars id2) = true ->
  Moviepy.merged_path E (Ffmpeg.watch_url id1)
  = path_join (Moviepy.YT_DOWNLOADS_DIR E) (url_name ++ id1 ++ ".mp4")%string
  /\ (Moviepy.merged_path E (Ffmpeg.watch_url id1)
      = Moviepy.merged_path E (Ffmpeg.watch_url id2) -> id1 = id2).
Proof.
  assert (forall id, forallb valid_char (chars id) = true ->
            Moviepy.sanitize_filename (Ffmpeg.watch_url id)
            = (url_name ++ id)%string) as Hname.
  { intros id Hid. unfold Ffmpeg.watch_url. rewrite moviepy_sanitize.
    rewrite TitleFacts.chars_app, List.filter_app, TitleFacts.str_app.
    rewrite (filter_all _ _ Hid), str_chars. reflexivity. }
  intros H1 H2. unfold Moviepy.merged_path. rewrite (Hname id1 H1), (Hname id2 H2).
  split; [now rewrite MoviepyFacts.append_assoc|].
  intros Heq.
  assert (forall a b c : string, (a ++ b)%string = (a ++ c)%string -> b = c) as Hcancel.
  { intros a b c. induction a as [|x a IH]; cbn; [auto|]. intros [= H]. auto. }
  assert (forall a b c : string, (b ++ a)%string = (c ++ a)%string -> b = c) as Hcancel_r.
  { intros a b c H. apply (f_equal chars) in H.
    rewrite !TitleFacts.chars_app in H. apply app_inv_tail in H.
    rewrite <- (str_chars b), <- (str_chars c). now rewrite H. }
  assert (forall name1 name2,
            name1 <> EmptyString -> name2 <> EmptyString ->
            existsb is_slash (chars name1) = false ->
            existsb is_slash (chars name2) = false ->
            path_join (Moviepy.YT_DOWNLOADS_DIR E) name1
            = path_join (Moviepy.YT_DOWNLOADS_DIR E) name2 -> name1 = name2) as Hinj.
  { intros name1 name2 Hn1 Hn2 Hs1 Hs2 Hj.
    destruct (subdir_plain (SCRIPT_DIR E) "YtDownloads" ltac:(discriminate) eq_refl)
      as [Hd He].
    destruct (path_join_directly _ name1 Hd He Hn1 Hs1) as (m1 & Hm1 & _).
    destruct (path_join_directly _ name2 Hd He Hn2 Hs2) as (m2 & Hm2 & _).
    unfold path_join in Hj, Hm1, Hm2. fold (Moviepy.YT_DOWNLOADS_DIR E) in *.
    destruct (startswith "/" name1) eqn:E1.
    { destruct (startswith_slash name1 E1) as [->|H]; [contradiction|congruence]. }
    destruct (startswith "/" name2) eqn:E2.
    { destruct (startswith_slash name2 E2) as [->|H]; [contradiction|congruence]. }
    destruct (String.eqb (Moviepy.YT_DOWNLOADS_DIR E) EmptyString
              || endswith "/" (Moviepy.YT_DOWNLOADS_DIR E)).
    - now apply Hcancel in Hj.
    - apply Hcancel in Hj. now apply (Hcancel "/") in Hj. }
  assert (forall id, forallb valid_char (chars id) = true ->
            existsb is_slash (chars ((url_name ++ id) ++ ".mp4")%string) = false)
    as Hno.
  { intros id Hid. rewrite !TitleFacts.chars_app, !existsb_app.
    assert (existsb is_slash (chars id) = false) as ->.
    { rewrite <- (filter_all _ _ Hid). apply no_slash_filter, valid_no_slash. }
    reflexivity. }
  apply Hinj in Heq; [|now apply append_nonempty|now apply append_nonempty|auto|auto].
  apply Hcancel_r in Heq. now apply Hcancel in Heq.
Qed.

Lemma moviepy_download_named_after_url_witness :
  Moviepy.merged_path CompositorFacts.studio (Ffmpeg.watch_url "JK-B-CT34EU")
  = path_join (Moviepy.YT_DOWNLOADS_DIR CompositorFacts.studio)
      (url_name ++ "JK-B-CT34EU" ++ ".mp4")%string
  /\ (Moviepy.merged_path CompositorFacts.studio (Ffmpeg.watch_url "JK-B-CT34EU")
      = Moviepy.merged_path CompositorFacts.studio (Ffmpeg.watch_url "dQw4w9WgXcQ")
      -> "JK-B-CT34EU" = "dQw4w9WgXcQ").
Proof.
  apply (moviepy_download_named_after_url CompositorFacts.studio
           "JK-B-CT34EU" "dQw4w9WgXcQ"); reflexivity.
Defined.

End NamingFacts.

(** ** Round trips: the video id in its URL, the dimensions in the output
    of ffprobe *)

Module RoundTripFacts.
Import PyStr Rt.
Local Open Scope list_scope.

Definition is_sep (sep c : ascii) : bool := Ascii.eqb c sep.

Lemma split_chars_plain (sep : ascii) (cur l : list ascii) :
  existsb (is_sep sep) l = false -> split_chars sep cur l = [rev cur ++ l].
Proof.
  revert cur; induction l as [|c l IH]; intros cur; cbn [existsb split_chars].
  - now rewrite app_nil_r.
  - unfold is_sep at 1. destruct (Ascii.eqb c sep); [discriminate|].
    cbn [orb]. intros H. rewrite (IH _ H). cbn [rev].
    now rewrite <- app_assoc.
Qed.

Lemma split_chars_at_sep (sep : ascii) (cur a l : list ascii) :
  existsb (is_sep sep) a = false ->
  split_chars sep cur (a ++ sep :: l) = (rev cur ++ a) :: split_chars sep [] l.
Proof.
  revert cur; induction a as [|c a IH]; intros cur; cbn [existsb app split_chars].
  - rewrite Ascii.eqb_refl, app_nil_r. reflexivity.
  - unfold is_sep at 1. destruct (Ascii.eqb c sep); [discriminate|].
    cbn [orb]. intros H. rewrite (IH _ H). cbn [rev].
    now rewrite <- app_assoc.
Qed.

Lemma existsb_rev {A} (p : A -> bool) (l : list A) :
  existsb p (rev l) = existsb p l.
Proof.
  induction l as [|x l IH]; [reflexivity|]. cbn [rev existsb].
  rewrite existsb_app, IH. cbn [existsb]. rewrite orb_false_r. apply orb_comm.
Qed.

Lemma split_chars_pieces (sep : ascii) (cur l : list ascii) :
  existsb (is_sep sep) cur = false ->
  Forall (fun piece => existsb (is_sep sep) piece = false) (split_chars sep cur l).
Proof.
  revert cur; induction l as [|c l IH]; intros cur Hcur; cbn [split_chars].
  - constructor; [|constructor]. now rewrite existsb_rev.
  - destruct (Ascii.eqb c sep) eqn:E.
    + constructor; [now rewrite existsb_rev|]. now apply IH.
    + apply IH. cbn [existsb]. unfold is_sep at 1. now rewrite E.
Qed.

Lemma split_chars_nonempty (sep : ascii) (cur l : list ascii) :
  split_chars sep cur l <> [].
Proof.
  revert cur; induction l as [|c l IH]; intros cur; cbn [split_chars];
    [discriminate|]. destruct (Ascii.eqb c sep); [discriminate|apply IH].
Qed.

Lemma last_in {A} (l : list A) (d : A) : l <> [] -> In (List.last l d) l.
Proof.
  induction l as [|x l IH]; [contradiction|]. intros _.
  destruct l as [|y l]; [left; reflexivity|].
  right. apply IH. discriminate.
Qed.

Definition equals_sign : ascii := "="%char.

(** X7.  [main] of the ffmpeg variant recovers the video id from the URL
    that [fetch_random_video] built, as the text after the last equals
    sign: for an id without an equals sign the round trip is exact, and
    what is recovered never holds an equals sign, so that an id with one
    is not recovered. *)
Theorem video_id_round_trip (video_id url : string) :
  (existsb (is_sep equals_sign) (chars video_id) = false ->
   Ffmpeg.last_field (Ffmpeg.watch_url video_id) = video_id)
  /\ existsb (is_sep equals_sign) (chars (Ffmpeg.last_field url)) = false.
Proof.
  split.
  - intros H. unfold Ffmpeg.last_field, Ffmpeg.watch_url, split.
    rewrite TitleFacts.chars_app.
    change (chars "https://www.youtube.com/watch?v=")
      with (chars "https://www.youtube.com/watch?v" ++ [equals_sign]).
    rewrite <- app_assoc. cbn [app].
    rewrite split_chars_at_sep by reflexivity.
    rewrite (split_chars_plain _ _ _ H). cbn [rev app map List.last].
    apply string_of_list_ascii_of_string.
  - unfold Ffmpeg.last_field, split.
    pose proof (split_chars_pieces equals_sign [] (chars url) eq_refl) as Hall.
    pose proof (split_chars_nonempty equals_sign [] (chars url)) as Hne.
    unfold equals_sign in *.
    destruct (split_chars "=" [] (chars url)) as [|p ps] eqn:E;
      [contradiction|].
    assert (exists piece, In piece (p :: ps)
                          /\ List.last (map str (p :: ps)) EmptyString = str piece)
      as (piece & Hin & ->).
    { clear. revert p. induction ps as [|q ps IH]; intros p.
      - exists p. split; [left; reflexivity|reflexivity].
      - destruct (IH q) as (piece & Hin & Heq). exists piece.
        split; [right; exact Hin|exact Heq]. }
    rewrite FilenameFacts.chars_str.
    exact (proj1 (List.Forall_forall _ _) Hall piece Hin).
Qed.

Lemma video_id_round_trip_witness :
  Ffmpeg.last_field (Ffmpeg.watch_url "JK-B-CT34EU") = "JK-B-CT34EU"
  /\ existsb (is_sep equals_sign)
       (chars (Ffmpeg.last_field "https://youtu.be/x?a=b=c")) = false.
Proof.
  destruct (video_id_round_trip "JK-B-CT34EU" "https://youtu.be/x?a=b=c")
    as [H1 H2].
  split; [apply H1; reflexivity|exact H2].
Defined.

(** *** Decimal numbers *)

(** The value of a run of digits read from the left. *)
Definition read_digit (acc : Z) (c : ascii) : Z := 10 * acc + digit_val c.

Lemma digits_run (ds rest : list ascii) (acc : Z) (after_digit : bool) :
  forallb re_d ds = true -> ds <> [] ->
  digits acc after_digit (ds ++ rest) = digits (fold_left read_digit ds acc) true rest.
Proof.
  revert acc after_digit; induction ds as [|c ds IH]; intros acc after_digit;
    [contradiction|].
  cbn [forallb app digits fold_left]. intros H _.
  apply andb_prop in H as [Hc Hds]. rewrite Hc.
  destruct ds as [|d ds]; [reflexivity|].
  now apply IH.
Qed.

Lemma pretty_N_char_digit (x : N) :
  (x < 10)%N ->
  re_d (pretty_N_char x) = true /\ digit_val (pretty_N_char x) = Z.of_N x.
Proof.
  intros H.
  assert (x = 0 \/ x = 1 \/ x = 2 \/ x = 3 \/ x = 4 \/ x = 5 \/ x = 6
          \/ x = 7 \/ x = 8 \/ x = 9)%N as Hx by lia.
  repeat destruct Hx as [->|Hx]; try subst x; split; reflexivity.
Qed.

(** [pretty_N_go x s] writes the decimal digits of [x] before [s]: as
    many as [x] needs, no more. *)
Lemma pretty_N_go_digits (x : N) (s : string) :
  exists ds,
    chars (pretty_N_go x s) = ds ++ chars s
    /\ forallb re_d ds = true
    /\ fold_left read_digit ds 0 = Z.of_N x
    /\ ((0 < x)%N -> ds <> [])
    /\ (forall k, 0 <= k -> Z.of_N x < 10 ^ k -> Z.of_nat (length ds) <= k)
    /\ (forall k, 0 <= k -> 10 ^ k <= Z.of_N x -> k < Z.of_nat (length ds)).
Proof.
  revert s. induction (N.lt_wf_0 x) as [x _ IH]. intros s.
  destruct (N.eq_dec x 0%N) as [->|Hx].
  - exists []. rewrite pretty_N_go_0.
    split; [reflexivity|]. split; [reflexivity|]. split; [reflexivity|].
    split; [lia|]. split; [intros; cbn; lia|].
    intros k Hk H10. pose proof (Z.pow_pos_nonneg 10 k ltac:(lia) Hk). lia.
  - rewrite pretty_N_go_step by lia.
    destruct (IH (x `div` 10)%N ltac:(apply N.div_lt; lia)
                (String (pretty_N_char (x `mod` 10)) s))
      as (ds & Hchars & Hall & Hval & _ & Hlen & Hmin).
    destruct (pretty_N_char_digit (x `mod` 10)%N
                ltac:(apply N.mod_lt; lia)) as [Hd Hv].
    assert (forall k, 0 < k -> 10 ^ k = 10 * 10 ^ (k - 1)) as Hpow.
    { intros k Hk. replace k with (Z.succ (k - 1)) at 1 by lia.
      apply Z.pow_succ_r. lia. }
    exists (ds ++ [pretty_N_char (x `mod` 10)]).
    split; [rewrite Hchars, <- app_assoc; reflexivity|].
    split; [rewrite forallb_app, Hall; cbn [forallb]; now rewrite Hd|].
    split; [|split; [|split]].
    + rewrite fold_left_app. cbn [fold_left]. unfold read_digit at 1.
      rewrite Hval, Hv. pose proof (N.div_mod x 10 ltac:(lia)). lia.
    + intros _. now destruct ds.
    + intros k Hk Hx10.
      assert (k <> 0) as Hk0 by (intros ->; cbn in Hx10; lia).
      rewrite length_app. cbn [length].
      specialize (Hlen (k - 1) ltac:(lia)).
      assert (Z.of_N (x `div` 10) < 10 ^ (k - 1)) as Hdiv.
      { rewrite N2Z.inj_div. apply Z.div_lt_upper_bound; [lia|].
        rewrite <- Hpow by lia. exact Hx10. }
      specialize (Hlen Hdiv). lia.
    + intros k Hk Hx10. rewrite length_app. cbn [length].
      destruct (Z.eq_dec k 0) as [->|Hk0]; [lia|].
      specialize (Hmin (k - 1) ltac:(lia)).
      assert (10 ^ (k - 1) <= Z.of_N (x `div` 10)) as Hdiv.
      { rewrite N2Z.inj_div. apply Z.div_le_lower_bound; [lia|].
        rewrite <- Hpow by lia. exact Hx10. }
      specialize (Hmin Hdiv). lia.
Qed.

Lemma pretty_N_digits (x : N) :
  exists ds,
    chars (pretty x) = ds
    /\ forallb re_d ds = true /\ ds <> []
    /\ fold_left read_digit ds 0 = Z.of_N x
    /\ (forall k, 1 <= k -> Z.of_N x < 10 ^ k -> Z.of_nat (length ds) <= k)
    /\ (forall k, 0 <= k -> 10 ^ k <= Z.of_N x -> k < Z.of_nat (length ds)).
Proof.
  unfold pretty, pretty_N. destruct (decide (x = 0%N)) as [->|Hx].
  - exists (chars "0"). split; [reflexivity|]. split; [reflexivity|].
    split; [discriminate|]. split; [reflexivity|].
    split; [intros k Hk _; cbn; lia|].
    intros k Hk H10. pose proof (Z.pow_pos_nonneg 10 k ltac:(lia) Hk). lia.
  - destruct (pretty_N_go_digits x EmptyString)
      as (ds & Hc & Hall & Hval & Hne & Hlen & Hmin).
    exists ds. cbn [chars list_ascii_of_string] in Hc. rewrite app_nil_r in Hc.
    split; [exact Hc|]. split; [exact Hall|].
    split; [apply Hne; lia|]. split; [exact Hval|].
    split; [intros k Hk; apply Hlen; lia|exact Hmin].
Qed.

(** The characters of a decimal number: digits and the minus sign. *)
Definition number_char (c : ascii) : bool := re_d c || is_char 45 c.

Lemma number_char_plain (c : ascii) :
  number_char c = true ->
  int_blank c = false /\ isspace c = false /\ is_sep newline c = false.
Proof.
  unfold number_char, re_d, in_range, is_char. intros H.
  assert (code c = 45 \/ code c = 48 \/ code c = 49 \/ code c = 50 \/ code c = 51
          \/ code c = 52 \/ code c = 53 \/ code c = 54 \/ code c = 55
          \/ code c = 56 \/ code c = 57)%N as Hc.
  { apply orb_prop in H as [H|H].
    - apply andb_prop in H as [H1 H2].
      apply N.leb_le in H1. apply N.leb_le in H2. lia.
    - apply N.eqb_eq in H. lia. }
  assert (c = ascii_of_N (code c)) as Hcc
    by (unfold code; now rewrite ascii_N_embedding).
  repeat destruct Hc as [Hc|Hc]; rewrite Hc in Hcc; subst c;
    repeat split; reflexivity.
Qed.

Lemma digit_number_char (ds : list ascii) :
  forallb re_d ds = true -> forallb number_char ds = true.
Proof.
  intros H. apply forallb_forall. intros c Hc.
  rewrite forallb_forall in H. unfold number_char. now rewrite (H c Hc).
Qed.

Lemma drop_int_blank_number (l rest : list ascii) :
  forallb number_char l = true -> l <> [] ->
  drop_int_blank (l ++ rest) = l ++ rest.
Proof.
  destruct l as [|c l]; [contradiction|]. cbn [forallb app drop_int_blank].
  intros H _. apply andb_prop in H as [Hc _].
  now rewrite (proj1 (number_char_plain c Hc)).
Qed.

Lemma lstrip_number (l rest : list ascii) :
  forallb number_char l = true -> l <> [] ->
  lstrip_chars (l ++ rest) = l ++ rest.
Proof.
  destruct l as [|c l]; [contradiction|]. cbn [forallb app lstrip_chars].
  intros H _. apply andb_prop in H as [Hc _].
  now rewrite (proj1 (proj2 (number_char_plain c Hc))).
Qed.

Lemma forallb_rev {A} (p : A -> bool) (l : list A) :
  forallb p l = true -> forallb p (rev l) = true.
Proof.
  intros H. apply forallb_forall. intros x Hx. rewrite forallb_forall in H.
  apply H. now apply in_rev.
Qed.

Lemma rev_nonempty {A} (l : list A) : l <> [] -> rev l <> [].
Proof.
  intros H E. apply H. rewrite <- (rev_involutive l), E. reflexivity.
Qed.

Lemma no_newline_number (l : list ascii) :
  forallb number_char l = true -> existsb (is_sep newline) l = false.
Proof.
  induction l as [|c l IH]; [reflexivity|]. cbn [forallb existsb].
  intros H. apply andb_prop in H as [Hc Hl].
  now rewrite (proj2 (proj2 (number_char_plain c Hc))), IH.
Qed.

(** A run of digits holds as many digits as it is long. *)
Lemma scan_digits_run (ds : list ascii) (n : Z) :
  forallb re_d ds = true ->
  scan_digits false n ds = Some (n + Z.of_nat (length ds)).
Proof.
  revert n; induction ds as [|c ds IH]; intros n; cbn [forallb scan_digits length].
  - intros _. f_equal. lia.
  - intros H. apply andb_prop in H as [-> Hds]. rewrite (IH _ Hds).
    f_equal. lia.
Qed.

(** The limit on the digits of a literal. *)
Definition max_digits : Z := 4300.

(** The sign of a decimal text: none, or a minus. *)
Definition sign_of (z : Z) : list ascii :=
  if z <? 0 then ["-"%char] else [].

(** A run of digits, signed or not, is over the limit when it is longer
    than 4300. *)
Lemma digits_over_limit (sign ds : list ascii) :
  forallb re_d ds = true -> ds <> [] ->
  sign = [] \/ sign = ["-"%char] ->
  over_limit (str (sign ++ ds))
  = if max_digits <? Z.of_nat (length ds) then Some (Z.of_nat (length ds))
    else None.
Proof.
  intros Hall Hne Hsign. unfold over_limit.
  rewrite FilenameFacts.chars_str.
  assert (forallb number_char (sign ++ ds) = true) as Hnum.
  { rewrite forallb_app, (digit_number_char ds Hall).
    destruct Hsign as [-> | ->]; reflexivity. }
  assert (sign ++ ds <> []) as Hne' by (destruct sign; [exact Hne|discriminate]).
  rewrite <- (app_nil_r (sign ++ ds)).
  rewrite drop_int_blank_number by assumption. rewrite app_nil_r.
  destruct ds as [|c ds']; [contradiction|].
  pose proof Hall as Hall'. cbn [forallb] in Hall'.
  apply andb_prop in Hall' as [Hd _].
  unfold re_d, in_range in Hd. apply andb_prop in Hd as [H1 H2].
  apply N.leb_le in H1. apply N.leb_le in H2.
  assert (is_char 45 c = false /\ is_char 43 c = false
          /\ is_char 95 c = false) as (E45 & E43 & E95)
    by (unfold is_char; repeat split; apply N.eqb_neq; lia).
  assert (unsigned (sign ++ c :: ds') = c :: ds') as ->.
  { destruct Hsign as [-> | ->]; [|reflexivity].
    cbn [app unsigned]. now rewrite E45, E43. }
  rewrite E95. rewrite scan_digits_run by exact Hall.
  rewrite Z.add_0_l. reflexivity.
Qed.

(** The decimal text of an integer: its sign and its digits, as many as
    its size asks for. *)
Lemma pretty_Z_digits (z : Z) :
  exists ds,
    chars (pretty z) = sign_of z ++ ds
    /\ forallb re_d ds = true /\ ds <> []
    /\ fold_left read_digit ds 0 = Z.abs z
    /\ (forall k, 1 <= k -> Z.abs z < 10 ^ k -> Z.of_nat (length ds) <= k)
    /\ (forall k, 0 <= k -> 10 ^ k <= Z.abs z -> k < Z.of_nat (length ds)).
Proof.
  destruct z as [|p|p]; unfold pretty, pretty_Z, sign_of.
  - destruct (pretty_N_digits 0%N) as (ds & Hc & H). exists ds.
    split; [exact Hc|exact H].
  - destruct (pretty_N_digits (N.pos p)) as (ds & Hc & H). exists ds.
    split; [exact Hc|exact H].
  - destruct (pretty_N_digits (N.pos p)) as (ds & Hc & H). exists ds.
    split; [|exact H].
    change (pretty p) with (pretty (N.pos p)). cbn [Z.ltb Z.compare app].
    now rewrite <- Hc.
Qed.

Lemma sign_of_cases (z : Z) : sign_of z = [] \/ sign_of z = ["-"%char].
Proof. unfold sign_of. destruct (z <? 0); auto. Qed.

Lemma pretty_Z_number (z : Z) :
  forallb number_char (chars (pretty z)) = true /\ chars (pretty z) <> [].
Proof.
  destruct (pretty_Z_digits z) as (ds & Hc & Hall & Hne & _).
  rewrite Hc. split.
  - rewrite forallb_app, (digit_number_char ds Hall).
    destruct (sign_of_cases z) as [-> | ->]; reflexivity.
  - destruct (sign_of z); [exact Hne|discriminate].
Qed.

Lemma pretty_Z_text (z : Z) (ds : list ascii) :
  chars (pretty z) = sign_of z ++ ds -> pretty z = str (sign_of z ++ ds).
Proof.
  intros H. rewrite <- H. symmetry. apply string_of_list_ascii_of_string.
Qed.

(** [int] reads the text of an integer of at most 4300 digits back, and
    refuses the text of a longer one. *)
Lemma pretty_Z_read (z : Z) :
  (Z.abs z < 10 ^ max_digits -> int (pretty z) = Some z)
  /\ (10 ^ max_digits <= Z.abs z ->
      exists n, max_digits < n
                /\ over_limit (pretty z) = Some n /\ int (pretty z) = None).
Proof.
  destruct (pretty_Z_digits z) as (ds & Hc & Hall & Hne & Hval & Hlen & Hmin).
  pose proof (digits_over_limit (sign_of z) ds Hall Hne (sign_of_cases z)) as Hlim.
  rewrite <- (pretty_Z_text z ds Hc) in Hlim.
  split.
  - intros Hbound.
    assert ((max_digits <? Z.of_nat (length ds)) = false) as Hin
      by (apply Z.ltb_ge, Hlen; [unfold max_digits; lia|exact Hbound]).
    rewrite Hin in Hlim. unfold int. rewrite Hlim. unfold int_literal.
    destruct (pretty_Z_number z) as [Hnum Hnon].
    assert (forall l, forallb number_char l = true -> l <> [] ->
              rev (drop_int_blank (rev (drop_int_blank l))) = l) as Htrim.
    { intros l Hl Hlne.
      rewrite <- (app_nil_r l) at 1. rewrite drop_int_blank_number by auto.
      rewrite app_nil_r, <- (app_nil_r (rev l)).
      rewrite drop_int_blank_number
        by (auto using forallb_rev, rev_nonempty).
      rewrite app_nil_r. apply rev_involutive. }
    rewrite (Htrim _ Hnum Hnon).
    rewrite Hc.
    assert (digits 0 false ds = Some (Z.abs z)) as Hread.
    { rewrite <- (app_nil_r ds) at 1. rewrite digits_run by auto.
      cbn [digits]. now rewrite Hval. }
    unfold sign_of. destruct (Z.ltb_spec z 0) as [Hneg|Hpos]; cbn [app].
    + change (is_char 45 "-") with true. cbv iota. rewrite Hread.
      cbn [option_map]. f_equal. lia.
    + destruct ds as [|c ds']; [contradiction|].
      pose proof Hall as Hall'. cbn [forallb] in Hall'.
      apply andb_prop in Hall' as [Hd _].
      unfold re_d, in_range in Hd. apply andb_prop in Hd as [H1 H2].
      apply N.leb_le in H1.
      assert (is_char 45 c = false /\ is_char 43 c = false) as [-> ->]
        by (unfold is_char; split; apply N.eqb_neq; lia).
      rewrite Hread. f_equal. lia.
  - intros Hbig.
    assert ((max_digits <? Z.of_nat (length ds)) = true) as Hout
      by (apply Z.ltb_lt, Hmin; [unfold max_digits; lia|exact Hbig]).
    rewrite Hout in Hlim. exists (Z.of_nat (length ds)).
    split; [now apply Z.ltb_lt|]. split; [exact Hlim|].
    unfold int. now rewrite Hlim.
Qed.

(** What ffprobe prints for a video stream of [width] by [height] pixels:
    the two decimal numbers, one to a line. *)
Definition probe_report (width height : Z) : string :=
  pretty width ++ nl ++ pretty height ++ nl.

Lemma probe_report_lines (width height : Z) :
  split newline (strip (probe_report width height))
  = [pretty width; pretty height].
Proof.
  destruct (pretty_Z_number width) as (Hw & Hwne).
  destruct (pretty_Z_number height) as (Hh & Hhne).
  unfold probe_report, split, strip, strip_chars.
  rewrite !TitleFacts.chars_app.
  change (chars nl) with [newline].
  rewrite lstrip_number by auto.
  rewrite !rev_app_distr. cbn [rev app]. rewrite <- !app_assoc. cbn [app].
  cbn [lstrip_chars]. change (isspace newline) with true. cbv iota.
  rewrite lstrip_number by (auto using forallb_rev, rev_nonempty).
  rewrite rev_app_distr. cbn [rev]. rewrite !rev_involutive.
  cbn [rev app]. rewrite FilenameFacts.chars_str, <- app_assoc. cbn [app].
  rewrite split_chars_at_sep by now apply no_newline_number.
  rewrite split_chars_plain by now apply no_newline_number.
  cbn [rev app map]. unfold str.
  now rewrite !string_of_list_ascii_of_string.
Qed.

(** The message of [int] for a literal of [n] digits, [n] above the
    limit. *)
Definition limit_message (n : Z) : string :=
  "Exceeds the limit (4300 digits) for integer string conversion: value has "
  ++ pretty n
  ++ " digits; use sys.set_int_max_str_digits() to increase the limit".

(** X8.  The dimensions ffprobe reports are read back exactly, as far as
    [int] reads them: for two integers of at most 4300 decimal digits,
    [parse_dimensions] applied to their decimal texts on two lines
    returns them; a width of more digits raises the [ValueError] of the
    limit on integer literals. *)
Theorem parse_dimensions_round_trip (width height : Z) :
  (Z.abs width < 10 ^ max_digits -> Z.abs height < 10 ^ max_digits ->
   Ffmpeg.parse_dimensions (probe_report width height) = Ret (width, height))
  /\ (10 ^ max_digits <= Z.abs width ->
      exists n, max_digits < n
                /\ Ffmpeg.parse_dimensions (probe_report width height)
                   = Raise (Exn ValueError (limit_message n))).
Proof.
  unfold Ffmpeg.parse_dimensions. rewrite probe_report_lines. split.
  - intros Hwb Hhb.
    rewrite (proj1 (pretty_Z_read width) Hwb),
      (proj1 (pretty_Z_read height) Hhb).
    reflexivity.
  - intros Hbig.
    destruct (proj2 (pretty_Z_read width) Hbig) as (n & Hn & Hlim & Hint).
    exists n. split; [exact Hn|]. rewrite Hint.
    unfold int_error. rewrite Hlim. reflexivity.
Qed.

Lemma parse_dimensions_round_trip_witness :
  Ffmpeg.parse_dimensions (probe_report 720 1280) = Ret (720, 1280).
Proof.
  apply (proj1 (parse_dimensions_round_trip 720 1280));
    unfold max_digits; apply Z.ltb_lt; vm_compute; reflexivity.
Defined.

End RoundTripFacts.

(** ** The layers of the moviepy composition *)

Module LayerFacts.
Import Float FloatFacts Clip Moviepy LayoutFacts.

(** X9.  The background layer is the blurred source, never resized.  A
    source of at most 1080 pixels in width is used as it is; a wider one
    is cropped to a window of exactly 1080 pixels that lies inside the
    frame and is centred, the left margin being the smaller one when the
    excess is odd.  The window always runs from line 0 to line 1920,
    whatever the height of the source. *)
Theorem background_crop (clip2 : clip) :
  let w := fst (clip_size clip2) in
  (w <= 1080 -> background clip2 = FlImageBlur clip2)
  /\ (1080 < w ->
      exists x1 x2,
        background clip2 = Crop (FlImageBlur clip2) x1 0 x2 1920
        /\ x2 - x1 = 1080
        /\ 0 <= x1 /\ x2 <= w
        /\ 0 <= (w - x2) - x1 <= 1).
Proof.
  cbv zeta. unfold background, target_size. cbn [fst snd clip_size]. split.
  - intros H.
    assert ((fst (clip_size clip2) >? 1080) = false) as ->
      by (rewrite Z.gtb_ltb; apply Z.ltb_ge; lia).
    reflexivity.
  - intros H.
    assert ((fst (clip_size clip2) >? 1080) = true) as ->
      by (apply Z.gtb_lt; lia).
    eexists _, _. split; [reflexivity|].
    pose proof (Z.div_mod (fst (clip_size clip2) - 1080) 2 ltac:(lia)) as Hd.
    pose proof (Z.mod_pos_bound (fst (clip_size clip2) - 1080) 2 ltac:(lia)) as Hm.
    lia.
Qed.

Lemma background_crop_witness :
  exists x1 x2,
    background (VideoFileClip "in.mp4" (1920, 1080))
    = Crop (FlImageBlur (VideoFileClip "in.mp4" (1920, 1080))) x1 0 x2 1920
    /\ x2 - x1 = 1080
    /\ 0 <= x1 /\ x2 <= 1920
    /\ 0 <= (1920 - x2) - x1 <= 1.
Proof.
  apply (proj2 (background_crop (VideoFileClip "in.mp4" (1920, 1080)))).
  cbn. lia.
Defined.

(** X10.  The foreground layer is never higher than 720 pixels: the
    source is resized to the size computed for the canvas and, when that
    is higher than 720, resized again to a height of 720.  Its height is
    the smaller of the computed height and 720. *)
Theorem foreground_height (c : clip) (new_size : Z * Z) :
  snd (clip_size (foreground c new_size)) = Z.min (snd new_size) 720
  /\ (snd new_size <= 720 -> foreground c new_size = Resize c new_size)
  /\ (720 < snd new_size ->
      foreground c new_size = ResizeHeight (Resize c new_size) 720).
Proof.
  unfold foreground. cbn [clip_size].
  destruct (snd new_size >? 720) eqn:E.
  - apply Z.gtb_lt in E. cbn [clip_size].
    destruct new_size as [nw nh]. cbn [snd] in *.
    split; [cbn [snd]; lia|]. split; [lia|reflexivity].
  - rewrite Z.gtb_ltb in E. apply Z.ltb_ge in E. cbn [clip_size].
    split; [lia|]. split; [reflexivity|lia].
Qed.

Local Open Scope Q_scope.

(** The resized sides reach the canvas: one of them is the side of the
    canvas, up to the last pixel. *)
Lemma fit_within_tight (w h : Z) :
  (1 <= w <= 2 ^ 32)%Z -> (1 <= h <= 2 ^ 32)%Z ->
  exists nw nh,
    fit_within w h = Ret (nw, nh)
    /\ (0 <= nw <= 1080)%Z /\ (0 <= nh <= 1920)%Z
    /\ (1079 <= nw \/ 1919 <= nh)%Z.
Proof.
  intros Hw Hh.
  assert (scale_factor w h
          = Ret (py_min (round_pos (inject_Z 1080 / inject_Z w))
                        (round_pos (inject_Z 1920 / inject_Z h)))) as Hs.
  { unfold scale_factor, truediv, target_size. cbn [fst snd].
    assert ((w =? 0)%Z = false) as -> by (apply Z.eqb_neq; lia).
    assert ((h =? 0)%Z = false) as -> by (apply Z.eqb_neq; lia).
    rewrite !round53_pos by (apply quotient_pos; lia). reflexivity. }
  destruct (side_factor 1080 w ltac:(lia) ltac:(lia) ltac:(lia))
    as (Hsw0 & Hsw1 & Hsw2 & _ & _).
  destruct (side_factor 1920 h ltac:(lia) ltac:(lia) ltac:(lia))
    as (Hsh0 & Hsh1 & Hsh2 & _ & _).
  set (sw := round_pos (inject_Z 1080 / inject_Z w)) in *.
  set (sh := round_pos (inject_Z 1920 / inject_Z h)) in *.
  set (s := py_min sw sh) in *.
  pose proof (inject_bounds w 1 (2 ^ 32) Hw) as HW.
  pose proof (inject_bounds h 1 (2 ^ 32) Hh) as HH.
  change (inject_Z 1) with 1 in *.
  change (inject_Z (2 ^ 32)) with 4294967296 in *.
  change (inject_Z 1080) with 1080 in *. change (inject_Z 1920) with 1920 in *.
  set (W := inject_Z w) in *. set (H := inject_Z h) in *.
  assert (0 < s /\ s <= sw /\ s <= sh /\ (s = sw \/ s = sh))
    as (Hs0 & Hs1 & Hs2 & Hs3).
  { unfold s. destruct (py_min_cases sw sh) as [[-> Hle]|[-> Hle]];
      repeat split; auto; lra. }
  assert (0 < W * s) as Hws by nra.
  assert (0 < H * s) as Hhs by nra.
  destruct (resized_side w s Hws) as ([Ha1 Ha2] & Ha3 & Ha4).
  destruct (resized_side h s Hhs) as ([Hb1 Hb2] & Hb3 & Hb4).
  fold W in Ha1, Ha2. fold H in Hb1, Hb2.
  set (a := times w s) in *. set (b := times h s) in *.
  set (nw := py_int a) in *. set (nh := py_int b) in *.
  exists nw, nh.
  split; [unfold fit_within; rewrite Hs; reflexivity|].
  assert (W * s <= 1080 * (1 + eps)) as Hp by nra.
  assert (H * s <= 1920 * (1 + eps)) as Hq by nra.
  unfold eps in *.
  split; [|split].
  - assert (inject_Z nw < inject_Z 1081) as Hu
      by (change (inject_Z 1081) with 1081; nra).
    assert (inject_Z (-1) < inject_Z nw) as Hl
      by (change (inject_Z (-1)) with (-1 # 1); nra).
    rewrite <- Zlt_Qlt in Hu, Hl. lia.
  - assert (inject_Z nh < inject_Z 1921) as Hu
      by (change (inject_Z 1921) with 1921; nra).
    assert (inject_Z (-1) < inject_Z nh) as Hl
      by (change (inject_Z (-1)) with (-1 # 1); nra).
    rewrite <- Zlt_Qlt in Hu, Hl. lia.
  - destruct Hs3 as [E|E].
    + left. assert (inject_Z 1078 < inject_Z nw) as Hl.
      { change (inject_Z 1078) with 1078. fold nw. rewrite E in *.
        set (p := W * sw) in *. nra. }
      rewrite <- Zlt_Qlt in Hl. lia.
    + right. assert (inject_Z 1918 < inject_Z nh) as Hl.
      { change (inject_Z 1918) with 1918. fold nh. rewrite E in *.
        set (q := H * sh) in *. nra. }
      rewrite <- Zlt_Qlt in Hl. lia.
Qed.

Local Close Scope Q_scope.

(** X11.  The outro, whatever its size (sides from 1 to [2^32] pixels),
    is resized so that it fits the canvas and reaches one of its sides
    (within the last pixel), and is shown for five seconds.  It is given
    the offsets that would centre it on the canvas of 1080 by 1920 (the
    margins on both sides differ by at most one pixel), but inside a
    composite that is built without a size: the frame of that composite is
    the resized outro itself, not the canvas.  The offset lies inside
    that frame only for an outro resized to more than 360 pixels in width
    and more than 640 in height. *)
Theorem outro_offsets (outro_clip : clip) :
  1 <= fst (clip_size outro_clip) <= 2 ^ 32 ->
  1 <= snd (clip_size outro_clip) <= 2 ^ 32 ->
  exists nw nh x y,
    fit_within (fst (clip_size outro_clip)) (snd (clip_size outro_clip))
    = Ret (nw, nh)
    /\ centered_outro outro_clip (nw, nh)
       = Composite [SetDuration (SetPosition (Resize outro_clip (nw, nh))
                                             (Pixels x) (Pixels y)) (Some 5)]
    /\ clip_size (centered_outro outro_clip (nw, nh)) = (nw, nh)
    /\ (1079 <= nw \/ 1919 <= nh)
    /\ 0 <= x /\ x + nw <= 1080 /\ 0 <= 1080 - nw - 2 * x <= 1
    /\ 0 <= y /\ y + nh <= 1920 /\ 0 <= 1920 - nh - 2 * y <= 1
    /\ (x < nw <-> 360 < nw) /\ (y < nh <-> 640 < nh).
Proof.
  intros Hw Hh.
  destruct (fit_within_tight _ _ Hw Hh) as (nw & nh & Hfit & Hnw & Hnh & Htight).
  exists nw, nh. eexists _, _. split; [exact Hfit|].
  split; [reflexivity|]. split; [reflexivity|]. split; [exact Htight|].
  unfold target_size. cbn [clip_size fst snd].
  pose proof (Z.div_mod (1080 - nw) 2 ltac:(lia)) as Hd1.
  pose proof (Z.mod_pos_bound (1080 - nw) 2 ltac:(lia)) as Hm1.
  pose proof (Z.div_mod (1920 - nh) 2 ltac:(lia)) as Hd2.
  pose proof (Z.mod_pos_bound (1920 - nh) 2 ltac:(lia)) as Hm2.
  lia.
Qed.

Lemma outro_offsets_witness :
  exists nw nh x y,
    fit_within (fst (clip_size (VideoFileClip "outro.mp4" (1920, 1080))))
               (snd (clip_size (VideoFileClip "outro.mp4" (1920, 1080))))
    = Ret (nw, nh)
    /\ centered_outro (VideoFileClip "outro.mp4" (1920, 1080)) (nw, nh)
       = Composite [SetDuration
                      (SetPosition (Resize (VideoFileClip "outro.mp4" (1920, 1080))
                                           (nw, nh))
                                   (Pixels x) (Pixels y)) (Some 5)]
    /\ clip_size (centered_outro (VideoFileClip "outro.mp4" (1920, 1080)) (nw, nh))
       = (nw, nh)
    /\ (1079 <= nw \/ 1919 <= nh)
    /\ 0 <= x /\ x + nw <= 1080 /\ 0 <= 1080 - nw - 2 * x <= 1
    /\ 0 <= y /\ y + nh <= 1920 /\ 0 <= 1920 - nh - 2 * y <= 1
    /\ (x < nw <-> 360 < nw) /\ (y < nh <-> 640 < nh).
Proof.
  apply (outro_offsets (VideoFileClip "outro.mp4" (1920, 1080))); cbn; lia.
Defined.

(** For the outro of 1920 by 1080 pixels: resized to 1080 by 607, it is
    put 656 lines down in a frame of 607 lines. *)
Example landscape_outro_offset :
  fit_within 1920 1080 = Ret (1080, 607)
  /\ centered_outro (VideoFileClip "outro.mp4" (1920, 1080)) (1080, 607)
     = Composite [SetDuration
                    (SetPosition (Resize (VideoFileClip "outro.mp4" (1920, 1080))
                                         (1080, 607))
                                 (Pixels 0) (Pixels 656)) (Some 5)]
  /\ clip_size (centered_outro (VideoFileClip "outro.mp4" (1920, 1080)) (1080, 607))
     = (1080, 607).
Proof. split; [vm_compute; reflexivity|]. split; reflexivity. Qed.

End LayerFacts.

(** ** The video source and the fetchers *)

Module SourceFacts.
Import Rt Logic.

Ltac run := FetcherFacts.run_monad.




(** An environment whose search answers as told. *)
Definition with_search (E : Env) (answer : outcome search_response) : Env :=
  {| SCRIPT_DIR := SCRIPT_DIR E; API_KEY := API_KEY E; CHANNEL_ID := CHANNEL_ID E;
     api_search := fun _ _ => answer; api_channel := api_channel E;
     http_content := http_content E; shuffle := shuffle E;
     yt_new := yt_new E; yt_title := yt_title E; yt_video_id := yt_video_id E;
     yt_length := yt_length E; yt_first_stream := yt_first_stream E;
     stream_download := stream_download E; run_process := run_process E;
     makedirs := makedirs E; write_file := write_file E;
     load_video := load_video E; load_image := load_image E;
     render_text := render_text E; write_video := write_video E |}.

Definition connection_error : exn :=
  Exn RequestException "HTTPSConnectionPool: Max retries exceeded".

Definition offline : Env :=
  with_search CompositorFacts.studio (Raise connection_error).



End SourceFacts.

(** ** The orchestrator of the moviepy variant *)

Module MainFlowFacts.
Import Rt Logic.

Ltac run := FetcherFacts.run_monad.

(** An environment whose channel lookup answers as told. *)
Definition with_channel (E : Env) (answer : outcome channel_response) : Env :=
  {| SCRIPT_DIR := SCRIPT_DIR E; API_KEY := API_KEY E; CHANNEL_ID := CHANNEL_ID E;
     api_search := api_search E; api_channel := fun _ _ => answer;
     http_content := http_content E; shuffle := shuffle E;
     yt_new := yt_new E; yt_title := yt_title E; yt_video_id := yt_video_id E;
     yt_length := yt_length E; yt_first_stream := yt_first_stream E;
     stream_download := stream_download E; run_process := run_process E;
     makedirs := makedirs E; write_file := write_file E;
     load_video := load_video E; load_image := load_image E;
     render_text := render_text E; write_video := write_video E |}.

(** The answers of the channel lookup that give no logo: no [items], an
    exception of the [requests] library, an empty URL. *)
Definition no_logo (answer : outcome channel_response) : Prop :=
  answer = Ret ChannelNoItems
  \/ (exists msg, answer = Raise (Exn RequestException msg))
  \/ answer = Ret (ChannelLogo EmptyString).


Definition no_channel : Env := with_channel CompositorFacts.studio (Ret ChannelNoItems).


(** *** What [main_flow] does at most, and what it never does *)

(** Calls of the moviepy compositor: loading a clip or an image,
    rendering the title, writing a video. *)
Definition is_rendering (c : call) : bool :=
  match c with
  | LoadVideo _ | LoadImage _ | RenderText _ | WriteVideo _ _ _ => true
  | _ => false
  end.

(** Calls of [requests.get]: the lookups of the data API and the
    download of the logo.  What pytubefix fetches on its own shows as calls
    of other kinds ([YouTubeQuery], [StreamDownload]). *)
Definition is_request (c : call) : bool :=
  match c with
  | HttpGet _ => true
  | _ => false
  end.

(** The lookup of the title of a candidate, made once per candidate. *)
Definition is_candidate (c : call) : bool :=
  match c with
  | YouTubeQuery _ what => String.eqb what "title"
  | _ => false
  end.

Definition count (p : call -> bool) (l : list call) : nat :=
  length (List.filter p l).

Definition without (p : call -> bool) (c : call) : bool := negb (p c).

(** [spends p n m]: whatever the world, [m] makes at most [n] calls that
    satisfy [p]. *)
Definition spends {A} (p : call -> bool) (n : nat) (m : M A) : Prop :=
  forall w, exists added,
    since (calls w) (calls (snd (m w))) added /\ (count p added <= n)%nat.

Section Budget.
Context {A B : Type}.
Variable p : call -> bool.

Lemma count_app (l m : list call) : count p (l ++ m) = (count p l + count p m)%nat.
Proof. unfold count. now rewrite List.filter_app, length_app. Qed.

Lemma count_without (l : list call) :
  forallb (without p) l = true -> count p l = 0%nat.
Proof.
  unfold count, without. induction l as [|c l IH]; [reflexivity|].
  cbn [forallb List.filter]. intros H. apply andb_prop in H as [Hc Hl].
  apply negb_true_iff in Hc. rewrite Hc. auto.
Qed.

Lemma spends_quiet (R : outcome A -> Prop) (m : M A) :
  behaves CompositorFacts.any_files (without p) R m -> spends p 0 m.
Proof.
  intros H w. destruct (H w I) as (added & H1 & H2 & _).
  exists added. split; [exact H1|]. now rewrite count_without.
Qed.

Lemma spends_weaken (n n' : nat) (m : M A) :
  spends p n m -> (n <= n')%nat -> spends p n' m.
Proof.
  intros H Hn w. destruct (H w) as (added & H1 & H2).
  exists added. split; [exact H1|lia].
Qed.

Lemma spends_external (c : call) (oracle : World -> outcome A) :
  spends p 1 (external c oracle).
Proof.
  intros w. exists [c]. split; [reflexivity|].
  unfold count. cbn [List.filter]. destruct (p c); cbn [length]; lia.
Qed.

Lemma spends_bind (n1 n2 : nat) (m : M A) (k : A -> M B) :
  spends p n1 m -> (forall a, spends p n2 (k a)) ->
  spends p (n1 + n2) (bind m k).
Proof.
  intros Hm Hk w. unfold bind.
  destruct (Hm w) as (added & H1 & H2).
  destruct (m w) as [[a|e] w']; cbn [fst snd] in *.
  - destruct (Hk a w') as (added' & H1' & H2').
    exists (added ++ added')%list.
    split; [eapply since_trans; eauto|]. rewrite count_app. lia.
  - exists added. split; [exact H1|lia].
Qed.

Lemma spends_try (n1 n2 : nat) (m : M A) (catches : exn -> bool)
    (h : exn -> M A) :
  spends p n1 m -> (forall e, spends p n2 (h e)) ->
  spends p (n1 + n2) (try_except m catches h).
Proof.
  intros Hm Hh w. unfold try_except.
  destruct (Hm w) as (added & H1 & H2).
  destruct (m w) as [[a|e] w']; cbn [fst snd] in *.
  - exists added. split; [exact H1|lia].
  - destruct (catches e).
    + destruct (Hh e w') as (added' & H1' & H2').
      exists (added ++ added')%list.
      split; [eapply since_trans; eauto|]. rewrite count_app. lia.
    + exists added. cbn [fst snd]. split; [exact H1|lia].
Qed.

End Budget.

(** One step of a proof that a computation of the moviepy variant only
    makes calls accepted by the predicate at hand. *)
Ltac flow_step :=
  lazymatch goal with
  | |- behaves _ _ _ (Moviepy.call_trim_and_resize_video _ _ _ None _ _) =>
      unfold Moviepy.call_trim_and_resize_video
  | |- behaves _ _ _ (Moviepy.download_and_merge _ _ _) =>
      unfold Moviepy.download_and_merge
  | |- behaves _ _ _ (Moviepy.download_video _ _ _) =>
      unfold Moviepy.download_video
  | |- behaves _ _ _ (Moviepy.merge_video_audio _ _ _ _) =>
      unfold Moviepy.merge_video_audio
  | |- behaves _ _ _ (Moviepy.fetch_random_video _) =>
      unfold Moviepy.fetch_random_video, Ffmpeg.fetch_random_video
  | |- behaves _ _ _ (Moviepy.fetch_channel_logo _) =>
      unfold Moviepy.fetch_channel_logo
  | |- behaves _ _ _ (Moviepy.download_logo _ _ _) =>
      unfold Moviepy.download_logo
  | _ => CompositorFacts.hoare_step ltac:(intros; exact I)
  end.

Ltac flow := repeat flow_step; try exact I.

Lemma trial_loop_never_renders (E : Env) (remaining : nat) :
  behaves CompositorFacts.any_files (without is_rendering) anything
    (Moviepy.trial_loop E remaining).
Proof.
  induction remaining as [|n IH]; cbn [Moviepy.trial_loop].
  - now apply behaves_ret.
  - repeat first [exact IH | flow_step]. all: exact I.
Qed.

Lemma main_flow_never_renders (E : Env) :
  behaves CompositorFacts.any_files (without is_rendering) anything
    (Moviepy.main_flow E).
Proof.
  unfold Moviepy.main_flow.
  repeat first [apply trial_loop_never_renders | flow_step]. all: exact I.
Qed.

Ltac quiet := solve [eapply spends_quiet with (R := anything); flow].

Lemma fetch_random_video_requests (E : Env) :
  spends is_request 1 (Moviepy.fetch_random_video E).
Proof.
  unfold Moviepy.fetch_random_video, Ffmpeg.fetch_random_video.
  apply (spends_try is_request 1 0).
  - unfold mbind, M_bind. apply (spends_bind is_request 1 0).
    + apply spends_external.
    + intros data. quiet.
  - intros e. quiet.
Qed.

Lemma trial_loop_requests (E : Env) (remaining : nat) :
  spends is_request remaining (Moviepy.trial_loop E remaining).
Proof.
  induction remaining as [|n IH]; cbn [Moviepy.trial_loop].
  - quiet.
  - unfold mbind, M_bind.
    apply (spends_bind is_request 1 n); [apply fetch_random_video_requests|].
    intros video_urls. apply (spends_bind is_request 0 n).
    + quiet.
    + intros [|]; [eapply spends_weaken; [quiet|lia]|].
      apply (spends_bind is_request 0 n); [quiet|]. intros _. exact IH.
Qed.

Lemma trial_loop_candidates (E : Env) (remaining : nat) :
  spends is_candidate remaining (Moviepy.trial_loop E remaining).
Proof.
  induction remaining as [|n IH]; cbn [Moviepy.trial_loop].
  - quiet.
  - unfold mbind, M_bind.
    apply (spends_bind is_candidate 0 (S n)); [quiet|].
    intros video_urls. apply (spends_bind is_candidate 1 n).
    + destruct video_urls as [[|video_url more]|];
        try (eapply spends_weaken; [quiet|lia]).
      apply (spends_bind is_candidate 0 1); [quiet|]. intros _.
      apply (spends_bind is_candidate 0 1); [quiet|]. intros video_id.
      apply (spends_bind is_candidate 1 0); [apply spends_external|].
      intros video_title. quiet.
    + intros [|]; [eapply spends_weaken; [quiet|lia]|].
      apply (spends_bind is_candidate 0 n); [quiet|]. intros _. exact IH.
Qed.

Lemma main_flow_requests (E : Env) : spends is_request 7 (Moviepy.main_flow E).
Proof.
  unfold Moviepy.main_flow, mbind, M_bind.
  apply (spends_bind is_request 0 7); [quiet|]. intros have_logo.
  apply (spends_bind is_request 2 5).
  - destruct have_logo; [eapply spends_weaken; [quiet|lia]|].
    apply (spends_bind is_request 1 1).
    + unfold Moviepy.fetch_channel_logo.
      apply (spends_try is_request 1 0); [|intros e; quiet].
      unfold mbind, M_bind. apply (spends_bind is_request 1 0);
        [apply spends_external|intros data; quiet].
    + intros logo_url. destruct (Moviepy.given logo_url) as [u|];
        [|eapply spends_weaken; [quiet|lia]].
      apply (spends_bind is_request 1 0); [|intros _; quiet].
      unfold Moviepy.download_logo.
      apply (spends_try is_request 1 0); [|intros e; quiet].
      unfold mbind, M_bind. apply (spends_bind is_request 1 0);
        [apply spends_external|intros content; quiet].
  - intros [|]; [|eapply spends_weaken; [quiet|lia]].
    apply (spends_bind is_request 5 0); [|intros _; quiet].
    apply (trial_loop_requests E 5).
Qed.

Lemma main_flow_candidates (E : Env) : spends is_candidate 5 (Moviepy.main_flow E).
Proof.
  unfold Moviepy.main_flow, mbind, M_bind.
  apply (spends_bind is_candidate 0 5); [quiet|]. intros have_logo.
  apply (spends_bind is_candidate 0 5); [quiet|].
  intros [|]; [|eapply spends_weaken; [quiet|lia]].
  apply (spends_bind is_candidate 5 0); [|intros _; quiet].
  apply (trial_loop_candidates E 5).
Qed.

(** X16.  Whatever the collaborators do, one run of [main_flow] calls
    [requests.get] at most seven times (twice for the logo, once for the
    search of each of at most five trials), looks up the title of no more
    than five candidates, and never reaches the compositor: no clip or
    image is loaded, no title rendered, no video written. *)
Theorem main_flow_bounds (E : Env) (w : World) :
  exists added,
    since (calls w) (calls (snd (Moviepy.main_flow E w))) added
    /\ (count is_request added <= 7)%nat
    /\ (count is_candidate added <= 5)%nat
    /\ count is_rendering added = 0%nat.
Proof.
  destruct (main_flow_requests E w) as (added & Hs & Hreq).
  destruct (main_flow_candidates E w) as (added' & Hs' & Hcand).
  destruct (main_flow_never_renders E w I) as (added'' & Hs'' & Hquiet & _).
  unfold since in *. rewrite Hs in Hs', Hs''.
  apply app_inv_head in Hs', Hs''. subst added' added''.
  exists added. split; [exact Hs|]. split; [exact Hreq|].
  split; [exact Hcand|]. now apply count_without.
Qed.

End MainFlowFacts.

(** ** The fetchers: what [None] means, and the variant without a cache *)

Module DownloadFacts.
Import Rt Logic.

Ltac run := FetcherFacts.run_monad.
Ltac cases := FetcherFacts.case_oracle.

Ltac downloads :=
  repeat match goal with
  | |- context [stream_download ?E0 ?s ?dir ?f ?w0] =>
      destruct (stream_download E0 s dir f w0) as [[?|?] ?] eqn:?;
      cbn [files log console calls fst snd]
  end.

(** The entry every call of [download_video] starts its log with. *)
Definition attempt (video_id : string) : level * string :=
  (DEBUG, "Attempting to download video from URL: " ++ Ffmpeg.watch_url video_id).

(** X17.  [download_video] never raises, in either variant, whatever the
    collaborators do, and a [None] is always explained in the log: after
    the entry of the attempt comes exactly one more entry, an error (no
    suitable stream, or an exception of a collaborator) or, in the ffmpeg
    variant, the information that the video is too short. *)
Theorem download_video_explains_none (E : Env) (w : World)
    (video_id title : string) :
  (exists r w',
     Ffmpeg.download_video E video_id title w = (Ret r, w')
     /\ (r = None ->
         exists lvl msg,
           since (log w) (log w') [attempt video_id; (lvl, msg)]
           /\ (lvl = INFO \/ lvl = ERROR)))
  /\ (exists r w',
        Moviepy.download_video E video_id title w = (Ret r, w')
        /\ (r = None ->
            exists msg,
              since (log w) (log w') [attempt video_id; (ERROR, msg)])).
Proof.
  split.
  - unfold Ffmpeg.download_video. run. repeat cases; downloads.
    all: eexists _, _; (split; [reflexivity|]); intros Hnone;
      try discriminate Hnone; eexists _, _; cbn [log]; unfold since, attempt;
      rewrite <- app_assoc; (split; [reflexivity|auto]).
  - unfold Moviepy.download_video. run. repeat cases; downloads.
    all: eexists _, _; (split; [reflexivity|]); intros Hnone;
      try discriminate Hnone; eexists; cbn [log]; unfold since, attempt;
      rewrite <- app_assoc; reflexivity.
Qed.

(** X18.  The moviepy variant has neither a duration gate nor a cache:
    when the streams are found and the downloads succeed,
    [download_video] downloads both streams whatever is on disk and
    however short the video is (the duration is not even asked for), and
    [download_and_merge] always goes on to start the ffmpeg merge. *)
Theorem moviepy_fetches_again (E : Env) (w : World) (video_id title : string)
    (vs aus : stream) :
  (forall w', yt_new E (Ffmpeg.watch_url video_id) w' = Ret tt) ->
  (forall w', yt_first_stream E (Ffmpeg.watch_url video_id) VideoOnly w'
              = Ret (Some vs)) ->
  (forall w', yt_first_stream E (Ffmpeg.watch_url video_id) AudioOnly w'
              = Ret (Some aus)) ->
  (forall s dir f w', fst (stream_download E s dir f w') = Ret tt) ->
  let fetched :=
    [YouTubeQuery (Ffmpeg.watch_url video_id) "YouTube";
     YouTubeQuery (Ffmpeg.watch_url video_id) "video stream";
     YouTubeQuery (Ffmpeg.watch_url video_id) "audio stream";
     StreamDownload vs (Moviepy.YT_DOWNLOADS_DIR E) (Moviepy.video_file title);
     StreamDownload aus (Moviepy.YT_DOWNLOADS_DIR E) (Moviepy.audio_file title)] in
  (exists w',
     Moviepy.download_video E video_id title w
     = (Ret (Some (Moviepy.video_path E title, Moviepy.audio_path E title)), w')
     /\ since (calls w) (calls w') fetched)
  /\ since (calls w) (calls (snd (Moviepy.download_and_merge E video_id title w)))
       (fetched
        ++ [Subprocess (Moviepy.merge_command (Moviepy.video_path E title)
                          (Moviepy.audio_path E title)
                          (Moviepy.merged_path E title))]).
Proof.
  intros Hnew Hvs Haus Hdl. cbv zeta.
  assert (exists w',
            Moviepy.download_video E video_id title w
            = (Ret (Some (Moviepy.video_path E title, Moviepy.audio_path E title)), w')
            /\ since (calls w) (calls w')
                 [YouTubeQuery (Ffmpeg.watch_url video_id) "YouTube";
                  YouTubeQuery (Ffmpeg.watch_url video_id) "video stream";
                  YouTubeQuery (Ffmpeg.watch_url video_id) "audio stream";
                  StreamDownload vs (Moviepy.YT_DOWNLOADS_DIR E)
                    (Moviepy.video_file title);
                  StreamDownload aus (Moviepy.YT_DOWNLOADS_DIR E)
                    (Moviepy.audio_file title)]) as (w' & Hdv & Hcalls).
  { unfold Moviepy.download_video. run. rewrite Hnew, Hvs, Haus.
    repeat match goal with
    | |- context [stream_download E ?s ?dir ?f ?w0] =>
        let H := fresh "Hd" in
        pose proof (Hdl s dir f w0) as H;
        destruct (stream_download E s dir f w0) as [? ?];
        cbn [fst] in H; subst; cbn [files log console calls fst snd]
    end.
    eexists. split; [reflexivity|]. cbn [calls]. unfold since.
    rewrite <- !app_assoc. reflexivity. }
  split; [eauto|].
  unfold Moviepy.download_and_merge, mbind, M_bind, bind at 1. rewrite Hdv.
  unfold Moviepy.merge_video_audio. run.
  unfold since in *. rewrite Hcalls.
  destruct (run_process E _ w') as [[out|e] fs]; cbn [fst snd calls];
    [|destruct (is_class CalledProcessError e)]; cbn [fst snd calls];
    rewrite <- !app_assoc; reflexivity.
Qed.

(** A video of thirty seconds, and a disk that already holds its video
    download. *)
Definition half_minute : Env := Samples.sample_env 30 (1920, 1080) Samples.tools_work.

Definition already_there : World :=
  Samples.world_with {[Moviepy.video_path half_minute "24 Modern Ui"]}.

Lemma moviepy_fetches_again_witness :
  let vs := {| stream_url := Ffmpeg.watch_url "JK-B-CT34EU"; stream_is := VideoOnly |} in
  let aus := {| stream_url := Ffmpeg.watch_url "JK-B-CT34EU"; stream_is := AudioOnly |} in
  let fetched :=
    [YouTubeQuery (Ffmpeg.watch_url "JK-B-CT34EU") "YouTube";
     YouTubeQuery (Ffmpeg.watch_url "JK-B-CT34EU") "video stream";
     YouTubeQuery (Ffmpeg.watch_url "JK-B-CT34EU") "audio stream";
     StreamDownload vs (Moviepy.YT_DOWNLOADS_DIR half_minute)
       (Moviepy.video_file "24 Modern Ui");
     StreamDownload aus (Moviepy.YT_DOWNLOADS_DIR half_minute)
       (Moviepy.audio_file "24 Modern Ui")] in
  (exists w',
     Moviepy.download_video half_minute "JK-B-CT34EU" "24 Modern Ui" already_there
     = (Ret (Some (Moviepy.video_path half_minute "24 Modern Ui",
                   Moviepy.audio_path half_minute "24 Modern Ui")), w')
     /\ since (calls already_there) (calls w') fetched)
  /\ since (calls already_there)
       (calls (snd (Moviepy.download_and_merge half_minute "JK-B-CT34EU"
                      "24 Modern Ui" already_there)))
       (fetched
        ++ [Subprocess (Moviepy.merge_command
                          (Moviepy.video_path half_minute "24 Modern Ui")
                          (Moviepy.audio_path half_minute "24 Modern Ui")
                          (Moviepy.merged_path half_minute "24 Modern Ui"))]).
Proof.
  apply (moviepy_fetches_again half_minute already_there
           "JK-B-CT34EU" "24 Modern Ui").
  - intros w'. reflexivity.
  - intros w'. reflexivity.
  - intros w'. reflexivity.
  - intros s dir f w'. reflexivity.
Defined.

End DownloadFacts.

(** ** Failures inside the compositor of the ffmpeg variant *)

Module StageFacts.
Import Rt Ffmpeg Logic.

Ltac unfold_run := CompositorFacts.unfold_run.
Ltac simp_run := CompositorFacts.simp_run.

(** The collaborators never create the concatenated output. *)
Definition never_made (E : Env) (path : string) : Prop :=
  (forall cmd w, path ∉ files w -> path ∉ snd (run_process E cmd w))
  /\ (forall p c w, path ∉ files w -> path ∉ snd (write_file E p c w)).

Definition absent (path : string) (fs : gset string) : Prop := path ∉ fs.

Ltac absent_step Hrun Hwrite :=
  lazymatch goal with
  | |- behaves _ _ _ (stage _ _ _ _ _ _) => unfold stage
  | |- behaves _ _ _ (get_video_dimensions _ _) => unfold get_video_dimensions
  | _ => CompositorFacts.hoare_step
           ltac:(intros ? ?; first [apply Hrun | apply Hwrite]; assumption)
  end.

Lemma output_stays_absent (E : Env) input_path title outro_path duration
    watermark_path overwrite :
  never_made E (concat_output_path title) ->
  behaves (absent (concat_output_path title)) CompositorFacts.any_call anything
    (trim_and_resize_video E input_path title outro_path duration
       watermark_path overwrite).
Proof.
  intros [Hrun Hwrite]. unfold trim_and_resize_video.
  repeat absent_step Hrun Hwrite. all: exact I.
Qed.

(** X19.  A failure of the concatenation with the outro does not change
    the result: when every other collaborator succeeds and the ffmpeg run
    of the concatenation exits with an error, [trim_and_resize_video]
    still returns [True]; and when the concatenated output was not on
    disk and no collaborator makes it, it is still missing at the end. *)
Theorem concat_failure_ignored (E : Env) (w : World)
    (input_path title outro_path : string) (duration : Z)
    (watermark_path : option string) (overwrite : bool) (msg : string) :
  (forall w', makedirs E output_dir w' = Ret tt) ->
  (forall cmd w', cmd <> cmd_concat title ->
                  exists out, fst (run_process E cmd w') = Ret out) ->
  (forall p w', exists out dims,
      fst (run_process E (cmd_probe p) w') = Ret out
      /\ parse_dimensions out = Ret dims) ->
  (forall p c w', fst (write_file E p c w') = Ret tt) ->
  (forall w', fst (run_process E (cmd_concat title) w')
              = Raise (Exn CalledProcessError msg)) ->
  let r := trim_and_resize_video E input_path title outro_path duration
             watermark_path overwrite w in
  fst r = Ret (PyBool true)
  /\ (concat_output_path title ∉ files w ->
      never_made E (concat_output_path title) ->
      concat_output_path title ∉ files (snd r)).
Proof.
  intros Hmk Hrun Hprobe Hwrite Hfail. cbv zeta. split.
  - destruct (CompositorFacts.break_text_returns title) as [formatted Hbt].
    unfold_run. simp_run. rewrite Hmk, Hbt. simp_run.
    repeat match goal with
    | |- context [bool_decide ?P] => destruct (bool_decide P); simp_run
    | |- context [run_process E (cmd_probe ?p) ?W] =>
        let out := fresh "out" in
        let dims := fresh "dims" in
        let Ho := fresh "Ho" in
        let Hd := fresh "Hd" in
        destruct (Hprobe p W) as (out & dims & Ho & Hd);
        destruct (run_process E (cmd_probe p) W) as [? ?];
        cbn [fst snd] in Ho; subst; rewrite Hd; simp_run
    | |- context [run_process E (cmd_concat title) ?W] =>
        let Ho := fresh "Ho" in
        pose proof (Hfail W) as Ho;
        destruct (run_process E (cmd_concat title) W) as [? ?];
        cbn [fst snd] in Ho; subst; simp_run
    | |- context [run_process E ?cmd ?W] =>
        let out := fresh "out" in
        let Ho := fresh "Ho" in
        destruct (Hrun cmd W ltac:(discriminate)) as (out & Ho);
        destruct (run_process E cmd W) as [? ?];
        cbn [fst snd] in Ho; subst; simp_run
    | |- context [write_file E ?p ?c ?W] =>
        let Ho := fresh "Ho" in
        pose proof (Hwrite p c W) as Ho;
        destruct (write_file E p c W) as [? ?];
        cbn [fst snd] in Ho; subst; simp_run
    end.
    all: reflexivity.
  - intros Habsent Hnever.
    destruct (output_stays_absent E input_path title outro_path duration
                watermark_path overwrite Hnever w Habsent)
      as (_ & _ & _ & H & _).
    exact H.
Qed.

(** ffmpeg fails on the concatenation of the sample title and works on
    everything else. *)
Definition concat_fails (cmd : list string) : outcome string :=
  if bool_decide (cmd = cmd_concat CompositorFacts.sample_title)
  then Raise (Exn CalledProcessError "Command returned non-zero exit status 1.")
  else Samples.tools_work cmd.

Definition no_outro : Env := Samples.sample_env 300 (1920, 1080) concat_fails.

Lemma concat_failure_ignored_witness :
  let r := trim_and_resize_video no_outro "in.mp4" CompositorFacts.sample_title
             "outro.mp4" 55 None false Samples.empty_world in
  fst r = Ret (PyBool true)
  /\ (concat_output_path CompositorFacts.sample_title ∉ files Samples.empty_world ->
      never_made no_outro (concat_output_path CompositorFacts.sample_title) ->
      concat_output_path CompositorFacts.sample_title ∉ files (snd r)).
Proof.
  apply (concat_failure_ignored no_outro Samples.empty_world "in.mp4"
           CompositorFacts.sample_title "outro.mp4" 55 None false
           "Command returned non-zero exit status 1.").
  - intros w'. reflexivity.
  - intros cmd w' Hcmd. cbn [no_outro Samples.sample_env run_process fst].
    unfold concat_fails. rewrite bool_decide_eq_false_2 by exact Hcmd.
    unfold Samples.tools_work.
    destruct (String.eqb (Samples.program cmd) "ffprobe"); eauto.
  - intros p w'. exists Samples.probe_output, (720, 1280). split; reflexivity.
  - intros p c w'. reflexivity.
  - intros w'. cbn [no_outro Samples.sample_env run_process fst].
    unfold concat_fails. now rewrite bool_decide_eq_true_2.
Defined.

(** What the run of that title leaves behind: the three stage outputs,
    not the concatenated one, and [True] all the same. *)
Example concat_failure_on_disk :
  let r := trim_and_resize_video no_outro "in.mp4" CompositorFacts.sample_title
             "outro.mp4" 55 None false Samples.empty_world in
  fst r = Ret (PyBool true)
  /\ bool_decide (final_output_path CompositorFacts.sample_title ∈ files (snd r)) = true
  /\ bool_decide (concat_output_path CompositorFacts.sample_title ∈ files (snd r)) = false
  /\ List.last (console (snd r)) EmptyString
     = "Error while concatenating videos. Error: Command returned non-zero exit status 1.".
Proof. cbv zeta. repeat split; vm_compute; reflexivity. Qed.

(** X20.  A failure of the first probe aborts the composition.  With the
    blurred background on disk, when ffprobe raises or prints something
    that is not two integers, [trim_and_resize_video] returns [None]
    after two external calls (the directory and the probe): no later
    stage runs, and the last log entry is the error of the outer
    handler, carrying the message of the exception (for a line that
    [int] refuses, the message that [int] gives: the line as [repr]
    shows it, or the limit on digits). *)
Theorem probe_failure_aborts (E : Env) (w : World)
    (input_path title outro_path : string) (duration : Z)
    (watermark_path : option string) (overwrite : bool) (e : exn) :
  (forall w', makedirs E output_dir w' = Ret tt) ->
  blurry_bg_path title ∈ files w ->
  (forall w',
      fst (run_process E (cmd_probe (blurry_bg_path title)) w') = Raise e
      \/ exists out,
           fst (run_process E (cmd_probe (blurry_bg_path title)) w') = Ret out
           /\ parse_dimensions out = Raise e) ->
  let r := trim_and_resize_video E input_path title outro_path duration
             watermark_path overwrite w in
  fst r = Ret PyNone
  /\ since (calls w) (calls (snd r))
       [Makedirs output_dir; Subprocess (cmd_probe (blurry_bg_path title))]
  /\ List.last (log (snd r)) (DEBUG, EmptyString)
     = (ERROR, "Error processing video " ++ title ++ ": " ++ exn_msg e).
Proof.
  intros Hmk Hbg Hprobe. cbv zeta.
  unfold_run. simp_run. rewrite Hmk. simp_run.
  rewrite bool_decide_eq_true_2 by exact Hbg. simp_run.
  match goal with |- context [run_process E ?cmd ?W] =>
    destruct (Hprobe W) as [Hf|(out & Hf & Hparse)];
    destruct (run_process E cmd W) as [r fs]
  end; cbn [fst snd] in Hf; subst r; simp_run.
  - destruct (is_class CalledProcessError e); simp_run;
      [|destruct (is_class ValueError e); simp_run];
      (split; [reflexivity|]);
      (split; [unfold since; rewrite <- ?app_assoc; reflexivity
              |apply last_last]).
  - rewrite Hparse. simp_run.
    destruct (is_class CalledProcessError e); simp_run;
      [|destruct (is_class ValueError e); simp_run];
      (split; [reflexivity|]);
      (split; [unfold since; rewrite <- ?app_assoc; reflexivity
              |apply last_last]).
Qed.

(** ffprobe prints a single line. *)
Definition one_line (cmd : list string) : outcome string := Ret "1280".

Definition odd_probe : Env := Samples.sample_env 300 (1920, 1080) one_line.

Definition background_done : World :=
  Samples.world_with {[blurry_bg_path CompositorFacts.sample_title]}.

Lemma probe_failure_aborts_witness :
  let r := trim_and_resize_video odd_probe "in.mp4" CompositorFacts.sample_title
             "outro.mp4" 55 None false background_done in
  fst r = Ret PyNone
  /\ since (calls background_done) (calls (snd r))
       [Makedirs output_dir;
        Subprocess (cmd_probe (blurry_bg_path CompositorFacts.sample_title))]
  /\ List.last (log (snd r)) (DEBUG, EmptyString)
     = (ERROR, "Error processing video " ++ CompositorFacts.sample_title ++ ": "
               ++ exn_msg (Exn ValueError "Unexpected output from ffprobe")).
Proof.
  apply (probe_failure_aborts odd_probe background_done "in.mp4"
           CompositorFacts.sample_title "outro.mp4" 55 None false
           (Exn ValueError "Unexpected output from ffprobe")).
  - intros w'. reflexivity.
  - cbn [background_done Samples.world_with files]. set_solver.
  - intros w'. right. exists "1280". split; reflexivity.
Defined.

(** The message of a probe that cannot be read shows the offending line
    as [repr] does: a tab is escaped, a text with an apostrophe is put
    between double quotes. *)
Example probe_message_quoted :
  parse_dimensions ("12" ++ String (ascii_of_N 9) "80" ++ PyStr.nl
                    ++ "720" ++ PyStr.nl)
  = Raise (Exn ValueError "invalid literal for int() with base 10: '12\t80'")
  /\ parse_dimensions ("it's" ++ PyStr.nl ++ "720" ++ PyStr.nl)
     = Raise (Exn ValueError
                ("invalid literal for int() with base 10: "
                 ++ String (ascii_of_N 34)
                      ("it's" ++ String (ascii_of_N 34) EmptyString))).
Proof. split; vm_compute; reflexivity. Qed.

End StageFacts.

(** ** The orchestrator of the ffmpeg variant *)

Module MainFacts.
Import Rt Logic MainFlowFacts.

Ltac main_step :=
  lazymatch goal with
  | |- behaves _ _ _ (Ffmpeg.download_and_merge _ _ _) =>
      unfold Ffmpeg.download_and_merge
  | |- behaves _ _ _ (Ffmpeg.download_video _ _ _) =>
      unfold Ffmpeg.download_video
  | |- behaves _ _ _ (Ffmpeg.merge_video_audio _ _ _ _) =>
      unfold Ffmpeg.merge_video_audio
  | |- behaves _ _ _ (Ffmpeg.trim_and_resize_video _ _ _ _ _ _ _) =>
      unfold Ffmpeg.trim_and_resize_video
  | |- behaves _ _ _ (Ffmpeg.stage _ _ _ _ _ _) => unfold Ffmpeg.stage
  | |- behaves _ _ _ (Ffmpeg.get_video_dimensions _ _) =>
      unfold Ffmpeg.get_video_dimensions
  | _ => CompositorFacts.hoare_step ltac:(intros; exact I)
  end.

(** Past the search, [main] talks to pytubefix, ffmpeg and the disk
    only. *)
Lemma main_loop_no_request (E : Env) (video_urls : list string) :
  behaves CompositorFacts.any_files (without is_request) anything
    (Ffmpeg.main_loop E video_urls).
Proof.
  induction video_urls as [|url more IH]; cbn [Ffmpeg.main_loop].
  - now apply behaves_ret.
  - repeat first [exact IH | main_step]. all: exact I.
Qed.

Lemma main_requests (E : Env) : spends is_request 1 (Ffmpeg.main E).
Proof.
  unfold Ffmpeg.main.
  apply (spends_try is_request 1 0).
  - unfold mbind, M_bind. apply (spends_bind is_request 1 0).
    + unfold Ffmpeg.fetch_random_video.
      apply (spends_try is_request 1 0).
      * unfold mbind, M_bind. apply (spends_bind is_request 1 0);
          [apply spends_external|].
        intros data. eapply spends_quiet with (R := anything).
        repeat main_step. all: exact I.
      * intros e. eapply spends_quiet with (R := anything).
        repeat main_step. all: exact I.
    + intros video_urls. eapply spends_quiet with (R := anything).
      destruct video_urls as [[|u us]|];
        [now apply behaves_raise|apply main_loop_no_request
        |now apply behaves_raise].
  - intros e. eapply spends_quiet with (R := anything).
    now apply behaves_logging.
Qed.

(** X21.  Whatever the collaborators do, [main] of the ffmpeg variant
    returns normally, no exception leaving it, and one run calls
    [requests.get] at most once: the search is made once and never made
    again, whatever happens to the candidates. *)
Theorem main_searches_once (E : Env) (w : World) :
  fst (Ffmpeg.main E w) = Ret tt
  /\ exists added,
       since (calls w) (calls (snd (Ffmpeg.main E w))) added
       /\ (count is_request added <= 1)%nat.
Proof.
  split; [apply OrchestratorFacts.main_never_raises|apply main_requests].
Qed.

End MainFacts.

(** ** What the moviepy variant writes for a source that is large enough *)

Module CompositionFacts.
Import Rt Clip Moviepy Logic.

Lemma wrapped_title_returns (text : string) :
  exists wrapped_title, break_text text 3 40 = Ret wrapped_title.
Proof.
  destruct (TextWrapFacts.wrap_fits text 40 ltac:(lia)) as (raw & Hraw & _).
  unfold break_text, Title.break_lines. rewrite Hraw.
  destruct (Z_le_gt_dec (Z.of_nat (length raw)) 3) as [Hs|Hl].
  - rewrite (TitleFacts.truncate_short 3 raw Hs). eauto.
  - destruct (TitleFacts.truncate_long 3 raw ltac:(lia) ltac:(lia))
      as (init & last_line & _ & ->).
    eauto.
Qed.

Lemma fit_within_returns (w h : Z) :
  w <> 0 -> h <> 0 -> exists new_size, fit_within w h = Ret new_size.
Proof.
  intros Hw Hh. unfold fit_within, scale_factor, truediv, target_size.
  cbn [fst snd].
  assert ((w =? 0) = false) as -> by (apply Z.eqb_neq; exact Hw).
  assert ((h =? 0) = false) as -> by (apply Z.eqb_neq; exact Hh).
  eauto.
Qed.

(** The layers of the main clip, in the order they are painted. *)
Definition layers (E : Env) (source : clip) (new_size : Z * Z)
    (wrapped_title : string) : list clip :=
  [SetPosition (background source) (Named "center") (Named "center");
   SetPosition (foreground source new_size) (Named "center") (Named "center");
   title_banner E wrapped_title].



End CompositionFacts.
